(** * ArcMiner: claim ledger reconciler and mining session engine

    A shallow embedding of the server routes ([src/server/routes.ts]), the
    in-memory storage ([src/server/storage.ts]) and the two variants of the
    client session component ([src/unnamed/part_002], [src/unnamed/part_000]).

    Conventions of the embedding:
    - JavaScript strings are [string]s, read byte by byte: this is faithful
      for ASCII text (addresses, hashes and decimal numerals are ASCII).
      Beyond ASCII only the white space that may wrap a numeral is
      recognised, in its UTF-8 encoding.
    - [Date.now()] and every millisecond quantity is a [Z].
    - JavaScript numbers that are not integers (progress, rewards, token
      amounts) are exact rationals [Q]; [NaN] is [None] where it can arise.
      The rounding of doubles is not modelled.  An equation between such
      numbers, written [==], is one of exact arithmetic and holds of the
      code up to that rounding (of the order of 1e-14, against a tick's
      worth of progress of 1/60); bounds, and equations between results of
      the same operations, hold of the code as they stand.
    - A [try { ... } catch] body is a computation in the [Completion] monad:
      [Throw] is an exception reaching the handler. *)

From Stdlib Require Import ZArith QArith Qminmax Qround Qabs.
From Stdlib Require Import List String Ascii Bool Lia Lqa.
From Stdlib Require Import Permutation Sorted DecimalString.
Import ListNotations.

Local Open Scope string_scope.
Local Open Scope list_scope.
Local Open Scope Z_scope.

(** ** Completions: normal return or thrown exception *)

Inductive Completion (A : Type) : Type :=
| Return (a : A)
| Throw (message : string).

Arguments Return {A} a.
Arguments Throw {A} message.

Definition bind {A B : Type} (c : Completion A) (k : A -> Completion B) : Completion B :=
  match c with
  | Return a => k a
  | Throw m => Throw m
  end.

Notation "x <- c ;; k" := (bind c (fun x => k))
  (at level 61, c at next level, right associativity).

Fixpoint mapM {A B : Type} (f : A -> Completion B) (l : list A) : Completion (list B) :=
  match l with
  | [] => Return []
  | a :: r => b <- f a ;; bs <- mapM f r ;; Return (b :: bs)
  end.

(** ** The fragment of the JavaScript library the routes use *)

Module JS.

Definition code (c : ascii) : Z := Z.of_nat (nat_of_ascii c).

Definition lowerChar (c : ascii) : ascii :=
  if (65 <=? code c) && (code c <=? 90)
  then ascii_of_nat (nat_of_ascii c + 32)
  else c.

(** [String.prototype.toLowerCase] on the ASCII letters; every other byte is
    kept. *)
Fixpoint toLowerCase (s : string) : string :=
  match s with
  | EmptyString => EmptyString
  | String c r => String (lowerChar c) (toLowerCase r)
  end.

(** [StrWhiteSpaceChar] in one byte: TAB, LF, VT, FF, CR, SP. *)
Definition isWhiteSpace (c : ascii) : bool :=
  ((9 <=? code c) && (code c <=? 13)) || (code c =? 32).

(** [StrWhiteSpaceChar] in two bytes of UTF-8: U+00A0. *)
Definition isWhiteSpace2 (a b : ascii) : bool :=
  (code a =? 194) && (code b =? 160).

(** [StrWhiteSpaceChar] in three bytes of UTF-8: U+1680, U+2000 to U+200A,
    U+2028, U+2029, U+202F, U+205F, U+3000 and U+FEFF. *)
Definition isWhiteSpace3 (a b c : ascii) : bool :=
  ((code a =? 225) && (code b =? 154) && (code c =? 128))
  || ((code a =? 226) && (code b =? 128)
      && (((128 <=? code c) && (code c <=? 138))
          || (code c =? 168) || (code c =? 169) || (code c =? 175)))
  || ((code a =? 226) && (code b =? 129) && (code c =? 159))
  || ((code a =? 227) && (code b =? 128) && (code c =? 128))
  || ((code a =? 239) && (code b =? 187) && (code c =? 191)).

Fixpoint trimStart (cs : list ascii) : list ascii :=
  match cs with
  | [] => []
  | a :: r1 =>
      if isWhiteSpace a then trimStart r1
      else match r1 with
           | b :: r2 =>
               if isWhiteSpace2 a b then trimStart r2
               else match r2 with
                    | c :: r3 => if isWhiteSpace3 a b c then trimStart r3 else cs
                    | [] => cs
                    end
           | [] => cs
           end
  end.

(** The same from the end of the text; [cs] is the text reversed. *)
Fixpoint trimEndReversed (cs : list ascii) : list ascii :=
  match cs with
  | [] => []
  | c :: r1 =>
      if isWhiteSpace c then trimEndReversed r1
      else match r1 with
           | b :: r2 =>
               if isWhiteSpace2 b c then trimEndReversed r2
               else match r2 with
                    | a :: r3 => if isWhiteSpace3 a b c then trimEndReversed r3 else cs
                    | [] => cs
                    end
           | [] => cs
           end
  end.

Definition trim (cs : list ascii) : list ascii :=
  rev (trimEndReversed (rev (trimStart cs))).

(** Value of a digit in radix up to 36. *)
Definition digitValue (c : ascii) : option Z :=
  let n := code c in
  if (48 <=? n) && (n <=? 57) then Some (n - 48)
  else if (97 <=? n) && (n <=? 122) then Some (n - 87)
  else if (65 <=? n) && (n <=? 90) then Some (n - 55)
  else None.

Definition digitIn (radix : Z) (c : ascii) : option Z :=
  match digitValue c with
  | Some d => if d <? radix then Some d else None
  | None => None
  end.

(** Every character must be a digit of the radix. *)
Fixpoint digitsValue (radix acc : Z) (cs : list ascii) : option Z :=
  match cs with
  | [] => Some acc
  | c :: r =>
      match digitIn radix c with
      | Some d => digitsValue radix (acc * radix + d) r
      | None => None
      end
  end.

Definition numeral (radix : Z) (cs : list ascii) : option Z :=
  match cs with
  | [] => None
  | _ => digitsValue radix 0 cs
  end.

Definition isChar (c : ascii) (s : string) : bool :=
  match s with
  | String d EmptyString => Ascii.eqb c d
  | _ => false
  end.

(** [StringToBigInt]: optional white space around a signed decimal numeral or
    an unsigned [0x], [0o], [0b] numeral; the empty string is [0n]. *)
Definition StringToBigInt (s : string) : option Z :=
  match trim (list_ascii_of_string s) with
  | [] => Some 0
  | c :: r =>
      if isChar c "+" then numeral 10 r
      else if isChar c "-" then option_map Z.opp (numeral 10 r)
      else match r with
           | p :: digits =>
               if isChar c "0" && (isChar p "x" || isChar p "X") then numeral 16 digits
               else if isChar c "0" && (isChar p "o" || isChar p "O") then numeral 8 digits
               else if isChar c "0" && (isChar p "b" || isChar p "B") then numeral 2 digits
               else numeral 10 (c :: r)
           | [] => numeral 10 (c :: r)
           end
  end.

(** [BigInt(string)]: throws a [SyntaxError] when the string is no numeral. *)
Definition BigInt (s : string) : Completion Z :=
  match StringToBigInt s with
  | Some v => Return v
  | None => Throw "SyntaxError: Cannot convert to a BigInt"
  end.

(** Longest prefix of digits of the radix, as a value; [None] when empty. *)
Fixpoint prefixValue (radix : Z) (acc : option Z) (cs : list ascii) : option Z :=
  match cs with
  | [] => acc
  | c :: r =>
      match digitIn radix c with
      | Some d =>
          prefixValue radix (Some (match acc with Some a => a * radix + d | None => d end)) r
      | None => acc
      end
  end.

(** [parseInt(string)] with no radix argument; [None] is [NaN]. *)
Definition parseInt (s : string) : option Z :=
  let cs := trimStart (list_ascii_of_string s) in
  let '(sign, cs1) :=
    match cs with
    | c :: r => if isChar c "-" then (-1, r) else if isChar c "+" then (1, r) else (1, cs)
    | [] => (1, cs)
    end in
  let '(radix, cs2) :=
    match cs1 with
    | c :: p :: r => if isChar c "0" && (isChar p "x" || isChar p "X") then (16, r) else (10, cs1)
    | _ => (10, cs1)
    end in
  option_map (Z.mul sign) (prefixValue radix None cs2).

(** [String.prototype.slice(0, n)] *)
Definition slice0 (n : nat) (s : string) : string := substring 0 n s.

(** Decimal numeral of a natural number. *)
Definition digitsOf (n : Z) : string :=
  NilZero.string_of_uint (N.to_uint (Z.to_N n)).

Fixpoint zeros (k : nat) : string :=
  match k with
  | O => ""
  | S k' => String "0" (zeros k')
  end.

(** [Number.prototype.toFixed(f)] on an exact rational below 10^21 in
    absolute value: the nearest multiple of [10^-f], the larger one on a
    tie, printed with [f] fraction digits.  (From 10^21 on JavaScript prints
    the exponent form of the number; the facts below use [toFixed] on
    rewards up to 200 and on sums of amounts of 200 only.) *)
Definition toFixed (f : nat) (x : Q) : string :=
  let a := Qabs x in
  let n := Qfloor (a * inject_Z (10 ^ Z.of_nat f) + (1 # 2)) in
  let m := digitsOf n in
  let m := if (String.length m <=? f)%nat
           then (zeros (f + 1 - String.length m) ++ m)%string else m in
  let k := String.length m in
  let body := if (f =? 0)%nat then m
              else (substring 0 (k - f) m ++ "." ++ substring (k - f) f m)%string in
  if Qlt_le_dec x 0 then ("-" ++ body)%string else body.

(** [Number.prototype.toFixed] on a number that may be [NaN]. *)
Definition toFixedNumber (f : nat) (x : option Q) : string :=
  match x with
  | Some q => toFixed f q
  | None => "NaN"
  end.

(** [new Date(ms).toISOString()]: the instant is kept as its time value; an
    invalid date ([NaN] or beyond 8.64e15 ms) throws a [RangeError]. *)
Definition Date_toISOString (ms : option Z) : Completion Z :=
  match ms with
  | Some t =>
      if Z.abs t <=? 8640000000000000 then Return t
      else Throw "RangeError: Invalid time value"
  | None => Throw "RangeError: Invalid time value"
  end.

End JS.

(** ** Shared schema: the claim ledger entry *)

Module Schema.

(** [ClaimHistory]: a stored or feed-derived ledger entry; [claimedAt] is
    the instant in milliseconds. *)
Record ClaimHistory : Type := {
  id : string;
  walletAddress : string;
  amount : string;
  transactionHash : option string;
  claimedAt : Z
}.

(** [InsertClaimHistory]: the body of a local claim report. *)
Module Insert.
Record InsertClaimHistory : Type := {
  walletAddress : string;
  amount : string;
  transactionHash : option string
}.
End Insert.

Definition isDecimalDigit (c : ascii) : bool :=
  (48 <=? JS.code c) && (JS.code c <=? 57).

Fixpoint allDigits (cs : list ascii) : bool :=
  match cs with
  | [] => true
  | c :: r => isDecimalDigit c && allDigits r
  end.

(** Splits at the first ["."]: the integer part and, when there is a point,
    the fraction part. *)
Fixpoint splitAtPoint (cs : list ascii) : list ascii * option (list ascii) :=
  match cs with
  | [] => ([], None)
  | c :: r =>
      if JS.isChar c "." then ([], Some r)
      else let '(i, f) := splitAtPoint r in (c :: i, f)
  end.

(** A non-negative fixed-point decimal: digits, then optionally a point and
    digits; no sign. *)
Definition isFixedPointDecimal (s : string) : bool :=
  match splitAtPoint (list_ascii_of_string s) with
  | (i, None) => negb (Nat.eqb (List.length i) 0) && allDigits i
  | (i, Some f) =>
      negb (Nat.eqb (List.length i) 0) && allDigits i &&
      negb (Nat.eqb (List.length f) 0) && allDigits f
  end.

(** Modelled from the spec: [insertClaimHistorySchema.parse] of
    [@shared/schema], which is not among the sources.  The spec's words:
    "validates shape (non-empty address, amount parses as a non-negative
    fixed-point decimal); fails with ValidationError on malformed input". *)
Definition insertClaimHistorySchema_parse (body : Insert.InsertClaimHistory)
  : Completion Insert.InsertClaimHistory :=
  if (Insert.walletAddress body =? "")%string then
    Throw "ValidationError: walletAddress must not be empty"
  else if negb (isFixedPointDecimal (Insert.amount body)) then
    Throw "ValidationError: amount must be a non-negative decimal"
  else Return body.

End Schema.

(** ** In-memory storage ([src/server/storage.ts]) *)

Module Storage.
Import Schema.

(** A JavaScript [Map] keeps its keys in insertion order; [set] on a present
    key replaces the value in place. *)
Fixpoint Map_set {V : Type} (k : string) (v : V) (m : list (string * V)) : list (string * V) :=
  match m with
  | [] => [(k, v)]
  | (k', v') :: r =>
      if (k =? k')%string then (k, v) :: r else (k', v') :: Map_set k v r
  end.

Definition Map_values {V : Type} (m : list (string * V)) : list V := map snd m.

Definition Map_has {V : Type} (k : string) (m : list (string * V)) : bool :=
  existsb (fun kv => (k =? fst kv)%string) m.

(** [Array.prototype.sort(compare)]: a stable sort; [x] goes before [y] when
    [compare x y <= 0]. *)
Fixpoint insertBy {A : Type} (compare : A -> A -> Z) (x : A) (l : list A) : list A :=
  match l with
  | [] => [x]
  | y :: r => if compare x y <=? 0 then x :: l else y :: insertBy compare x r
  end.

Fixpoint sortBy {A : Type} (compare : A -> A -> Z) (l : list A) : list A :=
  match l with
  | [] => []
  | x :: r => insertBy compare x (sortBy compare r)
  end.

Record MemStorage : Type := {
  claimHistory : list (string * ClaimHistory)
}.

(** [new MemStorage()] *)
Definition empty : MemStorage := {| claimHistory := [] |}.

(** The comparator [(a, b) => b.claimedAt.getTime() - a.claimedAt.getTime()]. *)
Definition newestFirst (a b : ClaimHistory) : Z := claimedAt b - claimedAt a.

(** [createClaimHistory]: [uuid] is the value [randomUUID()] returns and [now]
    the time [new Date()] reads. *)
Definition createClaimHistory (uuid : string) (now : Z)
  (insertClaim : Insert.InsertClaimHistory) (st : MemStorage)
  : MemStorage * ClaimHistory :=
  let id := uuid in
  let claim := {|
    walletAddress := Insert.walletAddress insertClaim;
    amount := Insert.amount insertClaim;
    transactionHash := Insert.transactionHash insertClaim;
    id := id;
    claimedAt := now
  |} in
  ({| claimHistory := Map_set id claim (claimHistory st) |}, claim).

Definition getClaimHistory (limit : nat) (st : MemStorage) : list ClaimHistory :=
  let claims := Map_values (claimHistory st) in
  firstn limit (sortBy newestFirst claims).

Definition getClaimHistoryByWallet (wallet : string) (st : MemStorage) : list ClaimHistory :=
  let claims :=
    filter (fun claim =>
              (JS.toLowerCase (walletAddress claim) =? JS.toLowerCase wallet)%string)
           (Map_values (claimHistory st)) in
  sortBy newestFirst claims.

End Storage.

(** ** HTTP routes ([src/server/routes.ts]) *)

Module Routes.
Import Schema.

Definition FAUCET_CONTRACT : string := "0xBd736A5D744A6364dd74B12Bb679d66360d7AeD9".
Definition USDC_ADDRESS : string := "0x3600000000000000000000000000000000000000".

Record ArcscanTokenTransfer : Type := {
  hash : string;
  from : string;
  to : string;
  value : string;
  tokenSymbol : string;
  tokenDecimal : string;
  timeStamp : string;
  contractAddress : option string
}.

(** The parsed JSON body of the feed: [result] is [None] when it is absent
    or [null]. *)
Record FeedData : Type := {
  status : string;
  result : option (list ArcscanTokenTransfer)
}.

(** What [fetch] and [response.json()] can do: [fetch] rejects (network
    error); or it answers with [response.ok] and a body that parses as JSON
    ([Some]) or does not ([None]). *)
Inductive FetchOutcome : Type :=
| FetchRejected (message : string)
| Fetched (ok : bool) (body : option FeedData).

(** [BigInt(200) * BigInt(10 ** 6)] *)
Definition TARGET_VALUE : Z := 200 * 10 ^ 6.

(** The callback of [.filter] in both feed handlers. *)
Definition claimFilter (tx : ArcscanTokenTransfer) : bool :=
  let fromLower := JS.toLowerCase (from tx) in
  let contractLower := JS.toLowerCase FAUCET_CONTRACT in
  let tokenLower :=
    match contractAddress tx with
    | Some a => JS.toLowerCase a
    | None => ""
    end in
  let usdcLower := JS.toLowerCase USDC_ADDRESS in
  match JS.BigInt (value tx) with
  | Return valueBigInt =>
      (fromLower =? contractLower)%string &&
      (tokenLower =? usdcLower)%string &&
      (valueBigInt =? TARGET_VALUE)
  | Throw _ => false
  end.

(** [tx.tokenDecimal || '6'] *)
Definition tokenDecimalOr6 (tx : ArcscanTokenTransfer) : string :=
  if (tokenDecimal tx =? "")%string then "6" else tokenDecimal tx.

(** [Number(BigInt(tx.value)) / Math.pow(10, decimals)]; [None] is [NaN]. *)
Definition scaledValue (tx : ArcscanTokenTransfer) : Completion (option Q) :=
  let decimals := JS.parseInt (tokenDecimalOr6 tx) in
  v <- JS.BigInt (value tx) ;;
  Return (option_map (fun d => (inject_Z v / Qpower (10 # 1) d)%Q) decimals).

(** The callback of [.map] in [GET /api/claim-history]. *)
Definition toClaim (tx : ArcscanTokenTransfer) : Completion ClaimHistory :=
  value <- scaledValue tx ;;
  instant <- JS.Date_toISOString (option_map (fun s => s * 1000) (JS.parseInt (timeStamp tx))) ;;
  Return {|
    id := JS.slice0 8 (hash tx);
    walletAddress := to tx;
    amount := JS.toFixedNumber 6 value;
    transactionHash := Some (hash tx);
    claimedAt := instant
  |}.

(** The [try] body shared by both feed handlers up to the parsed payload. *)
Definition fetchFeed (feed : FetchOutcome) : Completion FeedData :=
  match feed with
  | FetchRejected m => Throw m
  | Fetched ok body =>
      if negb ok then Throw "Failed to fetch from arcscan"
      else match body with
           | Some data => Return data
           | None => Throw "SyntaxError: Unexpected token in JSON"
           end
  end.

(** [data.status !== "1" || !data.result]: [None] when the guard fires. *)
Definition guardedResult (data : FeedData) : option (list ArcscanTokenTransfer) :=
  if negb (status data =? "1")%string then None else result data.

(** The [try] body of [GET /api/claim-history]. *)
Definition claimHistoryTry (feed : FetchOutcome) : Completion (list ClaimHistory) :=
  data <- fetchFeed feed ;;
  match guardedResult data with
  | None => Return []
  | Some txs => mapM toClaim (filter claimFilter txs)
  end.

(** What a handler does: the JSON body it sends (always with status 200 for
    the two feed handlers) and the lines it writes with [console.error]. *)
Record Handled (A : Type) : Type := {
  statusCode : Z;
  json : A;
  console : list string
}.
Arguments statusCode {A} _.
Arguments json {A} _.
Arguments console {A} _.

(** [GET /api/claim-history] *)
Definition getClaimHistoryRoute (feed : FetchOutcome) (st : Storage.MemStorage)
  : Handled (list ClaimHistory) :=
  match claimHistoryTry feed with
  | Return claims => {| statusCode := 200; json := claims; console := [] |}
  | Throw error =>
      let localClaims := Storage.getClaimHistory 50 st in
      {| statusCode := 200; json := localClaims;
         console := [("Error fetching claim history: " ++ error)%string] |}
  end.

(** [GET /api/claim-history/:walletAddress] *)
Definition getClaimHistoryByWalletRoute (wallet : string) (st : Storage.MemStorage)
  : Handled (list ClaimHistory) :=
  {| statusCode := 200; json := Storage.getClaimHistoryByWallet wallet st; console := [] |}.

Record TotalClaimed : Type := {
  totalClaimed : string;
  claimCount : nat
}.

(** The [reduce] of [GET /api/total-claimed]: a sum of numbers, [None] once a
    summand is [NaN]. *)
Fixpoint reduceSum (sum : option Q) (txs : list ArcscanTokenTransfer) : Completion (option Q) :=
  match txs with
  | [] => Return sum
  | tx :: r =>
      value <- scaledValue tx ;;
      reduceSum (match sum, value with
                 | Some a, Some b => Some (a + b)%Q
                 | _, _ => None
                 end) r
  end.

(** The [try] body of [GET /api/total-claimed]. *)
Definition totalClaimedTry (feed : FetchOutcome) : Completion TotalClaimed :=
  data <- fetchFeed feed ;;
  match guardedResult data with
  | None => Return {| totalClaimed := "0"; claimCount := 0 |}
  | Some txs =>
      let validClaims := filter claimFilter txs in
      total <- reduceSum (Some 0%Q) validClaims ;;
      Return {| totalClaimed := JS.toFixedNumber 2 total;
                claimCount := List.length validClaims |}
  end.

(** [GET /api/total-claimed] *)
Definition getTotalClaimedRoute (feed : FetchOutcome) : Handled TotalClaimed :=
  match totalClaimedTry feed with
  | Return body => {| statusCode := 200; json := body; console := [] |}
  | Throw error =>
      {| statusCode := 200;
         json := {| totalClaimed := "0"; claimCount := 0 |};
         console := [("Error fetching total claimed: " ++ error)%string] |}
  end.

(** The body of [POST /api/claim-history]: the created claim or [{error}]. *)
Inductive PostBody : Type :=
| ClaimJson (claim : ClaimHistory)
| ErrorJson (error : string).

(** [POST /api/claim-history]; [uuid] and [now] are what [randomUUID()] and
    [new Date()] give the storage. *)
Definition postClaimHistoryRoute (uuid : string) (now : Z)
  (body : Insert.InsertClaimHistory) (st : Storage.MemStorage)
  : Storage.MemStorage * Handled PostBody :=
  match insertClaimHistorySchema_parse body with
  | Return validatedData =>
      let '(st', claim) := Storage.createClaimHistory uuid now validatedData st in
      (st', {| statusCode := 200; json := ClaimJson claim; console := [] |})
  | Throw message =>
      (st, {| statusCode := 400; json := ErrorJson message; console := [] |})
  end.

End Routes.

(** ** What a client component does besides updating its state *)

Module Client.

Inductive LogType : Type := block | share | info | reward.

(** [MiningLog]; [timestamp] is the instant the entry was made. *)
Record MiningLog : Type := {
  id : Z;
  timestamp : Z;
  type : LogType;
  message : string
}.

Inductive Effect : Type :=
| Toast (destructive : bool) (title description : string)
| Log (entry : MiningLog)
| ReportClaim (data : Schema.Insert.InsertClaimHistory)
| WriteContract
| Refetch.

(** The constants an interval callback closes over: they are fixed when
    the mining effect runs. *)
Record Timer : Type := {
  startTime : Z;
  initialProgress : Q;
  remainingTime : Z;
  endTime : Z
}.

(** [pausedTimeLeft || 600000] *)
Definition orFullSession (pausedTimeLeft : Z) : Z :=
  if pausedTimeLeft =? 0 then 600000 else pausedTimeLeft.

(** The first lines of the mining effect, common to both components. *)
Definition installTimer (now : Z) (pausedProgress : Q) (pausedTimeLeft : Z) : Timer :=
  let startTime := now in
  let initialProgress := pausedProgress in
  let remainingTime := orFullSession pausedTimeLeft in
  let endTime := startTime + remainingTime in
  {| startTime := startTime; initialProgress := initialProgress;
     remainingTime := remainingTime; endTime := endTime |}.

(** [Math.max(0, endTime - now)] *)
Definition remainingAt (t : Timer) (now : Z) : Z := Z.max 0 (endTime t - now).

(** The progress a tick computes, common to both components. *)
Definition progressAt (t : Timer) (now : Z) : Q :=
  let remaining := remainingAt t now in
  let elapsed := remainingTime t - remaining in
  let additionalProgress := (inject_Z elapsed / 600000 * 100)%Q in
  Qmin 100 (initialProgress t + additionalProgress)%Q.

Fixpoint logsOf (out : list Effect) : list MiningLog :=
  match out with
  | [] => []
  | Log entry :: r => entry :: logsOf r
  | _ :: r => logsOf r
  end.

End Client.

(** ** The session component ([src/unnamed/part_002]) *)

Module App.
Import Client.

Inductive MiningState : Type := idle | mining | paused | completed.

Definition MiningState_eqb (a b : MiningState) : bool :=
  match a, b with
  | idle, idle | mining, mining | paused, paused | completed, completed => true
  | _, _ => false
  end.

(** The component's state: one field per [useState] and [useRef], and the
    constants of the running intervals ([None] when none is installed). *)
Record Session : Type := mkSession {
  miningState : MiningState;
  progress : Q;
  timeLeft : Z;
  hashRate : Q;
  pausedProgress : Q;
  pausedTimeLeft : Z;
  showStopWarning : bool;
  cpuEnabled : bool;
  gpuEnabled : bool;
  miningLogs : list MiningLog;
  blocksFound : Z;
  sharesFound : Z;
  canFindShares : bool;
  displayedReward : Q;
  logIdRef : Z;
  timers : option Timer
}.

Definition initial : Session :=
  mkSession idle 0 600000 0 0 0 false true false [] 0 0 false 0 0 None.

Definition setMiningState v s := mkSession v (progress s) (timeLeft s) (hashRate s) (pausedProgress s) (pausedTimeLeft s) (showStopWarning s) (cpuEnabled s) (gpuEnabled s) (miningLogs s) (blocksFound s) (sharesFound s) (canFindShares s) (displayedReward s) (logIdRef s) (timers s).
Definition setProgress v s := mkSession (miningState s) v (timeLeft s) (hashRate s) (pausedProgress s) (pausedTimeLeft s) (showStopWarning s) (cpuEnabled s) (gpuEnabled s) (miningLogs s) (blocksFound s) (sharesFound s) (canFindShares s) (displayedReward s) (logIdRef s) (timers s).
Definition setTimeLeft v s := mkSession (miningState s) (progress s) v (hashRate s) (pausedProgress s) (pausedTimeLeft s) (showStopWarning s) (cpuEnabled s) (gpuEnabled s) (miningLogs s) (blocksFound s) (sharesFound s) (canFindShares s) (displayedReward s) (logIdRef s) (timers s).
Definition setHashRate v s := mkSession (miningState s) (progress s) (timeLeft s) v (pausedProgress s) (pausedTimeLeft s) (showStopWarning s) (cpuEnabled s) (gpuEnabled s) (miningLogs s) (blocksFound s) (sharesFound s) (canFindShares s) (displayedReward s) (logIdRef s) (timers s).
Definition setPausedProgress v s := mkSession (miningState s) (progress s) (timeLeft s) (hashRate s) v (pausedTimeLeft s) (showStopWarning s) (cpuEnabled s) (gpuEnabled s) (miningLogs s) (blocksFound s) (sharesFound s) (canFindShares s) (displayedReward s) (logIdRef s) (timers s).
Definition setPausedTimeLeft v s := mkSession (miningState s) (progress s) (timeLeft s) (hashRate s) (pausedProgress s) v (showStopWarning s) (cpuEnabled s) (gpuEnabled s) (miningLogs s) (blocksFound s) (sharesFound s) (canFindShares s) (displayedReward s) (logIdRef s) (timers s).
Definition setShowStopWarning v s := mkSession (miningState s) (progress s) (timeLeft s) (hashRate s) (pausedProgress s) (pausedTimeLeft s) v (cpuEnabled s) (gpuEnabled s) (miningLogs s) (blocksFound s) (sharesFound s) (canFindShares s) (displayedReward s) (logIdRef s) (timers s).
Definition setCpuEnabled v s := mkSession (miningState s) (progress s) (timeLeft s) (hashRate s) (pausedProgress s) (pausedTimeLeft s) (showStopWarning s) v (gpuEnabled s) (miningLogs s) (blocksFound s) (sharesFound s) (canFindShares s) (displayedReward s) (logIdRef s) (timers s).
Definition setGpuEnabled v s := mkSession (miningState s) (progress s) (timeLeft s) (hashRate s) (pausedProgress s) (pausedTimeLeft s) (showStopWarning s) (cpuEnabled s) v (miningLogs s) (blocksFound s) (sharesFound s) (canFindShares s) (displayedReward s) (logIdRef s) (timers s).
Definition setMiningLogs v s := mkSession (miningState s) (progress s) (timeLeft s) (hashRate s) (pausedProgress s) (pausedTimeLeft s) (showStopWarning s) (cpuEnabled s) (gpuEnabled s) v (blocksFound s) (sharesFound s) (canFindShares s) (displayedReward s) (logIdRef s) (timers s).
Definition setBlocksFound v s := mkSession (miningState s) (progress s) (timeLeft s) (hashRate s) (pausedProgress s) (pausedTimeLeft s) (showStopWarning s) (cpuEnabled s) (gpuEnabled s) (miningLogs s) v (sharesFound s) (canFindShares s) (displayedReward s) (logIdRef s) (timers s).
Definition setSharesFound v s := mkSession (miningState s) (progress s) (timeLeft s) (hashRate s) (pausedProgress s) (pausedTimeLeft s) (showStopWarning s) (cpuEnabled s) (gpuEnabled s) (miningLogs s) (blocksFound s) v (canFindShares s) (displayedReward s) (logIdRef s) (timers s).
Definition setCanFindShares v s := mkSession (miningState s) (progress s) (timeLeft s) (hashRate s) (pausedProgress s) (pausedTimeLeft s) (showStopWarning s) (cpuEnabled s) (gpuEnabled s) (miningLogs s) (blocksFound s) (sharesFound s) v (displayedReward s) (logIdRef s) (timers s).
Definition setDisplayedReward v s := mkSession (miningState s) (progress s) (timeLeft s) (hashRate s) (pausedProgress s) (pausedTimeLeft s) (showStopWarning s) (cpuEnabled s) (gpuEnabled s) (miningLogs s) (blocksFound s) (sharesFound s) (canFindShares s) v (logIdRef s) (timers s).
Definition setLogIdRef v s := mkSession (miningState s) (progress s) (timeLeft s) (hashRate s) (pausedProgress s) (pausedTimeLeft s) (showStopWarning s) (cpuEnabled s) (gpuEnabled s) (miningLogs s) (blocksFound s) (sharesFound s) (canFindShares s) (displayedReward s) v (timers s).
Definition setTimers v s := mkSession (miningState s) (progress s) (timeLeft s) (hashRate s) (pausedProgress s) (pausedTimeLeft s) (showStopWarning s) (cpuEnabled s) (gpuEnabled s) (miningLogs s) (blocksFound s) (sharesFound s) (canFindShares s) (displayedReward s) (logIdRef s) v.

(** A handler or callback: a state update together with its effects. *)
Definition Action : Type := Session -> Session * list Effect.

Definition set (f : Session -> Session) : Action := fun s => (f s, []).
Definition emit (e : Effect) : Action := fun s => (s, [e]).
Definition skip : Action := fun s => (s, []).

Definition andThen (a b : Action) : Action :=
  fun s => let '(s1, o1) := a s in let '(s2, o2) := b s1 in (s2, o1 ++ o2).

(** The statements of a handler, in order. *)
Fixpoint perform (body : list Action) : Action :=
  match body with
  | [] => skip
  | a :: r => andThen a (perform r)
  end.

(** [prev.slice(-n)] *)
Definition sliceLast {A : Type} (n : nat) (l : list A) : list A :=
  skipn (List.length l - n) l.

Definition getHashRateRange (s : Session) : Q * Q :=
  if cpuEnabled s && gpuEnabled s then (400, 700)%Q
  else if gpuEnabled s then (300, 500)%Q
  else if cpuEnabled s then (100, 200)%Q
  else (0, 0)%Q.

Definition addLog (now : Z) (ty : LogType) (msg : string) : Action :=
  fun s =>
    let newLog := {| id := logIdRef s + 1; timestamp := now; type := ty; message := msg |} in
    perform [
      set (setLogIdRef (logIdRef s + 1));
      set (fun s' => setMiningLogs (sliceLast 50 (miningLogs s') ++ [newLog]) s');
      emit (Log newLog)
    ] s.

Definition startedWith (s : Session) : string :=
  ("Mining started with "
   ++ (if cpuEnabled s then "CPU" else "")
   ++ (if cpuEnabled s && gpuEnabled s then " + " else "")
   ++ (if gpuEnabled s then "GPU" else ""))%string.

(** The callback of the 100 ms interval; [random] is [Math.random()] and
    [range] the hash rate range the effect computed (the devices are
    dependencies of the effect, so it is the range of the current devices). *)
Definition tick (t : Timer) (range : Q * Q) (now : Z) (random : Q) : Action :=
  let remaining := remainingAt t now in
  let p := progressAt t now in
  let newHashRate := (fst range + random * (snd range - fst range))%Q in
  perform [
    set (setTimeLeft remaining);
    set (setProgress p);
    set (setHashRate newHashRate);
    if remaining <=? 0 then
      perform [
        set (setMiningState completed);
        set (setProgress 100);
        set (setDisplayedReward 200);
        addLog now reward "Mining session completed! 200 USDC ready to claim";
        emit (Toast false "Mining Complete!" "200 USDC ready to claim.")
      ]
    else skip
  ].

(** [(200 / 100) * (100 / 600)] *)
Definition increment : Q := ((200 / 100) * (100 / 600))%Q.

(** The callback of the 800 ms interval; [rand] is its first [Math.random()],
    [blockHash], [shareTag] and [hr] what the later draws render to. *)
Definition logTick (now : Z) (rand : Q) (blockHash shareTag : string) (hr : Q) : Action :=
  fun s =>
    if Qlt_le_dec rand (15 # 100) then
      perform [
        addLog now block ("Block found! Hash: 0x" ++ blockHash ++ "...")%string;
        set (fun s' => setBlocksFound (blocksFound s' + 1) s');
        set (setCanFindShares true)
      ] s
    else if Qlt_le_dec rand (45 # 100) then
      if canFindShares s then
        perform [
          addLog now share ("Share accepted #" ++ shareTag)%string;
          set (fun s' => setSharesFound (sharesFound s' + 1) s');
          set (fun s' => setDisplayedReward (Qmin 200 (displayedReward s' + increment)) s')
        ] s
      else skip s
    else if Qlt_le_dec rand (60 # 100) then
      addLog now info ("Hashrate: " ++ JS.toFixed 2 hr ++ " MH/s")%string s
    else skip s.

Definition startMining (hasReachedLimit : bool) : Action :=
  fun s =>
    if hasReachedLimit then
      emit (Toast true "Limit Reached"
              "Your wallet has reached the maximum claim limit of 2000 USDC.") s
    else if negb (cpuEnabled s) && negb (gpuEnabled s) then
      emit (Toast true "No Mining Device"
              "Please enable CPU or GPU to start mining.") s
    else
      perform [
        set (setMiningState mining);
        set (setTimeLeft 600000);
        set (setProgress 0);
        set (setDisplayedReward 0);
        set (setPausedProgress 0);
        set (setPausedTimeLeft 0);
        set (setMiningLogs []);
        set (setBlocksFound 0);
        set (setSharesFound 0);
        set (setCanFindShares false)
      ] s.

Definition pauseMining (now : Z) : Action :=
  fun s =>
    perform [
      set (setPausedProgress (progress s));
      set (setPausedTimeLeft (timeLeft s));
      set (setMiningState paused);
      addLog now info "Mining paused by user"
    ] s.

Definition continueMining (now : Z) : Action :=
  perform [
    addLog now info "Mining resumed";
    set (setMiningState mining)
  ].

Definition openStopWarning : Action := set (setShowStopWarning true).

Definition confirmStop : Action :=
  perform [
    set (setShowStopWarning false);
    set (setMiningState idle);
    set (setProgress 0);
    set (setTimeLeft 600000);
    set (setDisplayedReward 0);
    set (setPausedProgress 0);
    set (setPausedTimeLeft 0);
    set (setMiningLogs []);
    set (setBlocksFound 0);
    set (setSharesFound 0);
    set (setCanFindShares false);
    emit (Toast true "Mining Stopped"
            "All mined balance has been lost. Start again to mine.")
  ].

Definition cancelStopWarning : Action := set (setShowStopWarning false).

(** [handleClaim]; [connected] is [isConnected && address]. *)
Definition handleClaim (connected : bool) : Action :=
  if negb connected then skip else emit WriteContract.

(** The body of the effect on [[isConfirmed, hash, address]] when
    [isConfirmed] holds: it runs when the receipt of the transaction [hash]
    arrives, and again whenever [address] or [hash] changes while
    [isConfirmed] still holds, whatever state the session is in. *)
Definition onConfirmed (hash address : string) : Action :=
  if (hash =? "")%string || (address =? "")%string then skip
  else
    perform [
      emit (ReportClaim {|
              Schema.Insert.walletAddress := address;
              Schema.Insert.amount := "200.000000";
              Schema.Insert.transactionHash := Some hash |});
      emit (Toast false "Claim Successful!" "200 USDC has been sent to your wallet.");
      set (setMiningState idle);
      set (setDisplayedReward 0);
      set (setProgress 0);
      set (setPausedProgress 0);
      set (setPausedTimeLeft 0);
      set (setMiningLogs []);
      set (setCanFindShares false);
      set (setBlocksFound 0);
      set (setSharesFound 0);
      emit Refetch
    ].

(** The body of the effect on [[writeError]], the error of
    [useWriteContract]: it runs when the transaction could not be sent (the
    wallet rejected it, or its simulation failed). *)
Definition onWriteError (message : string) : Action :=
  emit (Toast true "Claim Failed" message).

(** A transaction that was sent and then reverted is reported by
    [useWaitForTransactionReceipt] through its error.  The component reads
    only [isLoading] and [isSuccess] of that hook: [isSuccess] stays false,
    no dependency of an effect changes and no handler runs. *)
Definition onReverted (message : string) : Action := skip.

(** Whether a dependency of the mining effect differs between two renders. *)
Definition depsChanged (a b : Session) : bool :=
  negb (MiningState_eqb (miningState a) (miningState b))
  || negb (Qeq_bool (pausedProgress a) (pausedProgress b))
  || negb (pausedTimeLeft a =? pausedTimeLeft b)
  || negb (Bool.eqb (cpuEnabled a) (cpuEnabled b))
  || negb (Bool.eqb (gpuEnabled a) (gpuEnabled b)).

(** The mining effect after a render: when a dependency changed, the old
    intervals are cleared and, in state [mining], new ones are installed. *)
Definition miningEffect (now : Z) (before : Session) : Action :=
  fun s =>
    if depsChanged before s then
      match miningState s with
      | mining =>
          perform [
            set (setTimers (Some (installTimer now (pausedProgress s) (pausedTimeLeft s))));
            if (Nat.eqb (List.length (miningLogs s)) 0) || Qeq_bool (pausedProgress s) 0 then
              perform [
                addLog now info "Connecting to Arc Testnet Node...";
                addLog now info "Connection established successfully";
                addLog now info (startedWith s)
              ]
            else skip
          ] s
      | _ => set (setTimers None) s
      end
    else skip s.

(** What can happen to the component. *)
Inductive Event : Type :=
| ClickStart (hasReachedLimit : bool)
| ClickPause
| ClickContinue
| ClickStop
| ClickConfirmStop
| ClickCancelStop
| ClickClaim (connected : bool)
| ToggleCpu
| ToggleGpu
| TimerFires (random : Q)
| LogTimerFires (rand : Q) (blockHash shareTag : string) (hr : Q)
| Confirmed (hash address : string)
| WriteError (message : string)
| Reverted (message : string).

(** The handler an event reaches: a button acts only in the states that
    render it, an interval only while it is installed. *)
Definition handle (now : Z) (e : Event) : Action :=
  fun s =>
    match e, miningState s with
    | ClickStart lim, idle => startMining lim s
    | ClickPause, mining => pauseMining now s
    | ClickContinue, paused => continueMining now s
    | ClickStop, (mining | paused) => openStopWarning s
    | ClickConfirmStop, _ => if showStopWarning s then confirmStop s else skip s
    | ClickCancelStop, _ => if showStopWarning s then cancelStopWarning s else skip s
    | ClickClaim connected, completed => handleClaim connected s
    | ToggleCpu, (idle | completed) => set (setCpuEnabled (negb (cpuEnabled s))) s
    | ToggleGpu, (idle | completed) => set (setGpuEnabled (negb (gpuEnabled s))) s
    | TimerFires random, _ =>
        match timers s with
        | Some t => tick t (getHashRateRange s) now random s
        | None => skip s
        end
    | LogTimerFires rand blockHash shareTag hr, _ =>
        match timers s with
        | Some _ => logTick now rand blockHash shareTag hr s
        | None => skip s
        end
    | Confirmed hash address, _ => onConfirmed hash address s
    | WriteError message, _ => onWriteError message s
    | Reverted message, _ => onReverted message s
    | _, _ => skip s
    end.

(** One event at time [now]: the handler, then the mining effect. *)
Definition step (now : Z) (e : Event) : Action :=
  fun s => andThen (handle now e) (miningEffect now s) s.

(** A run: the events with the times they happen at. *)
Fixpoint run (s : Session) (evs : list (Z * Event)) : Session :=
  match evs with
  | [] => s
  | (now, e) :: r => run (fst (step now e s)) r
  end.

(** Whether the event starts a session: [startMining] passes its checks. *)
Definition starts (e : Event) (s : Session) : bool :=
  match e, miningState s with
  | ClickStart lim, idle => negb lim && (cpuEnabled s || gpuEnabled s)
  | _, _ => false
  end.

(** The log stream of the current session: every entry made since the last
    session start, in order. *)
Fixpoint logStream (s : Session) (sofar : list MiningLog) (evs : list (Z * Event)) : list MiningLog :=
  match evs with
  | [] => sofar
  | (now, e) :: r =>
      let '(s', out) := step now e s in
      logStream s' ((if starts e s then [] else sofar) ++ logsOf out) r
  end.

(** How many events of the run take the session from [mining] to
    [completed]. *)
Fixpoint completions (s : Session) (evs : list (Z * Event)) : nat :=
  match evs with
  | [] => O
  | (now, e) :: r =>
      let s' := fst (step now e s) in
      ((if MiningState_eqb (miningState s) mining && MiningState_eqb (miningState s') completed
        then 1 else 0) + completions s' r)%nat
  end.

End App.

(** ** The variant of the session component with Stop & Claim
       ([src/unnamed/part_000]) *)

Module AppReady.
Import Client.

Inductive MiningState : Type := idle | mining | paused | ready.

Definition MiningState_eqb (a b : MiningState) : bool :=
  match a, b with
  | idle, idle | mining, mining | paused, paused | ready, ready => true
  | _, _ => false
  end.

Record Session : Type := mkSession {
  miningState : MiningState;
  progress : Q;
  timeLeft : Z;
  hashRate : Q;
  accumulatedReward : Q;
  pausedProgress : Q;
  pausedReward : Q;
  pausedTimeLeft : Z;
  showPauseDialog : bool;
  globalCooldown : Z;
  timers : option Timer
}.

Definition initial : Session :=
  mkSession idle 0 600000 0 0 0 0 0 false 0 None.

Definition setMiningState v s := mkSession v (progress s) (timeLeft s) (hashRate s) (accumulatedReward s) (pausedProgress s) (pausedReward s) (pausedTimeLeft s) (showPauseDialog s) (globalCooldown s) (timers s).
Definition setProgress v s := mkSession (miningState s) v (timeLeft s) (hashRate s) (accumulatedReward s) (pausedProgress s) (pausedReward s) (pausedTimeLeft s) (showPauseDialog s) (globalCooldown s) (timers s).
Definition setTimeLeft v s := mkSession (miningState s) (progress s) v (hashRate s) (accumulatedReward s) (pausedProgress s) (pausedReward s) (pausedTimeLeft s) (showPauseDialog s) (globalCooldown s) (timers s).
Definition setHashRate v s := mkSession (miningState s) (progress s) (timeLeft s) v (accumulatedReward s) (pausedProgress s) (pausedReward s) (pausedTimeLeft s) (showPauseDialog s) (globalCooldown s) (timers s).
Definition setAccumulatedReward v s := mkSession (miningState s) (progress s) (timeLeft s) (hashRate s) v (pausedProgress s) (pausedReward s) (pausedTimeLeft s) (showPauseDialog s) (globalCooldown s) (timers s).
Definition setPausedProgress v s := mkSession (miningState s) (progress s) (timeLeft s) (hashRate s) (accumulatedReward s) v (pausedReward s) (pausedTimeLeft s) (showPauseDialog s) (globalCooldown s) (timers s).
Definition setPausedReward v s := mkSession (miningState s) (progress s) (timeLeft s) (hashRate s) (accumulatedReward s) (pausedProgress s) v (pausedTimeLeft s) (showPauseDialog s) (globalCooldown s) (timers s).
Definition setPausedTimeLeft v s := mkSession (miningState s) (progress s) (timeLeft s) (hashRate s) (accumulatedReward s) (pausedProgress s) (pausedReward s) v (showPauseDialog s) (globalCooldown s) (timers s).
Definition setShowPauseDialog v s := mkSession (miningState s) (progress s) (timeLeft s) (hashRate s) (accumulatedReward s) (pausedProgress s) (pausedReward s) (pausedTimeLeft s) v (globalCooldown s) (timers s).
Definition setGlobalCooldown v s := mkSession (miningState s) (progress s) (timeLeft s) (hashRate s) (accumulatedReward s) (pausedProgress s) (pausedReward s) (pausedTimeLeft s) (showPauseDialog s) v (timers s).
Definition setTimers v s := mkSession (miningState s) (progress s) (timeLeft s) (hashRate s) (accumulatedReward s) (pausedProgress s) (pausedReward s) (pausedTimeLeft s) (showPauseDialog s) (globalCooldown s) v.

Definition Action : Type := Session -> Session * list Effect.

Definition set (f : Session -> Session) : Action := fun s => (f s, []).
Definition emit (e : Effect) : Action := fun s => (s, [e]).
Definition skip : Action := fun s => (s, []).

Definition andThen (a b : Action) : Action :=
  fun s => let '(s1, o1) := a s in let '(s2, o2) := b s1 in (s2, o1 ++ o2).

Fixpoint perform (body : list Action) : Action :=
  match body with
  | [] => skip
  | a :: r => andThen a (perform r)
  end.

(** The callback of the 100 ms interval; [random] is [Math.random()]. *)
Definition tick (t : Timer) (now : Z) (random : Q) : Action :=
  let remaining := remainingAt t now in
  let p := progressAt t now in
  let accumulated := Qmin 200 (p / 100 * 200)%Q in
  perform [
    set (setTimeLeft remaining);
    set (setProgress p);
    set (setAccumulatedReward accumulated);
    set (setHashRate (45 + random * 20)%Q);
    if remaining <=? 0 then
      perform [
        set (setMiningState ready);
        set (setAccumulatedReward 200);
        emit (Toast false "Mining Complete!" "You mined a block. Ready to claim rewards.")
      ]
    else skip
  ].

(** [formatTime], for [0 <= ms]: the component passes it the cooldown and
    the time left, which are never negative. *)
Definition formatTime (ms : Z) : string :=
  let seconds := (ms / 1000) mod 60 in
  let minutes := (ms / 1000 / 60) mod 60 in
  let pad2 (n : Z) := String.append (if n <? 10 then "0" else "") (JS.digitsOf n) in
  (pad2 minutes ++ ":" ++ pad2 seconds)%string.

Definition startMining : Action :=
  fun s =>
    if 0 <? globalCooldown s then
      emit (Toast true "Cooldown Active"
              ("Wait " ++ formatTime (globalCooldown s) ++ " before mining again.")%string) s
    else
      perform [
        set (setMiningState mining);
        set (setTimeLeft 600000);
        set (setProgress 0);
        set (setAccumulatedReward 0);
        set (setPausedProgress 0);
        set (setPausedReward 0);
        set (setPausedTimeLeft 0)
      ] s.

Definition pauseMining : Action :=
  fun s =>
    perform [
      set (setPausedProgress (progress s));
      set (setPausedReward (accumulatedReward s));
      set (setPausedTimeLeft (timeLeft s));
      set (setMiningState paused);
      set (setShowPauseDialog true)
    ] s.

Definition continueMining : Action :=
  perform [
    set (setShowPauseDialog false);
    set (setMiningState mining)
  ].

Definition stopAndClaim : Action :=
  perform [
    set (setShowPauseDialog false);
    set (setMiningState ready)
  ].

Definition handleClaim (connected : bool) : Action :=
  if negb connected then skip else emit WriteContract.

(** The body of the effect on [[isConfirmed, hash, address]] when
    [isConfirmed] holds; as in the other component it runs in any state. *)
Definition onConfirmed (hash address : string) : Action :=
  fun s =>
    if (hash =? "")%string || (address =? "")%string then skip s
    else
      perform [
        emit (ReportClaim {|
                Schema.Insert.walletAddress := address;
                Schema.Insert.amount := JS.toFixed 6 (accumulatedReward s);
                Schema.Insert.transactionHash := Some hash |});
        emit (Toast false "Claim Successful!" "USDC has been sent to your wallet.");
        set (setMiningState idle);
        set (setAccumulatedReward 0);
        set (setProgress 0);
        set (setPausedProgress 0);
        set (setPausedReward 0);
        set (setPausedTimeLeft 0);
        emit Refetch
      ] s.

(** The body of the effect on [[writeError]], the error of
    [useWriteContract]. *)
Definition onWriteError (message : string) : Action :=
  emit (Toast true "Claim Failed" message).

(** A transaction that was sent and then reverted: the error of
    [useWaitForTransactionReceipt], of which the component reads only
    [isLoading] and [isSuccess]; no handler runs. *)
Definition onReverted (message : string) : Action := skip.

(** The effect on [[nextClaimTime]]; [now] in milliseconds. *)
Definition onNextClaimTime (now : Z) (nextClaimTime : Z) : Action :=
  if nextClaimTime =? 0 then skip
  else
    let diff := nextClaimTime - now / 1000 in
    if 0 <? diff then set (setGlobalCooldown (diff * 1000))
    else set (setGlobalCooldown 0).

(** The callback of the one-second cooldown interval. *)
Definition cooldownTick : Action :=
  fun s =>
    if 0 <? globalCooldown s
    then set (setGlobalCooldown (Z.max 0 (globalCooldown s - 1000))) s
    else skip s.

Definition depsChanged (a b : Session) : bool :=
  negb (MiningState_eqb (miningState a) (miningState b))
  || negb (Qeq_bool (pausedProgress a) (pausedProgress b))
  || negb (Qeq_bool (pausedReward a) (pausedReward b))
  || negb (pausedTimeLeft a =? pausedTimeLeft b).

Definition miningEffect (now : Z) (before : Session) : Action :=
  fun s =>
    if depsChanged before s then
      match miningState s with
      | mining => set (setTimers (Some (installTimer now (pausedProgress s) (pausedTimeLeft s)))) s
      | _ => set (setTimers None) s
      end
    else skip s.

Inductive Event : Type :=
| ClickStart
| ClickPause
| ClickContinue
| ClickStopAndClaim
| CloseDialog
| ClickClaim (connected : bool)
| TimerFires (random : Q)
| CooldownTimerFires
| NextClaimTime (nextClaimTime : Z)
| Confirmed (hash address : string)
| WriteError (message : string)
| Reverted (message : string).

Definition handle (now : Z) (e : Event) : Action :=
  fun s =>
    match e, miningState s with
    | ClickStart, idle => startMining s
    | ClickPause, mining => pauseMining s
    | ClickContinue, _ =>
        if MiningState_eqb (miningState s) paused || showPauseDialog s
        then continueMining s else skip s
    | ClickStopAndClaim, _ => if showPauseDialog s then stopAndClaim s else skip s
    | CloseDialog, _ => set (setShowPauseDialog false) s
    | ClickClaim connected, ready => handleClaim connected s
    | TimerFires random, _ =>
        match timers s with
        | Some t => tick t now random s
        | None => skip s
        end
    | CooldownTimerFires, _ => cooldownTick s
    | NextClaimTime n, _ => onNextClaimTime now n s
    | Confirmed hash address, _ => onConfirmed hash address s
    | WriteError message, _ => onWriteError message s
    | Reverted message, _ => onReverted message s
    | _, _ => skip s
    end.

Definition step (now : Z) (e : Event) : Action :=
  fun s => andThen (handle now e) (miningEffect now s) s.

Fixpoint run (s : Session) (evs : list (Z * Event)) : Session :=
  match evs with
  | [] => s
  | (now, e) :: r => run (fst (step now e s)) r
  end.

(** Every report the run makes to the reconciler, in order. *)
Fixpoint reports (s : Session) (evs : list (Z * Event)) : list Schema.Insert.InsertClaimHistory :=
  match evs with
  | [] => []
  | (now, e) :: r =>
      let '(s', out) := step now e s in
      flat_map (fun o => match o with ReportClaim d => [d] | _ => [] end) out ++ reports s' r
  end.

Fixpoint completions (s : Session) (evs : list (Z * Event)) : nat :=
  match evs with
  | [] => O
  | (now, e) :: r =>
      let s' := fst (step now e s) in
      ((if MiningState_eqb (miningState s) mining && MiningState_eqb (miningState s') ready
        then 1 else 0) + completions s' r)%nat
  end.

End AppReady.

(** ** The specification's reading of the reconciler *)

Module Spec.
Import Schema Routes.

Definition distributorAddress : string := FAUCET_CONTRACT.
Definition expectedTokenAddress : string := USDC_ADDRESS.
Definition fixedClaimAmount : Z := 200.
Definition tokenDecimals : Z := 6.

Definition isUpperCase (c : ascii) : Prop := 65 <= JS.code c <= 90.

(** Two characters are equal up to case: the same character, or an upper-case
    letter and its lower-case form. *)
Definition sameCharIgnoringCase (c d : ascii) : Prop :=
  c = d
  \/ (isUpperCase c /\ JS.code d = JS.code c + 32)
  \/ (isUpperCase d /\ JS.code c = JS.code d + 32).

(** Case-insensitive equality of strings, character by character. *)
Inductive sameIgnoringCase : string -> string -> Prop :=
| same_empty : sameIgnoringCase "" ""
| same_char c d a b :
    sameCharIgnoringCase c d -> sameIgnoringCase a b ->
    sameIgnoringCase (String c a) (String d b).

(** The filter of the specification: sender, token contract and value. *)
Definition countsAsClaim (tx : ArcscanTokenTransfer) : Prop :=
  sameIgnoringCase (from tx) distributorAddress
  /\ (exists token, contractAddress tx = Some token
                    /\ sameIgnoringCase token expectedTokenAddress)
  /\ (exists integerValue, JS.StringToBigInt (value tx) = Some integerValue
                           /\ integerValue = fixedClaimAmount * 10 ^ tokenDecimals).

(** [Selects feed claims]: [claims] are, in feed order, exactly the records
    of [feed] that count. *)
Inductive Selects : list ArcscanTokenTransfer -> list ArcscanTokenTransfer -> Prop :=
| selects_nil : Selects [] []
| selects_keep tx feed claims :
    countsAsClaim tx -> Selects feed claims -> Selects (tx :: feed) (tx :: claims)
| selects_drop tx feed claims :
    ~ countsAsClaim tx -> Selects feed claims -> Selects (tx :: feed) claims.

(** The feed-reported time of a record is a number of seconds that is a
    valid date. *)
Definition validTimeStamp (tx : ArcscanTokenTransfer) : Prop :=
  exists seconds, JS.parseInt (timeStamp tx) = Some seconds
                  /\ Z.abs (seconds * 1000) <= 8640000000000000.

(** The entry a counted transfer is listed as: its hash, its receiver and
    its time; the amount is 200 with six decimals when the record carries
    the token's decimals. *)
Definition entryOf (tx : ArcscanTokenTransfer) (c : ClaimHistory) : Prop :=
  walletAddress c = to tx
  /\ transactionHash c = Some (hash tx)
  /\ (JS.parseInt (tokenDecimalOr6 tx) = Some tokenDecimals -> amount c = "200.000000")
  /\ exists seconds, JS.parseInt (timeStamp tx) = Some seconds
                     /\ claimedAt c = seconds * 1000.

(** A successful feed answer carrying the records [txs]. *)
Definition feedOf (txs : list ArcscanTokenTransfer) : FetchOutcome :=
  Fetched true (Some {| status := "1"; result := Some txs |}).

(** The feed call fails: network error, non-success status, or a body that
    is not JSON. *)
Definition feedFails (feed : FetchOutcome) : Prop :=
  match feed with
  | FetchRejected _ => True
  | Fetched ok body => ok = false \/ body = None
  end.

(** The payload parses but is no result page: its status is not ["1"] or it
    has no result. *)
Definition notAResultPage (feed : FetchOutcome) : Prop :=
  exists data, feed = Fetched true (Some data)
               /\ (status data <> "1" \/ result data = None).

Definition newestFirstOrder (a b : ClaimHistory) : Prop := claimedAt a >= claimedAt b.

(** [out] are the [limit] most recent of [stored], newest first. *)
Definition mostRecent (limit : nat) (stored out : list ClaimHistory) : Prop :=
  exists older,
    Permutation stored (out ++ older)
    /\ StronglySorted newestFirstOrder (out ++ older)
    /\ List.length out = Nat.min limit (List.length stored).

End Spec.

(** ** The specification's reading of the session engine *)

Module Engine.

Definition sessionDurationMs : Z := 600000.
Definition maxReward : Q := 200.

(** The cadence of the progress interval, in milliseconds. *)
Definition tickMs : Z := 100.

(** [min(100, t / sessionDurationMs * 100)] *)
Definition idealProgress (t : Z) : Q :=
  Qmin 100 (inject_Z t / inject_Z sessionDurationMs * 100)%Q.

(** The progress of one tick: the tolerance of the displayed progress. *)
Definition tickWorth : Q := (inject_Z tickMs / inject_Z sessionDurationMs * 100)%Q.

(** The events happen at non-decreasing times, none before [since]. *)
Fixpoint chronological {E : Type} (since : Z) (evs : list (Z * E)) : Prop :=
  match evs with
  | [] => True
  | (now, _) :: r => since <= now /\ chronological now r
  end.

End Engine.

Module AppSpec.
Import Client App.

(** The component left to its intervals: no button, no transaction. *)
Definition isInterval (e : Event) : bool :=
  match e with
  | TimerFires _ | LogTimerFires _ _ _ _ => true
  | _ => false
  end.

Definition uninterrupted (evs : list (Z * Event)) : Prop :=
  Forall (fun ev => isInterval (snd ev) = true) evs.

(** The time of the last progress tick of the run; [since] when none. *)
Fixpoint lastTick (since : Z) (evs : list (Z * Event)) : Z :=
  match evs with
  | [] => since
  | (now, TimerFires _) :: r => lastTick now r
  | _ :: r => lastTick since r
  end.

(** A state the component can be in: the initial one after some events. *)
Definition reachable (s : Session) : Prop := exists evs, s = run initial evs.

(** A session started at [now0] and left to its intervals, whose last
    progress tick was at [last]: still mining with the progress of that
    tick, or completed with the reward at 200. *)
Definition running (now0 last : Z) (s : Session) : Prop :=
  (last < now0 + 600000
   /\ miningState s = mining
   /\ timers s = Some (installTimer now0 0 0)
   /\ (progress s == Engine.idealProgress (last - now0))%Q)
  \/ (now0 + 600000 <= last
      /\ miningState s = completed
      /\ timers s = None
      /\ progress s = 100%Q
      /\ displayedReward s = 200%Q).

(** In a log stream, every share comes after some block. *)
Definition shareAfterBlock (l : list MiningLog) : Prop :=
  forall pre e post,
    l = pre ++ e :: post -> type e = share ->
    exists b, In b pre /\ type b = block.

Definition rewardInRange (s : Session) : Prop :=
  (0 <= displayedReward s)%Q /\ (displayedReward s <= 200)%Q.

(** What holds of every reachable state: progress and remaining time are
    two views of the same elapsed time while a session is live, the pause
    snapshot is the paused state, and intervals run exactly in [mining]. *)
Definition consistent (s : Session) : Prop :=
  (progress s <= 100)%Q
  /\ (miningState s = mining \/ miningState s = paused ->
      0 < timeLeft s
      /\ (progress s == 100 - inject_Z (timeLeft s) / 600000 * 100)%Q)
  /\ (miningState s = paused ->
      pausedProgress s = progress s /\ pausedTimeLeft s = timeLeft s)
  /\ (forall t, timers s = Some t ->
      miningState s = mining
      /\ 0 < remainingTime t
      /\ endTime t = startTime t + remainingTime t
      /\ (initialProgress t == 100 - inject_Z (remainingTime t) / 600000 * 100)%Q)
  /\ (timers s = None -> miningState s <> mining).

End AppSpec.

Module AppReadySpec.
Import Client AppReady.

Definition isInterval (e : Event) : bool :=
  match e with
  | TimerFires _ | CooldownTimerFires => true
  | _ => false
  end.

Definition uninterrupted (evs : list (Z * Event)) : Prop :=
  Forall (fun ev => isInterval (snd ev) = true) evs.

Fixpoint lastTick (since : Z) (evs : list (Z * Event)) : Z :=
  match evs with
  | [] => since
  | (now, TimerFires _) :: r => lastTick now r
  | _ :: r => lastTick since r
  end.

Definition running (now0 last : Z) (s : Session) : Prop :=
  (last < now0 + 600000
   /\ miningState s = mining
   /\ timers s = Some (installTimer now0 0 0)
   /\ (progress s == Engine.idealProgress (last - now0))%Q)
  \/ (now0 + 600000 <= last
      /\ miningState s = ready
      /\ timers s = None
      /\ (progress s == 100)%Q
      /\ accumulatedReward s = 200%Q).

End AppReadySpec.

(** ** Sample data *)

Module Samples.
Import Schema Routes.

(** A transfer of 200 USDC from the distributor. *)
Definition paid : ArcscanTokenTransfer := {|
  hash := "0xabc123def4567890aa";
  from := "0xbd736a5d744a6364dd74b12bb679d66360d7aed9";
  to := "0x00000000000000000000000000000000000000A1";
  value := "200000000";
  tokenSymbol := "USDC";
  tokenDecimal := "6";
  timeStamp := "1700000000";
  contractAddress := Some "0x3600000000000000000000000000000000000000"
|}.

Definition withValue (v : string) (tx : ArcscanTokenTransfer) : ArcscanTokenTransfer := {|
  hash := hash tx; from := from tx; to := to tx; value := v;
  tokenSymbol := tokenSymbol tx; tokenDecimal := tokenDecimal tx;
  timeStamp := timeStamp tx; contractAddress := contractAddress tx
|}.

(** The same transfer with value 199_000000, and with a value that is no
    integer. *)
Definition partial : ArcscanTokenTransfer := withValue "199000000" paid.
Definition garbled : ArcscanTokenTransfer := withValue "2e8" paid.

Definition feed : list ArcscanTokenTransfer := [paid; partial; garbled].

Definition localClaim : ClaimHistory := {|
  id := "5f0c2a4e-local";
  walletAddress := "0x00000000000000000000000000000000000000A1";
  amount := "200.000000";
  transactionHash := None;
  claimedAt := 1700000000000
|}.

Definition olderClaim : ClaimHistory := {|
  id := "1b9d6bcd-local";
  walletAddress := "0x00000000000000000000000000000000000000B2";
  amount := "200.000000";
  transactionHash := Some "0xfeed";
  claimedAt := 1600000000000
|}.

Definition store : Storage.MemStorage :=
  {| Storage.claimHistory := [(id olderClaim, olderClaim); (id localClaim, localClaim)] |}.

(** A feed answer that parses but reports status ["0"]. *)
Definition statusZero : FetchOutcome :=
  Fetched true (Some {| status := "0"; result := None |}).

Definition report : Insert.InsertClaimHistory := {|
  Insert.walletAddress := "0x00000000000000000000000000000000000000c3";
  Insert.amount := "200.000000";
  Insert.transactionHash := Some "0xabc"
|}.

Definition emptyAddressReport : Insert.InsertClaimHistory := {|
  Insert.walletAddress := "";
  Insert.amount := "200.000000";
  Insert.transactionHash := None
|}.

(** A session of the component started at time 1000 and left running past
    its end, and one stopped watching after a minute. *)
Definition fullSession : list (Z * App.Event) := [
  (1100, App.TimerFires (1 # 2));
  (1800, App.LogTimerFires (1 # 10) "deadbeef" "F00D" 150);
  (2600, App.LogTimerFires (3 # 10) "cafebabe" "BEEF" 150);
  (301000, App.TimerFires (1 # 3));
  (601000, App.TimerFires (1 # 4));
  (601100, App.TimerFires (1 # 4));
  (601800, App.LogTimerFires (3 # 10) "00000000" "0" 0)
].

Definition oneMinute : list (Z * App.Event) := [
  (1000, App.ClickStart false);
  (1800, App.LogTimerFires (1 # 10) "deadbeef" "F00D" 150);
  (61000, App.TimerFires (1 # 2))
].

(** The same for the variant with Stop & Claim, and a session of it that
    is paused half way, stopped and claimed. *)
Definition fullSessionReady : list (Z * AppReady.Event) := [
  (1100, AppReady.TimerFires (1 # 2));
  (2000, AppReady.CooldownTimerFires);
  (601000, AppReady.TimerFires (1 # 4));
  (601100, AppReady.TimerFires (1 # 4))
].

Definition stopAndClaimRun : list (Z * AppReady.Event) := [
  (1000, AppReady.ClickStart);
  (301000, AppReady.TimerFires (1 # 2));
  (301050, AppReady.ClickPause);
  (305000, AppReady.ClickStopAndClaim);
  (306000, AppReady.ClickClaim true);
  (320000, AppReady.Confirmed "0xabc" "0x00000000000000000000000000000000000000A1")
].

End Samples.

(** ** Further sample data *)

Module MoreSamples.
Import Routes.

Definition withDecimals (d : string) (tx : ArcscanTokenTransfer) : ArcscanTokenTransfer := {|
  hash := hash tx; from := from tx; to := to tx; value := value tx;
  tokenSymbol := tokenSymbol tx; tokenDecimal := d;
  timeStamp := timeStamp tx; contractAddress := contractAddress tx
|}.

Definition withTimeStamp (t : string) (tx : ArcscanTokenTransfer) : ArcscanTokenTransfer := {|
  hash := hash tx; from := from tx; to := to tx; value := value tx;
  tokenSymbol := tokenSymbol tx; tokenDecimal := tokenDecimal tx;
  timeStamp := t; contractAddress := contractAddress tx
|}.

(** After a stopped and claimed session a new one is started; a minute into
    it the connected account changes, so the confirmation effect runs again
    for the same transaction. *)
Definition switchedAccount : list (Z * AppReady.Event) :=
  Samples.stopAndClaimRun ++ [
    (400000, AppReady.ClickStart);
    (460000, AppReady.TimerFires (1 # 2));
    (470000, AppReady.Confirmed "0xabc" "0x00000000000000000000000000000000000000B2")
  ].

(** The confirmation effect runs again while a session is paused; the
    session is then resumed from the dialog, paused before its first tick
    and resumed again, and runs to its end. *)
Definition staleResume : list (Z * AppReady.Event) := [
  (1000, AppReady.ClickStart);
  (301000, AppReady.TimerFires (1 # 2));
  (301050, AppReady.ClickPause);
  (302000, AppReady.Confirmed "0xabc" "0x00000000000000000000000000000000000000B2");
  (303000, AppReady.ClickContinue);
  (303010, AppReady.ClickPause);
  (304000, AppReady.ClickContinue);
  (604000, AppReady.TimerFires (1 # 2))
].

End MoreSamples.

(** ** Further invariants of the session component *)

Module AppInv.
Import Client App.

(** The log window: at most 51 entries, with ids strictly increasing and
    none above the id counter. *)
Definition window (logs : list MiningLog) (lastId : Z) : Prop :=
  (List.length logs <= 51)%nat
  /\ StronglySorted Z.lt (map id logs)
  /\ Forall (fun l => id l <= lastId) logs.

Definition logsWindow (s : Session) : Prop := window (miningLogs s) (logIdRef s).

(** The counters of blocks and shares and the flag that opens shares. *)
Definition countersAgree (s : Session) : Prop :=
  0 <= blocksFound s
  /\ 0 <= sharesFound s
  /\ (canFindShares s = true <-> 0 < blocksFound s)
  /\ (0 < sharesFound s -> 0 < blocksFound s).

(** The displayed reward after [n] shares of a session: one increment per
    share, clamped at 200 each time. *)
Fixpoint rewardAfter (n : nat) : Q :=
  match n with
  | O => 0
  | S k => Qmin 200 (rewardAfter k + increment)
  end.

(** The displayed reward is 200 once completed and otherwise what the
    counted shares add up to. *)
Definition rewardFromShares (s : Session) : Prop :=
  (miningState s = completed -> displayedReward s = 200%Q)
  /\ (miningState s <> completed ->
      displayedReward s = rewardAfter (Z.to_nat (sharesFound s))).

(** A completed session is full; a live one has a device. *)
Definition settled (s : Session) : Prop :=
  (miningState s = completed -> progress s = 100%Q /\ timeLeft s = 0)
  /\ (miningState s = mining \/ miningState s = paused ->
      cpuEnabled s = true \/ gpuEnabled s = true).

End AppInv.

(** ** Invariants of the variant with Stop & Claim *)

Module AppReadyInv.
Import Client AppReady.

(** The accumulated reward is the reward of the progress shown. *)
Definition rewardOfProgress (s : Session) : Prop :=
  (accumulatedReward s == progress s / 100 * 200)%Q.

(** A timer whose last tick shows progress 100. *)
Definition endsFull (t : Timer) : Prop :=
  endTime t = startTime t + remainingTime t
  /\ (initialProgress t + inject_Z (remainingTime t) / 600000 * 100 == 100)%Q.

(** What holds of the variant after every sequence of events.  A
    confirmation can arrive in any state and resets progress and reward but
    neither the time left nor the pause dialog, so a session resumed from
    the dialog afterwards may end before its progress reaches 100: the
    reward is then set to 200 beside a smaller progress.  While the dialog
    is open the two agree. *)
Definition steady (s : Session) : Prop :=
  (progress s <= 100)%Q
  /\ 0 <= timeLeft s
  /\ (rewardOfProgress s \/ (miningState s = ready /\ accumulatedReward s = 200%Q))
  /\ (showPauseDialog s = true -> rewardOfProgress s)
  /\ (showPauseDialog s = true -> forall t, timers s = Some t -> endsFull t).

(** Events that press no button of the session: the intervals, the
    cooldown and the failures of a claim. *)
Definition passive (e : Event) : bool :=
  match e with
  | TimerFires _ | CooldownTimerFires | NextClaimTime _ | WriteError _ | Reverted _ => true
  | _ => false
  end.

(** A paused session holding the reward [r]: the dialog is open and no
    interval is installed. *)
Definition heldAt (r : Q) (s : Session) : Prop :=
  miningState s = paused /\ showPauseDialog s = true /\ timers s = None
  /\ accumulatedReward s = r.

End AppReadyInv.

(** * Facts *)

(** ** The JavaScript fragment on examples *)

Example toLowerCase_ex : JS.toLowerCase "0xBd736A" = "0xbd736a".
Proof. reflexivity. Qed.

Example BigInt_ex1 : JS.StringToBigInt "200000000" = Some 200000000.
Proof. reflexivity. Qed.

Example BigInt_ex2 : JS.StringToBigInt " 0xBEBC200 " = Some 200000000.
Proof. reflexivity. Qed.

Example BigInt_ex3 : JS.StringToBigInt "2e8" = None.
Proof. reflexivity. Qed.

Example BigInt_ex4 : JS.StringToBigInt "" = Some 0.
Proof. reflexivity. Qed.

(** A no-break space (U+00A0) before and a line separator (U+2028) after
    the numeral are trimmed like a blank. *)
Example BigInt_ex5 :
  JS.StringToBigInt
    (String (ascii_of_nat 194) (String (ascii_of_nat 160) "200000000")
     ++ String (ascii_of_nat 226) (String (ascii_of_nat 128) (String (ascii_of_nat 168) "")))
  = Some 200000000.
Proof. reflexivity. Qed.

Example parseInt_ex1 : JS.parseInt "1700000000" = Some 1700000000.
Proof. reflexivity. Qed.

Example parseInt_ex2 : JS.parseInt "6 decimals" = Some 6.
Proof. reflexivity. Qed.

Example parseInt_ex3 : JS.parseInt "abc" = None.
Proof. reflexivity. Qed.

Example toFixed_ex1 : JS.toFixed 6 (200 # 1) = "200.000000".
Proof. vm_compute. reflexivity. Qed.

Example toFixed_ex2 : JS.toFixed 2 (1 # 3) = "0.33".
Proof. vm_compute. reflexivity. Qed.

Example toFixed_ex3 : JS.toFixed 2 0 = "0.00".
Proof. vm_compute. reflexivity. Qed.

(** ** Case-insensitive comparison *)

Lemma code_bounds (c : ascii) : 0 <= JS.code c < 256.
Proof.
  unfold JS.code. pose proof (nat_ascii_bounded c). lia.
Qed.

Lemma code_inj (c d : ascii) : JS.code c = JS.code d -> c = d.
Proof.
  unfold JS.code. intros H.
  rewrite <- (ascii_nat_embedding c), <- (ascii_nat_embedding d).
  f_equal. lia.
Qed.

Lemma code_lowerChar (c : ascii) :
  JS.code (JS.lowerChar c) =
  if (65 <=? JS.code c) && (JS.code c <=? 90) then JS.code c + 32 else JS.code c.
Proof.
  unfold JS.lowerChar.
  destruct ((65 <=? JS.code c) && (JS.code c <=? 90)) eqn:E; [|reflexivity].
  apply andb_true_iff in E. destruct E as [E1 E2].
  apply Z.leb_le in E1. apply Z.leb_le in E2.
  unfold JS.code in *. rewrite nat_ascii_embedding by lia. lia.
Qed.

Lemma lowerChar_same (c d : ascii) :
  JS.lowerChar c = JS.lowerChar d <-> Spec.sameCharIgnoringCase c d.
Proof.
  unfold Spec.sameCharIgnoringCase, Spec.isUpperCase. split.
  - intros H. apply (f_equal JS.code) in H. rewrite !code_lowerChar in H.
    destruct (Z.leb_spec 65 (JS.code c)), (Z.leb_spec (JS.code c) 90),
             (Z.leb_spec 65 (JS.code d)), (Z.leb_spec (JS.code d) 90);
      simpl in H;
      try (left; apply code_inj; lia);
      try (right; left; lia);
      try (right; right; lia).
  - intros H. apply code_inj. rewrite !code_lowerChar.
    destruct H as [-> | [[Hu He] | [Hu He]]]; [reflexivity | |];
      destruct (Z.leb_spec 65 (JS.code c)), (Z.leb_spec (JS.code c) 90),
               (Z.leb_spec 65 (JS.code d)), (Z.leb_spec (JS.code d) 90);
      simpl; lia.
Qed.

Lemma toLowerCase_same (a b : string) :
  JS.toLowerCase a = JS.toLowerCase b <-> Spec.sameIgnoringCase a b.
Proof.
  revert b. induction a as [|c a IH]; intros [|d b]; simpl; split; intros H;
    try discriminate; try constructor; try (inversion H; fail).
  - injection H as Hc Hs. apply lowerChar_same. exact Hc.
  - injection H as Hc Hs. apply IH. exact Hs.
  - inversion H; subst. f_equal.
    + apply lowerChar_same. assumption.
    + apply IH. assumption.
Qed.

Lemma sameIgnoringCase_refl (a : string) : Spec.sameIgnoringCase a a.
Proof. apply toLowerCase_same. reflexivity. Qed.

Lemma sameIgnoringCase_sym (a b : string) :
  Spec.sameIgnoringCase a b -> Spec.sameIgnoringCase b a.
Proof. intros H. apply toLowerCase_same. symmetry. apply toLowerCase_same. exact H. Qed.

(** ** The feed filter *)

Lemma claimFilter_countsAsClaim (tx : Routes.ArcscanTokenTransfer) :
  Routes.claimFilter tx = true <-> Spec.countsAsClaim tx.
Proof.
  unfold Routes.claimFilter, Spec.countsAsClaim, JS.BigInt,
    Spec.distributorAddress, Spec.expectedTokenAddress,
    Spec.fixedClaimAmount, Spec.tokenDecimals.
  split.
  - destruct (JS.StringToBigInt (Routes.value tx)) as [v|]; [|discriminate].
    intros H. apply andb_true_iff in H. destruct H as [H Hv].
    apply andb_true_iff in H. destruct H as [Hf Ht].
    apply String.eqb_eq in Hf. apply String.eqb_eq in Ht. apply Z.eqb_eq in Hv.
    split; [apply toLowerCase_same; exact Hf|]. split.
    + destruct (Routes.contractAddress tx) as [token|].
      * exists token. split; [reflexivity|]. apply toLowerCase_same. exact Ht.
      * discriminate Ht.
    + exists v. split; [reflexivity|]. exact Hv.
  - intros [Hf [[token [Hc Ht]] [v [Hv Hv']]]].
    rewrite Hv, Hc. apply toLowerCase_same in Hf. apply toLowerCase_same in Ht.
    rewrite Hf, Ht, Hv'. reflexivity.
Qed.

Lemma filter_Selects (txs : list Routes.ArcscanTokenTransfer) :
  Spec.Selects txs (filter Routes.claimFilter txs).
Proof.
  induction txs as [|tx txs IH]; simpl; [constructor|].
  destruct (Routes.claimFilter tx) eqn:E.
  - apply Spec.selects_keep; [apply claimFilter_countsAsClaim; exact E | exact IH].
  - apply Spec.selects_drop; [|exact IH].
    intros H. apply claimFilter_countsAsClaim in H. congruence.
Qed.

Lemma Selects_unique (txs a b : list Routes.ArcscanTokenTransfer) :
  Spec.Selects txs a -> Spec.Selects txs b -> a = b.
Proof.
  intros Ha. revert b. induction Ha; intros b' Hb; inversion Hb; subst;
    try reflexivity; try contradiction.
  - f_equal. apply IHHa. assumption.
  - apply IHHa. assumption.
Qed.

Lemma Selects_counts (txs claims : list Routes.ArcscanTokenTransfer) :
  Spec.Selects txs claims -> Forall Spec.countsAsClaim claims.
Proof. induction 1; auto. Qed.

Lemma scaledValue_counted (tx : Routes.ArcscanTokenTransfer) :
  Spec.countsAsClaim tx ->
  Routes.scaledValue tx =
  Return (option_map
            (fun d => (inject_Z (Spec.fixedClaimAmount * 10 ^ Spec.tokenDecimals)
                       / Qpower (10 # 1) d)%Q)
            (JS.parseInt (Routes.tokenDecimalOr6 tx))).
Proof.
  intros [_ [_ [v [Hv ->]]]].
  unfold Routes.scaledValue, JS.BigInt. rewrite Hv. reflexivity.
Qed.

Lemma reduceSum_counted (claims : list Routes.ArcscanTokenTransfer) :
  Forall Spec.countsAsClaim claims ->
  forall sum, exists total, Routes.reduceSum sum claims = Return total.
Proof.
  induction 1 as [|tx claims Htx _ IH]; intros sum; simpl.
  - exists sum. reflexivity.
  - rewrite (scaledValue_counted tx Htx). simpl. apply IH.
Qed.

Lemma toClaim_counted (tx : Routes.ArcscanTokenTransfer) :
  Spec.countsAsClaim tx -> Spec.validTimeStamp tx ->
  exists c, Routes.toClaim tx = Return c /\ Spec.entryOf tx c.
Proof.
  intros Htx [seconds [Hs Hrange]].
  unfold Routes.toClaim. rewrite (scaledValue_counted tx Htx). cbn [bind].
  rewrite Hs. cbn [option_map JS.Date_toISOString].
  destruct (Z.leb_spec (Z.abs (seconds * 1000)) 8640000000000000); [|lia].
  cbn [bind]. eexists. split; [reflexivity|].
  unfold Spec.entryOf.
  cbn [Schema.walletAddress Schema.transactionHash Schema.amount Schema.claimedAt].
  split; [reflexivity|]. split; [reflexivity|]. split.
  - intros ->. vm_compute. reflexivity.
  - exists seconds. split; [exact Hs | reflexivity].
Qed.

Lemma validTimeStamp_dec (tx : Routes.ArcscanTokenTransfer) :
  {Spec.validTimeStamp tx} + {~ Spec.validTimeStamp tx}.
Proof.
  unfold Spec.validTimeStamp.
  destruct (JS.parseInt (Routes.timeStamp tx)) as [seconds|].
  - destruct (Z_le_dec (Z.abs (seconds * 1000)) 8640000000000000) as [Hle | Hgt].
    + left. exists seconds. split; [reflexivity | exact Hle].
    + right. intros [seconds' [E Hle]]. injection E as <-. contradiction.
  - right. intros [seconds [E _]]. discriminate E.
Qed.

Lemma toClaim_invalid_date (tx : Routes.ArcscanTokenTransfer) :
  Spec.countsAsClaim tx -> ~ Spec.validTimeStamp tx ->
  Routes.toClaim tx = Throw "RangeError: Invalid time value".
Proof.
  intros Htx Hbad.
  unfold Routes.toClaim. rewrite (scaledValue_counted tx Htx). cbn [bind].
  destruct (JS.parseInt (Routes.timeStamp tx)) as [seconds|] eqn:Hs;
    cbn [option_map JS.Date_toISOString]; [|reflexivity].
  destruct (Z.leb_spec (Z.abs (seconds * 1000)) 8640000000000000) as [Hle | Hgt];
    [|reflexivity].
  contradiction Hbad. exists seconds. split; [exact Hs | exact Hle].
Qed.

Lemma mapM_toClaim_counted (claims : list Routes.ArcscanTokenTransfer) :
  Forall Spec.countsAsClaim claims ->
  Forall Spec.validTimeStamp claims ->
  exists entries, mapM Routes.toClaim claims = Return entries
                  /\ Forall2 Spec.entryOf claims entries.
Proof.
  induction 1 as [|tx claims Htx _ IH]; intros Hv; simpl.
  - exists []. split; [reflexivity | constructor].
  - inversion Hv as [|? ? Hv1 Hv2]; subst.
    destruct (toClaim_counted tx Htx Hv1) as [c [Hc He]].
    destruct (IH Hv2) as [entries [Hm Hf]].
    rewrite Hc. simpl. rewrite Hm. simpl.
    exists (c :: entries). split; [reflexivity | constructor; assumption].
Qed.

Lemma mapM_throws {A B : Type} (f : A -> Completion B) (l : list A) (x : A) (m : string) :
  In x l -> f x = Throw m -> exists m', mapM f l = Throw m'.
Proof.
  induction l as [|a l IH]; intros Hin Hx; [contradiction|].
  cbn [mapM]. destruct Hin as [-> | Hin].
  - rewrite Hx. eexists. reflexivity.
  - destruct (f a); cbn [bind]; [|eexists; reflexivity].
    destruct (IH Hin Hx) as [m' ->]. eexists. reflexivity.
Qed.

Lemma mapM_toClaim_invalid_date (claims : list Routes.ArcscanTokenTransfer) :
  Forall Spec.countsAsClaim claims ->
  ~ Forall Spec.validTimeStamp claims ->
  exists m, mapM Routes.toClaim claims = Throw m.
Proof.
  intros Hall Hbad.
  apply (neg_Forall_Exists_neg validTimeStamp_dec) in Hbad.
  apply Exists_exists in Hbad. destruct Hbad as [tx [Hin Htx]].
  rewrite Forall_forall in Hall.
  apply (mapM_throws _ _ tx _ Hin (toClaim_invalid_date tx (Hall tx Hin) Htx)).
Qed.

(** C1, as the code has it.  For a feed answer carrying the records [txs],
    the records the feed handlers count are exactly those whose sender is
    the distributor and whose token contract is the expected token, both up
    to case, and whose value parses to the integer 200 * 10^6; a value that
    does not parse excludes the record and raises nothing.
    [GET /api/total-claimed] reports their number.  [GET /api/claim-history]
    lists them, one entry per counted record in feed order, when the time
    stamp of each of them is a valid date; when one is not, building its
    entry throws and the handler answers with the stored entries instead,
    writing one line to the console. *)
Theorem feed_filter_counts_exactly_the_claims
  (txs : list Routes.ArcscanTokenTransfer) (st : Storage.MemStorage) :
  exists claims,
    Spec.Selects txs claims
    /\ Routes.claimCount (Routes.json (Routes.getTotalClaimedRoute (Spec.feedOf txs)))
       = List.length claims
    /\ Routes.console (Routes.getTotalClaimedRoute (Spec.feedOf txs)) = []
    /\ (Forall Spec.validTimeStamp claims ->
        Forall2 Spec.entryOf claims
          (Routes.json (Routes.getClaimHistoryRoute (Spec.feedOf txs) st))
        /\ Routes.console (Routes.getClaimHistoryRoute (Spec.feedOf txs) st) = [])
    /\ (~ Forall Spec.validTimeStamp claims ->
        Routes.json (Routes.getClaimHistoryRoute (Spec.feedOf txs) st)
        = Storage.getClaimHistory 50 st
        /\ exists line,
             Routes.console (Routes.getClaimHistoryRoute (Spec.feedOf txs) st) = [line]).
Proof.
  exists (filter Routes.claimFilter txs).
  pose proof (filter_Selects txs) as Hsel.
  pose proof (Selects_counts _ _ Hsel) as Hall.
  split; [exact Hsel|].
  unfold Routes.getTotalClaimedRoute, Routes.totalClaimedTry,
    Routes.getClaimHistoryRoute, Routes.claimHistoryTry, Spec.feedOf.
  simpl.
  destruct (reduceSum_counted _ Hall (Some 0%Q)) as [total Ht].
  rewrite Ht. simpl.
  split; [reflexivity|]. split; [reflexivity|]. split.
  - intros Hv.
    destruct (mapM_toClaim_counted _ Hall Hv) as [entries [Hm Hf]].
    rewrite Hm. simpl. split; [exact Hf | reflexivity].
  - intros Hbad.
    destruct (mapM_toClaim_invalid_date _ Hall Hbad) as [m Hm].
    rewrite Hm. simpl. split; [reflexivity|]. eexists. reflexivity.
Qed.

Lemma Forall2_single {A B : Type} (R : A -> B -> Prop) (a : A) (l : list B) :
  Forall2 R [a] l -> exists b, l = [b] /\ R a b.
Proof.
  intros H. inversion H as [|? b ? l' Hab Hrest]; subst.
  inversion Hrest; subst. exists b. split; [reflexivity | exact Hab].
Qed.

Lemma feed_filter_witness :
  exists c,
    Routes.json (Routes.getClaimHistoryRoute (Spec.feedOf Samples.feed) Storage.empty) = [c]
    /\ Schema.amount c = "200.000000"
    /\ Schema.claimedAt c = 1700000000000
    /\ Routes.claimCount (Routes.json (Routes.getTotalClaimedRoute (Spec.feedOf Samples.feed)))
       = 1%nat.
Proof.
  destruct (feed_filter_counts_exactly_the_claims Samples.feed Storage.empty)
    as [claims [Hsel [Hcount [_ [Hlist _]]]]].
  assert (claims = [Samples.paid]) as ->.
  { apply (Selects_unique _ _ _ Hsel (filter_Selects Samples.feed)). }
  destruct Hlist as [Hlist _].
  { constructor; [|constructor]. exists 1700000000. split; [reflexivity|]. vm_compute. discriminate. }
  destruct (Forall2_single _ _ _ Hlist) as [c [Hout Hc]].
  exists c. split; [exact Hout|].
  destruct Hc as [_ [_ [Ha [seconds [Hs Ht]]]]].
  split; [apply Ha; reflexivity|].
  split; [|exact Hcount].
  vm_compute in Hs. injection Hs as <-. exact Ht.
Defined.

(** C1 as stated fails for [GET /api/claim-history]: of two transfers of
    200 USDC from the distributor, the second with a time stamp that is no
    number, [GET /api/total-claimed] counts both, and
    [GET /api/claim-history] lists neither: it answers with the stored
    entries, here none. *)
Lemma counted_claim_missing_from_history :
  Spec.countsAsClaim Samples.paid
  /\ Spec.countsAsClaim (MoreSamples.withTimeStamp "soon" Samples.paid)
  /\ Routes.claimCount
       (Routes.json
          (Routes.getTotalClaimedRoute
             (Spec.feedOf [Samples.paid; MoreSamples.withTimeStamp "soon" Samples.paid])))
     = 2%nat
  /\ Routes.json
       (Routes.getClaimHistoryRoute
          (Spec.feedOf [Samples.paid; MoreSamples.withTimeStamp "soon" Samples.paid])
          Storage.empty)
     = [].
Proof.
  split; [apply claimFilter_countsAsClaim; vm_compute; reflexivity|].
  split; [apply claimFilter_countsAsClaim; vm_compute; reflexivity|].
  split; vm_compute; reflexivity.
Qed.

(** ** Storage: the map and the sort *)

Lemma Map_set_fresh {V : Type} (k : string) (v : V) (m : list (string * V)) :
  Storage.Map_has k m = false -> Storage.Map_set k v m = m ++ [(k, v)].
Proof.
  induction m as [|[k' v'] m IH]; simpl; intros H; [reflexivity|].
  apply orb_false_iff in H. destruct H as [Hk Hm].
  rewrite Hk. f_equal. apply IH. exact Hm.
Qed.

Lemma Map_set_In {V : Type} (k : string) (v : V) (m : list (string * V)) :
  In v (Storage.Map_values (Storage.Map_set k v m)).
Proof.
  unfold Storage.Map_values.
  induction m as [|[k' v'] m IH]; simpl; [left; reflexivity|].
  destruct (k =? k')%string; simpl; [left; reflexivity | right; exact IH].
Qed.

Lemma insertBy_perm {A : Type} (compare : A -> A -> Z) (x : A) (l : list A) :
  Permutation (x :: l) (Storage.insertBy compare x l).
Proof.
  induction l as [|y l IH]; simpl; [reflexivity|].
  destruct (compare x y <=? 0); [reflexivity|].
  rewrite perm_swap. apply perm_skip. exact IH.
Qed.

Lemma sortBy_perm {A : Type} (compare : A -> A -> Z) (l : list A) :
  Permutation l (Storage.sortBy compare l).
Proof.
  induction l as [|x l IH]; simpl; [reflexivity|].
  rewrite <- insertBy_perm. apply perm_skip. exact IH.
Qed.

Lemma insertBy_newestFirst (x : Schema.ClaimHistory) (l : list Schema.ClaimHistory) :
  StronglySorted Spec.newestFirstOrder l ->
  StronglySorted Spec.newestFirstOrder (Storage.insertBy Storage.newestFirst x l).
Proof.
  induction 1 as [|y l Hs IH Hy]; simpl.
  - constructor; constructor.
  - unfold Storage.newestFirst at 1.
    destruct (Z.leb_spec (Schema.claimedAt y - Schema.claimedAt x) 0) as [Hle | Hgt].
    + constructor; [constructor; assumption|].
      constructor; [unfold Spec.newestFirstOrder; lia|].
      eapply Forall_impl; [|exact Hy].
      unfold Spec.newestFirstOrder. intros z Hz. lia.
    + constructor; [exact IH|].
      eapply Permutation_Forall; [apply insertBy_perm|].
      constructor; [unfold Spec.newestFirstOrder; lia | exact Hy].
Qed.

Lemma sortBy_newestFirst (l : list Schema.ClaimHistory) :
  StronglySorted Spec.newestFirstOrder (Storage.sortBy Storage.newestFirst l).
Proof.
  induction l as [|x l IH]; simpl; [constructor|].
  apply insertBy_newestFirst. exact IH.
Qed.

Lemma getClaimHistory_mostRecent (limit : nat) (st : Storage.MemStorage) :
  Spec.mostRecent limit (Storage.Map_values (Storage.claimHistory st))
    (Storage.getClaimHistory limit st).
Proof.
  unfold Spec.mostRecent, Storage.getClaimHistory.
  set (stored := Storage.Map_values (Storage.claimHistory st)).
  exists (skipn limit (Storage.sortBy Storage.newestFirst stored)).
  rewrite firstn_skipn. split; [apply sortBy_perm|].
  split; [apply sortBy_newestFirst|].
  rewrite length_firstn.
  rewrite <- (Permutation_length (sortBy_perm Storage.newestFirst stored)).
  reflexivity.
Qed.

Lemma getClaimHistoryByWallet_In (wallet : string) (st : Storage.MemStorage)
  (c : Schema.ClaimHistory) :
  In c (Storage.getClaimHistoryByWallet wallet st) <->
  In c (Storage.Map_values (Storage.claimHistory st))
  /\ Spec.sameIgnoringCase (Schema.walletAddress c) wallet.
Proof.
  unfold Storage.getClaimHistoryByWallet.
  rewrite <- toLowerCase_same, <- String.eqb_eq.
  rewrite <- (filter_In (fun claim =>
    (JS.toLowerCase (Schema.walletAddress claim) =? JS.toLowerCase wallet)%string)).
  split; intros H.
  - eapply Permutation_in; [symmetry; apply sortBy_perm | exact H].
  - eapply Permutation_in; [apply sortBy_perm | exact H].
Qed.

(** ** The feed handlers when the feed is unusable *)

Lemma fetchFeed_fails (feed : Routes.FetchOutcome) :
  Spec.feedFails feed -> exists m, Routes.fetchFeed feed = Throw m.
Proof.
  destruct feed as [m | ok body]; simpl; intros H.
  - exists m. reflexivity.
  - destruct ok; simpl.
    + destruct H as [H | ->]; [discriminate|]. eexists. reflexivity.
    + eexists. reflexivity.
Qed.

Lemma guardedResult_notAResultPage (data : Routes.FeedData) :
  Routes.status data <> "1" \/ Routes.result data = None ->
  Routes.guardedResult data = None.
Proof.
  unfold Routes.guardedResult. intros [H | H].
  - destruct (String.eqb_spec (Routes.status data) "1"); [contradiction | reflexivity].
  - destruct (Routes.status data =? "1")%string; simpl; [exact H | reflexivity].
Qed.

(** C5, as the code has it.  When the feed call fails (network error,
    non-success status, or a body that is not JSON), [GET /api/claim-history]
    answers 200 with the 50 most recent stored entries, newest first, and
    writes the failure to the console only; so it does whenever the handler's
    [try] body throws.  When the body parses but its status is not ["1"] or
    it has no result, the answer is the empty list. *)
Theorem claim_history_fallback (feed : Routes.FetchOutcome) (st : Storage.MemStorage) :
  (Spec.feedFails feed ->
   Routes.statusCode (Routes.getClaimHistoryRoute feed st) = 200
   /\ Routes.json (Routes.getClaimHistoryRoute feed st) = Storage.getClaimHistory 50 st
   /\ Spec.mostRecent 50 (Storage.Map_values (Storage.claimHistory st))
        (Routes.json (Routes.getClaimHistoryRoute feed st))
   /\ exists line, Routes.console (Routes.getClaimHistoryRoute feed st) = [line])
  /\ (Spec.notAResultPage feed ->
      Routes.statusCode (Routes.getClaimHistoryRoute feed st) = 200
      /\ Routes.json (Routes.getClaimHistoryRoute feed st) = [])
  /\ (forall error,
        Routes.claimHistoryTry feed = Throw error ->
        Routes.json (Routes.getClaimHistoryRoute feed st) = Storage.getClaimHistory 50 st).
Proof.
  unfold Routes.getClaimHistoryRoute. split; [|split].
  - unfold Routes.claimHistoryTry.
    intros H. destruct (fetchFeed_fails feed H) as [m Hm]. rewrite Hm. simpl.
    split; [reflexivity|]. split; [reflexivity|].
    split; [apply getClaimHistory_mostRecent|]. eexists. reflexivity.
  - unfold Routes.claimHistoryTry.
    intros [data [-> H]]. simpl.
    rewrite (guardedResult_notAResultPage data H). simpl. split; reflexivity.
  - intros error ->. reflexivity.
Qed.

Lemma claim_history_fallback_witness :
  Routes.json (Routes.getClaimHistoryRoute (Routes.FetchRejected "ECONNREFUSED") Samples.store)
  = [Samples.localClaim; Samples.olderClaim]
  /\ Routes.json (Routes.getClaimHistoryRoute Samples.statusZero Samples.store) = [].
Proof.
  destruct (claim_history_fallback (Routes.FetchRejected "ECONNREFUSED") Samples.store)
    as [Hfails _].
  destruct (claim_history_fallback Samples.statusZero Samples.store) as [_ [Hpage _]].
  split.
  - destruct Hfails as [_ [Hjson _]]; [exact I|]. rewrite Hjson. reflexivity.
  - destruct Hpage as [_ Hjson]; [|exact Hjson].
    eexists. split; [reflexivity|]. left. simpl. discriminate.
Defined.

(** C5 as stated fails: a payload whose status is not ["1"] does not fall
    back to the stored entries. *)
Lemma status_not_1_is_no_fallback :
  Spec.notAResultPage Samples.statusZero
  /\ ~ Spec.mostRecent 50 (Storage.Map_values (Storage.claimHistory Samples.store))
         (Routes.json (Routes.getClaimHistoryRoute Samples.statusZero Samples.store)).
Proof.
  split.
  - eexists. split; [reflexivity|]. left. simpl. discriminate.
  - intros [older [_ [_ Hlen]]]. simpl in Hlen. discriminate Hlen.
Qed.

(** C6, as the code has it.  When the feed is unusable,
    [GET /api/total-claimed] answers 200 with exactly
    [{totalClaimed: "0", claimCount: 0}]; no feed makes the handler fail. *)
Theorem total_claimed_on_feed_failure (feed : Routes.FetchOutcome) :
  Spec.feedFails feed \/ Spec.notAResultPage feed ->
  Routes.json (Routes.getTotalClaimedRoute feed)
  = {| Routes.totalClaimed := "0"; Routes.claimCount := 0 |}
  /\ forall any, Routes.statusCode (Routes.getTotalClaimedRoute any) = 200.
Proof.
  intros H. split.
  - unfold Routes.getTotalClaimedRoute, Routes.totalClaimedTry.
    destruct H as [H | [data [-> H]]].
    + destruct (fetchFeed_fails feed H) as [m Hm]. rewrite Hm. reflexivity.
    + simpl. rewrite (guardedResult_notAResultPage data H). reflexivity.
  - intros any. unfold Routes.getTotalClaimedRoute.
    destruct (Routes.totalClaimedTry any); reflexivity.
Qed.

Lemma total_claimed_on_feed_failure_witness :
  Routes.json (Routes.getTotalClaimedRoute (Routes.FetchRejected "ECONNREFUSED"))
  = {| Routes.totalClaimed := "0"; Routes.claimCount := 0 |}.
Proof.
  apply (total_claimed_on_feed_failure (Routes.FetchRejected "ECONNREFUSED")).
  left. exact I.
Defined.

(** C6 as stated fails: on an unreachable feed the total is ["0"], not
    ["0.00"]. *)
Lemma total_claimed_is_not_0_00 :
  Spec.feedFails (Routes.FetchRejected "ECONNREFUSED")
  /\ Routes.json (Routes.getTotalClaimedRoute (Routes.FetchRejected "ECONNREFUSED"))
     <> {| Routes.totalClaimed := "0.00"; Routes.claimCount := 0 |}.
Proof.
  split; [exact I|]. simpl. discriminate.
Qed.

(** ** Recording a local claim *)

(** C7.  [POST /api/claim-history] with an empty wallet address answers 400
    with an error body and leaves the storage as it was.  With a non-empty
    address and a decimal amount it answers 200 with a new entry carrying
    the drawn id and the current time; the entry is appended to the storage
    when the id is fresh, and listing the claims of that wallet, under any
    spelling of the address up to case, returns it, newest first and
    holding only entries of that wallet. *)
Theorem record_local_claim (uuid : string) (now : Z)
  (body : Schema.Insert.InsertClaimHistory) (st : Storage.MemStorage) :
  (Schema.Insert.walletAddress body = "" ->
   fst (Routes.postClaimHistoryRoute uuid now body st) = st
   /\ Routes.statusCode (snd (Routes.postClaimHistoryRoute uuid now body st)) = 400
   /\ exists error,
        Routes.json (snd (Routes.postClaimHistoryRoute uuid now body st))
        = Routes.ErrorJson error)
  /\ (Schema.Insert.walletAddress body <> "" ->
      Schema.isFixedPointDecimal (Schema.Insert.amount body) = true ->
      exists claim,
        Routes.statusCode (snd (Routes.postClaimHistoryRoute uuid now body st)) = 200
        /\ Routes.json (snd (Routes.postClaimHistoryRoute uuid now body st))
           = Routes.ClaimJson claim
        /\ Schema.id claim = uuid
        /\ Schema.claimedAt claim = now
        /\ Schema.walletAddress claim = Schema.Insert.walletAddress body
        /\ Schema.amount claim = Schema.Insert.amount body
        /\ Schema.transactionHash claim = Schema.Insert.transactionHash body
        /\ (Storage.Map_has uuid (Storage.claimHistory st) = false ->
            Storage.claimHistory (fst (Routes.postClaimHistoryRoute uuid now body st))
            = Storage.claimHistory st ++ [(uuid, claim)])
        /\ forall wallet,
             Spec.sameIgnoringCase wallet (Schema.Insert.walletAddress body) ->
             let listed :=
               Routes.json (Routes.getClaimHistoryByWalletRoute wallet
                              (fst (Routes.postClaimHistoryRoute uuid now body st))) in
             In claim listed
             /\ StronglySorted Spec.newestFirstOrder listed
             /\ Forall (fun c => Spec.sameIgnoringCase (Schema.walletAddress c) wallet) listed).
Proof.
  unfold Routes.postClaimHistoryRoute, Schema.insertClaimHistorySchema_parse. split.
  - intros ->. simpl. split; [reflexivity|]. split; [reflexivity|].
    eexists. reflexivity.
  - intros Hw Ha.
    destruct (String.eqb_spec (Schema.Insert.walletAddress body) ""); [contradiction|].
    rewrite Ha. simpl.
    eexists. repeat (split; [reflexivity|]).
    split; [apply Map_set_fresh|].
    intros wallet Hsame. simpl. split; [|split].
    + apply getClaimHistoryByWallet_In. simpl. split.
      * apply Map_set_In.
      * apply sameIgnoringCase_sym. exact Hsame.
    + apply sortBy_newestFirst.
    + apply Forall_forall. intros c Hc.
      apply getClaimHistoryByWallet_In in Hc. apply Hc.
Qed.

Lemma record_local_claim_witness :
  fst (Routes.postClaimHistoryRoute "9b2f-new" 1800000000000
         Samples.emptyAddressReport Samples.store) = Samples.store
  /\ exists claim,
       Routes.json (snd (Routes.postClaimHistoryRoute "9b2f-new" 1800000000000
                           Samples.report Samples.store)) = Routes.ClaimJson claim
       /\ In claim
            (Routes.json
               (Routes.getClaimHistoryByWalletRoute "0x00000000000000000000000000000000000000C3"
                  (fst (Routes.postClaimHistoryRoute "9b2f-new" 1800000000000
                          Samples.report Samples.store)))).
Proof.
  split.
  - destruct (record_local_claim "9b2f-new" 1800000000000
                Samples.emptyAddressReport Samples.store) as [Hbad _].
    apply Hbad. reflexivity.
  - destruct (record_local_claim "9b2f-new" 1800000000000
                Samples.report Samples.store) as [_ Hgood].
    destruct Hgood as [claim [_ [Hjson [_ [_ [_ [_ [_ [_ Hlist]]]]]]]]].
    + simpl. discriminate.
    + reflexivity.
    + exists claim. split; [exact Hjson|].
      apply (Hlist "0x00000000000000000000000000000000000000C3").
      apply toLowerCase_same. reflexivity.
Defined.

(** ** Rational arithmetic of progress *)

Ltac lraq :=
  unfold Qdiv in *;
  change (inject_Z 600000) with 600000%Q in *;
  change (inject_Z 100) with 100%Q in *;
  change (/ 600000)%Q with (1 # 600000)%Q in *;
  change (/ 100)%Q with (1 # 100)%Q in *;
  lra.

Lemma inject_Z_sub (a b : Z) : (inject_Z (a - b) == inject_Z a - inject_Z b)%Q.
Proof. unfold Z.sub. rewrite inject_Z_plus, inject_Z_opp. reflexivity. Qed.

Lemma Qmin_100_eq (x y : Q) : (x == y -> Qmin 100 x == Qmin 100 y)%Q.
Proof.
  intros H.
  destruct (Q.min_spec 100 x) as [[? ->]|[? ->]],
           (Q.min_spec 100 y) as [[? ->]|[? ->]]; lra.
Qed.

Lemma Qmin_100_ge (x : Q) : (100 <= x -> Qmin 100 x == 100)%Q.
Proof. intros H. destruct (Q.min_spec 100 x) as [[? ->]|[? ->]]; lra. Qed.

Lemma orFullSession_pos (z : Z) : 0 < z -> Client.orFullSession z = z.
Proof.
  unfold Client.orFullSession. intros H.
  destruct (Z.eqb_spec z 0); [lia | reflexivity].
Qed.

(** The first timer of a session shows the ideal progress at every tick. *)
Lemma progressAt_fresh (now0 now : Z) :
  now0 <= now ->
  (Client.progressAt (Client.installTimer now0 0 0) now
   == Engine.idealProgress (now - now0))%Q.
Proof.
  intros H.
  unfold Client.progressAt, Client.remainingAt, Client.installTimer,
    Engine.idealProgress, Engine.sessionDurationMs, Client.orFullSession.
  cbn [Client.startTime Client.initialProgress Client.remainingTime Client.endTime Z.eqb].
  destruct (Z.max_spec 0 (now0 + 600000 - now)) as [[H1 ->] | [H1 ->]].
  - replace (600000 - (now0 + 600000 - now)) with (now - now0) by lia.
    apply Qmin_100_eq. lraq.
  - rewrite Z.sub_0_r.
    assert (inject_Z 600000 <= inject_Z (now - now0))%Q as Hq
      by (rewrite <- Zle_Qle; lia).
    transitivity 100%Q; [apply Qmin_100_ge; lraq | symmetry; apply Qmin_100_ge; lraq].
Qed.

(** A timer that starts from the progress matching its remaining time
    keeps progress and remaining time matched, and below 100. *)
Lemma progressAt_valid (t : Client.Timer) (now : Z) :
  (Client.initialProgress t == 100 - inject_Z (Client.remainingTime t) / 600000 * 100)%Q ->
  (Client.progressAt t now == 100 - inject_Z (Client.remainingAt t now) / 600000 * 100)%Q
  /\ (Client.progressAt t now <= 100)%Q.
Proof.
  intros Hi. unfold Client.progressAt.
  assert (0 <= Client.remainingAt t now) as Hr by (unfold Client.remainingAt; lia).
  assert (0 <= inject_Z (Client.remainingAt t now))%Q as Hq
    by (change 0%Q with (inject_Z 0); rewrite <- Zle_Qle; exact Hr).
  set (r := Client.remainingAt t now) in *.
  pose proof (inject_Z_sub (Client.remainingTime t) r) as Hs.
  destruct (Q.min_spec 100
              (Client.initialProgress t + inject_Z (Client.remainingTime t - r) / 600000 * 100))
    as [[Hlt ->] | [Hle ->]]; split; lraq.
Qed.

Lemma idealProgress_tolerance (t' t : Z) :
  t' <= t <= t' + Engine.tickMs ->
  (0 <= Engine.idealProgress t - Engine.idealProgress t')%Q
  /\ (Engine.idealProgress t - Engine.idealProgress t' <= Engine.tickWorth)%Q.
Proof.
  unfold Engine.tickWorth, Engine.tickMs, Engine.idealProgress, Engine.sessionDurationMs.
  intros [H1 H2].
  assert (inject_Z t' <= inject_Z t)%Q as Q1 by (rewrite <- Zle_Qle; lia).
  assert (inject_Z t <= inject_Z t' + inject_Z 100)%Q as Q2
    by (rewrite <- inject_Z_plus, <- Zle_Qle; lia).
  destruct (Q.min_spec 100 (inject_Z t / inject_Z 600000 * 100)) as [[? ->]|[? ->]],
           (Q.min_spec 100 (inject_Z t' / inject_Z 600000 * 100)) as [[? ->]|[? ->]];
    split; lraq.
Qed.

Lemma idealProgress_full (t : Z) : 600000 <= t -> (Engine.idealProgress t == 100)%Q.
Proof.
  intros H. unfold Engine.idealProgress, Engine.sessionDurationMs.
  assert (inject_Z 600000 <= inject_Z t)%Q as Hq by (rewrite <- Zle_Qle; lia).
  apply Qmin_100_ge. lraq.
Qed.


(** ** The session component: evaluating a step *)

Module AppFacts.
Import Client App AppSpec.

Ltac unfold_handlers :=
  cbv [handle perform andThen set emit skip addLog tick logTick
       startMining pauseMining continueMining openStopWarning confirmStop cancelStopWarning
       handleClaim onConfirmed onWriteError onReverted starts
       setMiningState setProgress setTimeLeft setHashRate setPausedProgress setPausedTimeLeft
       setShowStopWarning setCpuEnabled setGpuEnabled setMiningLogs setBlocksFound setSharesFound
       setCanFindShares setDisplayedReward setLogIdRef setTimers
       miningState progress timeLeft hashRate pausedProgress pausedTimeLeft showStopWarning
       cpuEnabled gpuEnabled miningLogs blocksFound sharesFound canFindShares displayedReward
       logIdRef timers fst snd negb andb orb app logsOf].

Ltac split_ifs :=
  repeat match goal with
         | |- context [if ?c then _ else _] => destruct c eqn:?
         | |- context [match ?c with Some _ => _ | None => _ end] => destruct c eqn:?
         end.

(** Decides whether the mining effect runs again. *)
Ltac same_deps :=
  cbv [depsChanged MiningState_eqb miningState pausedProgress pausedTimeLeft
       cpuEnabled gpuEnabled];
  rewrite ?Qeq_bool_refl, ?Z.eqb_refl, ?Bool.eqb_reflx;
  cbv beta iota delta [negb orb andb].

(** Evaluates [step now e s] on a state given by its fields: first the
    handler, then the effect. *)
Ltac eval_step :=
  unfold step;
  repeat (unfold_handlers; split_ifs);
  unfold miningEffect; same_deps;
  repeat (unfold_handlers; split_ifs).

Ltac each_step s e :=
  destruct s as [[] ? ? ? ? ? ? ? ? ? ? ? ? ? ? ?]; destruct e; eval_step.

Lemma step_displayedReward (now : Z) (e : Event) (s : Session) :
  let r := displayedReward (fst (step now e s)) in
  r = displayedReward s \/ r = 0%Q \/ r = 200%Q
  \/ r = Qmin 200 (displayedReward s + increment)%Q.
Proof. each_step s e; auto. Qed.

Lemma increment_value : (increment == 1 # 3)%Q.
Proof. reflexivity. Qed.

Lemma step_rewardInRange (now : Z) (e : Event) (s : Session) :
  rewardInRange s -> rewardInRange (fst (step now e s)).
Proof.
  unfold rewardInRange. intros [Hlo Hhi].
  destruct (step_displayedReward now e s) as [-> | [-> | [-> | ->]]].
  - split; assumption.
  - split; [apply Qle_refl | discriminate].
  - split; [discriminate | apply Qle_refl].
  - split; [|apply Q.le_min_l].
    apply Q.min_glb; [discriminate|].
    rewrite increment_value. lra.
Qed.

Lemma run_rewardInRange (evs : list (Z * Event)) (s : Session) :
  rewardInRange s -> rewardInRange (run s evs).
Proof.
  revert s. induction evs as [|[now e] evs IH]; intros s H; simpl; [exact H|].
  apply IH. apply step_rewardInRange. exact H.
Qed.

(** C10.  Under every sequence of events the displayed reward stays between
    0 and 200: a step leaves it as it is, or sets it to 0 or to 200, or adds
    one share increment clamped at 200.  The completing tick sets it to
    exactly 200; a successful start, the confirmed stop and the confirmed
    claim set it to 0. *)
Theorem displayed_reward_never_exceeds_200 :
  (forall evs, (0 <= displayedReward (run initial evs))%Q
               /\ (displayedReward (run initial evs) <= 200)%Q)
  /\ (forall now e s,
        displayedReward (fst (step now e s)) = displayedReward s
        \/ displayedReward (fst (step now e s)) = 0%Q
        \/ displayedReward (fst (step now e s)) = 200%Q
        \/ displayedReward (fst (step now e s))
           = Qmin 200 (displayedReward s + increment)%Q)
  /\ (forall now rand blockHash shareTag hr s,
        displayedReward (fst (logTick now rand blockHash shareTag hr s)) = displayedReward s
        \/ displayedReward (fst (logTick now rand blockHash shareTag hr s))
           = Qmin 200 (displayedReward s + increment)%Q)
  /\ (forall t range now random s,
        remainingAt t now <= 0 ->
        displayedReward (fst (tick t range now random s)) = 200%Q)
  /\ (forall s,
        cpuEnabled s || gpuEnabled s = true ->
        displayedReward (fst (startMining false s)) = 0%Q)
  /\ (forall s, displayedReward (fst (confirmStop s)) = 0%Q)
  /\ (forall hash address s,
        hash <> "" -> address <> "" ->
        displayedReward (fst (onConfirmed hash address s)) = 0%Q).
Proof.
  split; [|split; [|split; [|split; [|split; [|split]]]]].
  - intros evs. apply run_rewardInRange. split; [apply Qle_refl | discriminate].
  - intros now e s. apply step_displayedReward.
  - intros now rand blockHash shareTag hr s.
    destruct s as [[] ? ? ? ? ? ? ? ? ? ? ? ? ? ? ?];
      repeat (unfold_handlers; split_ifs); auto.
  - intros t range now random s H. apply Z.leb_le in H.
    unfold tick. rewrite H. unfold_handlers. reflexivity.
  - intros s H. unfold startMining.
    destruct (cpuEnabled s), (gpuEnabled s); try discriminate H; reflexivity.
  - intros s. reflexivity.
  - intros hash address s Hh Ha. unfold onConfirmed.
    destruct (String.eqb_spec hash ""); [contradiction|].
    destruct (String.eqb_spec address ""); [contradiction|].
    reflexivity.
Qed.

(** *** The invariant of reachable states *)

Ltac saturate Hlive Hpaused Hsome :=
  try (destruct (Hlive (or_introl eq_refl)) as [? ?]);
  try (destruct (Hlive (or_intror eq_refl)) as [? ?]);
  try (destruct (Hpaused eq_refl) as [? ?]; subst);
  try (destruct (Hsome _ eq_refl) as [_ [? [? ?]]]);
  clear Hlive Hpaused Hsome.

Ltac finish :=
  repeat split; intros;
  repeat match goal with
         | H : Some _ = Some _ |- _ => injection H as <-
         | H : Some _ = None |- _ => discriminate H
         | H : _ \/ _ |- _ => destruct H
         end;
  try discriminate; try assumption; try reflexivity;
  cbv [installTimer remainingTime startTime endTime initialProgress];
  rewrite ?orFullSession_pos by assumption;
  try lia; try lraq.

Lemma consistent_initial : consistent initial.
Proof.
  unfold consistent, initial. cbn [miningState progress timeLeft timers].
  repeat split; intros; try discriminate.
Qed.

Lemma consistent_step (now : Z) (e : Event) (s : Session) :
  consistent s -> consistent (fst (step now e s)).
Proof.
  unfold consistent.
  destruct s as [m p tl hr pp ptl w cpu gpu logs bf sf cfs dr lid tm].
  cbn [miningState progress timeLeft pausedProgress pausedTimeLeft timers].
  intros [Hp [Hlive [Hpaused [Hsome Hnone]]]].
  destruct e; destruct m.
  all: try (destruct tm as [t|]; [destruct (Hsome t eq_refl) as [Hm _]; discriminate Hm|]).
  all: try (destruct tm as [t|]; [|contradiction (Hnone eq_refl); reflexivity]).
  all: eval_step.
  all: saturate Hlive Hpaused Hsome.
  all: try (finish; fail).
  (* the tick that does not complete the session *)
  apply Z.leb_gt in Heqb.
  destruct (progressAt_valid t now) as [Hv Hle]; [assumption|].
  finish.
Qed.

Lemma reachable_consistent (s : Session) : reachable s -> consistent s.
Proof.
  intros [evs ->].
  assert (forall s0, consistent s0 -> consistent (run s0 evs)) as H.
  { induction evs as [|[now e] evs IH]; intros s0 H0; simpl; [exact H0|].
    apply IH. apply consistent_step. exact H0. }
  apply H. apply consistent_initial.
Qed.

(** *** Pause and resume *)

Lemma pause_fields (now : Z) (s : Session) :
  miningState s = mining ->
  miningState (fst (step now ClickPause s)) = paused
  /\ progress (fst (step now ClickPause s)) = progress s
  /\ timeLeft (fst (step now ClickPause s)) = timeLeft s
  /\ pausedProgress (fst (step now ClickPause s)) = progress s
  /\ pausedTimeLeft (fst (step now ClickPause s)) = timeLeft s
  /\ timers (fst (step now ClickPause s)) = None.
Proof.
  destruct s as [m ? ? ? ? ? ? ? ? ? ? ? ? ? ? ?]. cbn [miningState]. intros ->.
  eval_step. repeat split.
Qed.

Lemma continue_fields (now : Z) (s : Session) :
  miningState s = paused ->
  miningState (fst (step now ClickContinue s)) = mining
  /\ progress (fst (step now ClickContinue s)) = progress s
  /\ timeLeft (fst (step now ClickContinue s)) = timeLeft s
  /\ timers (fst (step now ClickContinue s))
     = Some (installTimer now (pausedProgress s) (pausedTimeLeft s)).
Proof.
  destruct s as [m ? ? ? ? ? ? ? ? ? ? ? ? ? ? ?]. cbn [miningState]. intros ->.
  eval_step; repeat split.
Qed.

Lemma no_timer_no_tick (now : Z) (random : Q) (s : Session) :
  timers s = None -> fst (step now (TimerFires random) s) = s.
Proof.
  destruct s as [m ? ? ? ? ? ? ? ? ? ? ? ? ? ? tm]. cbn [timers]. intros ->.
  destruct m; eval_step; reflexivity.
Qed.

Lemma tick_progress (now : Z) (random : Q) (s : Session) (t : Timer) :
  timers s = Some t ->
  (initialProgress t == 100 - inject_Z (remainingTime t) / 600000 * 100)%Q ->
  (progress (fst (step now (TimerFires random) s)) == progressAt t now)%Q.
Proof.
  destruct s as [m ? ? ? ? ? ? ? ? ? ? ? ? ? ? tm]. cbn [timers]. intros -> Hv.
  destruct (progressAt_valid t now Hv) as [Hp _].
  assert (0 <= remainingAt t now) as Hr by (unfold remainingAt; lia).
  destruct m; eval_step; try reflexivity.
  all: apply Z.leb_le in Heqb;
    replace (remainingAt t now) with 0 in Hp by lia;
    rewrite Hp; reflexivity.
Qed.

(** C3.  From a reachable mining session, pause and then resume, however
    long the pause: while paused no interval runs and a tick changes
    nothing; resume leaves progress and remaining time as they were at the
    pause and restarts the timer from them, so that every later tick shows
    the progress of an uninterrupted session started at
    [now_r - elapsedAtPause]; a tick within one cadence after the resume
    moves progress by at most one tick's worth. *)
Theorem pause_then_resume_keeps_progress (s : Session) (now_p now_r : Z) :
  reachable s -> miningState s = mining ->
  let sp := fst (step now_p ClickPause s) in
  let sr := fst (step now_r ClickContinue sp) in
  let elapsedAtPause := Engine.sessionDurationMs - timeLeft s in
  (miningState sp = paused
   /\ progress sp = progress s
   /\ timers sp = None
   /\ forall now random, fst (step now (TimerFires random) sp) = sp)
  /\ miningState sr = mining
  /\ progress sr = progress s
  /\ timeLeft sr = timeLeft s
  /\ timers sr = Some {| startTime := now_r; initialProgress := progress s;
                         remainingTime := timeLeft s; endTime := now_r + timeLeft s |}
  /\ (forall now random,
        now_r <= now ->
        (progress (fst (step now (TimerFires random) sr))
         == Engine.idealProgress (now - (now_r - elapsedAtPause)))%Q)
  /\ (forall now random,
        now_r <= now <= now_r + Engine.tickMs ->
        (progress s <= progress (fst (step now (TimerFires random) sr)))%Q
        /\ (progress (fst (step now (TimerFires random) sr))
            <= progress s + Engine.tickWorth)%Q).
Proof.
  intros Hreach Hm sp sr elapsedAtPause.
  destruct (reachable_consistent s Hreach) as [Hle [Hlive _]].
  destruct (Hlive (or_introl Hm)) as [Htl Hprog]. clear Hlive.
  destruct (pause_fields now_p s Hm) as [Pm [Pp [Pt [Ppp [Pptl Ptm]]]]].
  fold sp in Pm, Pp, Pt, Ppp, Pptl, Ptm.
  destruct (continue_fields now_r sp Pm) as [Rm [Rp [Rt Rtm]]].
  fold sr in Rm, Rp, Rt, Rtm.
  rewrite Ppp, Pptl in Rtm.
  unfold installTimer in Rtm. rewrite (orFullSession_pos _ Htl) in Rtm.
  assert (forall now random, now_r <= now ->
            (progress (fst (step now (TimerFires random) sr))
             == Engine.idealProgress (now - (now_r - elapsedAtPause)))%Q) as Hideal.
  { intros now random Hnow.
    rewrite (tick_progress now random sr _ Rtm) by exact Hprog.
    unfold progressAt, remainingAt, Engine.idealProgress, elapsedAtPause,
      Engine.sessionDurationMs.
    cbn [startTime initialProgress remainingTime endTime].
    replace (now - (now_r - (600000 - timeLeft s)))
      with ((now - now_r) + (600000 - timeLeft s)) by lia.
    rewrite (inject_Z_plus (now - now_r) (600000 - timeLeft s)).
    pose proof (inject_Z_sub 600000 (timeLeft s)) as E2.
    assert (0 <= inject_Z (now - now_r))%Q as Hd
      by (change 0%Q with (inject_Z 0); rewrite <- Zle_Qle; lia).
    destruct (Z.max_spec 0 (now_r + timeLeft s - now)) as [[H1 ->] | [H1 ->]].
    - replace (timeLeft s - (now_r + timeLeft s - now)) with (now - now_r) by lia.
      apply Qmin_100_eq. lraq.
    - rewrite Z.sub_0_r.
      assert (inject_Z (timeLeft s) <= inject_Z (now - now_r))%Q as Hq
        by (rewrite <- Zle_Qle; lia).
      transitivity 100%Q; [apply Qmin_100_ge; lraq | symmetry; apply Qmin_100_ge; lraq]. }
  split; [|split; [|split; [|split; [|split; [|split]]]]].
  - repeat split; try assumption. intros now random.
    apply no_timer_no_tick. exact Ptm.
  - exact Rm.
  - rewrite Rp. exact Pp.
  - rewrite Rt. exact Pt.
  - exact Rtm.
  - exact Hideal.
  - intros now random [Hnow1 Hnow2].
    rewrite (Hideal now random Hnow1).
    assert (progress s == Engine.idealProgress elapsedAtPause)%Q as Hs.
    { unfold Engine.idealProgress, elapsedAtPause, Engine.sessionDurationMs.
      pose proof (inject_Z_sub 600000 (timeLeft s)) as E2.
      assert (0 <= inject_Z (timeLeft s))%Q as Hd
        by (change 0%Q with (inject_Z 0); rewrite <- Zle_Qle; lia).
      destruct (Q.min_spec 100 (inject_Z (600000 - timeLeft s) / inject_Z 600000 * 100))
        as [[? ->]|[? ->]]; lraq. }
    destruct (idealProgress_tolerance elapsedAtPause (now - (now_r - elapsedAtPause)))
      as [T1 T2]; [unfold Engine.tickMs in *; lia|].
    split; lra.
Qed.

(** *** A session left running *)

Lemma start_running (now0 : Z) (s0 : Session) :
  miningState s0 = idle -> cpuEnabled s0 || gpuEnabled s0 = true ->
  running now0 now0 (fst (step now0 (ClickStart false) s0))
  /\ displayedReward (fst (step now0 (ClickStart false) s0)) = 0%Q
  /\ progress (fst (step now0 (ClickStart false) s0)) = 0%Q.
Proof.
  destruct s0 as [m ? ? ? ? ? ? cpu gpu ? ? ? ? ? ? ?].
  cbn [miningState cpuEnabled gpuEnabled]. intros -> Hdev.
  destruct cpu, gpu; try discriminate Hdev; eval_step.
  all: split; [|split; reflexivity].
  all: left; cbn [miningState timers progress];
    repeat split; try reflexivity; try lia;
    rewrite Z.sub_diag; reflexivity.
Qed.

Lemma running_step (now0 last now : Z) (e : Event) (s : Session) :
  running now0 last s -> now0 <= last -> last <= now -> isInterval e = true ->
  running now0 (lastTick last [(now, e)]) (fst (step now e s)).
Proof.
  intros Hr H0 Hl He.
  destruct e; try discriminate He; clear He; cbn [lastTick].
  - (* the progress interval *)
    destruct Hr as [[Hlast [Hm [Ht Hp]]] | [Hlast [Hm [Ht [Hp Hd]]]]];
      destruct s as [m ? ? ? ? ? ? ? ? ? ? ? ? ? ? tm];
      cbn [miningState timers progress displayedReward] in *; subst m tm.
    + unfold step, andThen, handle. cbn [miningState timers].
      unfold tick.
      destruct (Z.leb_spec (remainingAt (installTimer now0 0 0) now) 0) as [Hrem | Hrem];
        unfold remainingAt, installTimer, orFullSession in Hrem;
        cbn [endTime startTime remainingTime Z.eqb] in Hrem.
      * right. eval_step. repeat split; try reflexivity. lia.
      * left. eval_step. repeat split; try reflexivity; [lia|].
        apply progressAt_fresh. lia.
    + right. subst. eval_step. repeat split; try reflexivity. lia.
  - (* the log interval *)
    destruct Hr as [[Hlast [Hm [Ht Hp]]] | [Hlast [Hm [Ht [Hp Hd]]]]];
      destruct s as [m ? ? ? ? ? ? ? ? ? ? ? ? ? ? tm];
      cbn [miningState timers progress displayedReward] in *; subst m tm.
    + left. eval_step; repeat split; try reflexivity; assumption.
    + right. subst. eval_step. repeat split; try reflexivity. assumption.
Qed.

Lemma running_state (now0 last : Z) (s : Session) :
  running now0 last s ->
  (last < now0 + 600000 /\ miningState s = mining)
  \/ (now0 + 600000 <= last /\ miningState s = completed).
Proof. intros [[? [? _]] | [? [? _]]]; [left | right]; split; assumption. Qed.

Lemma lastTick_single_bounds (last now : Z) (e : Event) :
  last <= now -> last <= lastTick last [(now, e)] <= now.
Proof. intros H. destruct e; cbn [lastTick]; lia. Qed.

Lemma lastTick_cons (last now : Z) (e : Event) (evs : list (Z * Event)) :
  lastTick last ((now, e) :: evs) = lastTick (lastTick last [(now, e)]) evs.
Proof. destruct e; reflexivity. Qed.

Lemma running_run (now0 : Z) (evs : list (Z * Event)) :
  forall since last s,
    running now0 last s -> now0 <= last -> last <= since ->
    Engine.chronological since evs -> uninterrupted evs ->
    running now0 (lastTick last evs) (run s evs)
    /\ last <= lastTick last evs
    /\ completions s evs
       = (if MiningState_eqb (miningState s) mining
             && MiningState_eqb (miningState (run s evs)) completed
          then 1 else 0)%nat.
Proof.
  induction evs as [|[now e] evs IH]; intros since last s Hr H0 Hs Hc Hu.
  - cbn [lastTick run completions]. split; [exact Hr|]. split; [lia|].
    destruct (running_state _ _ _ Hr) as [[_ ->] | [_ ->]]; reflexivity.
  - destruct Hc as [Hnow Hc]. inversion Hu as [|? ? He Hu']; subst.
    cbn [snd] in He.
    assert (last <= now) as Hln by lia.
    pose proof (running_step now0 last now e s Hr H0 Hln He) as Hr'.
    destruct (lastTick_single_bounds last now e Hln) as [B1 B2].
    destruct (IH now (lastTick last [(now, e)]) (fst (step now e s)) Hr'
                ltac:(lia) B2 Hc Hu') as [Hfin [Hmono Hcount]].
    rewrite lastTick_cons. cbn [run completions].
    split; [exact Hfin|]. split; [lia|].
    rewrite Hcount.
    destruct (running_state _ _ _ Hr) as [[L1 ->] | [L1 ->]];
      destruct (running_state _ _ _ Hr') as [[L2 ->] | [L2 ->]];
      destruct (running_state _ _ _ Hfin) as [[L3 ->] | [L3 ->]];
      try reflexivity; lia.
Qed.

(** The half of C2 about this component. *)
Lemma left_running (s0 : Session) (now0 : Z) (evs : list (Z * Event)) :
  miningState s0 = idle -> cpuEnabled s0 || gpuEnabled s0 = true ->
  Engine.chronological now0 evs -> uninterrupted evs ->
  let s1 := fst (step now0 (ClickStart false) s0) in
  let s := run s1 evs in
  let t := lastTick now0 evs - now0 in
  (progress s == Engine.idealProgress t)%Q
  /\ (forall t', t <= t' <= t + Engine.tickMs ->
        (0 <= Engine.idealProgress t' - progress s)%Q
        /\ (Engine.idealProgress t' - progress s <= Engine.tickWorth)%Q)
  /\ (t < Engine.sessionDurationMs ->
      miningState s = mining /\ completions s1 evs = 0%nat)
  /\ (Engine.sessionDurationMs <= t ->
      miningState s = completed
      /\ progress s = 100%Q
      /\ displayedReward s = 200%Q
      /\ completions s1 evs = 1%nat).
Proof.
  intros Hidle Hdev Hc Hu s1 s t.
  destruct (start_running now0 s0 Hidle Hdev) as [Hr1 _]. fold s1 in Hr1.
  destruct (running_run now0 evs now0 now0 s1 Hr1 ltac:(lia) ltac:(lia) Hc Hu)
    as [Hfin [Hmono Hcount]].
  fold s in Hfin, Hcount.
  assert (miningState s1 = mining) as Hm1.
  { destruct (running_state _ _ _ Hr1) as [[_ H] | [H _]]; [exact H | lia]. }
  rewrite Hm1 in Hcount. cbn [MiningState_eqb andb] in Hcount.
  assert (progress s == Engine.idealProgress t)%Q as Hprog.
  { destruct Hfin as [[_ [_ [_ Hp]]] | [Hlast [_ [_ [Hp _]]]]]; [exact Hp|].
    rewrite Hp. symmetry. apply idealProgress_full. unfold t. lia. }
  unfold Engine.sessionDurationMs.
  split; [exact Hprog|]. split; [|split].
  - intros t' Ht'. rewrite Hprog. apply idealProgress_tolerance. exact Ht'.
  - intros Ht. destruct Hfin as [[_ [Hm _]] | [Hlast _]]; [|unfold t in Ht; lia].
    split; [exact Hm|]. rewrite Hcount, Hm. reflexivity.
  - intros Ht. destruct Hfin as [[Hlast _] | [_ [Hm [_ [Hp Hd]]]]]; [unfold t in Ht; lia|].
    repeat split; try assumption. rewrite Hcount, Hm. reflexivity.
Qed.

(** *** The log stream *)

Lemma shareAfterBlock_app (l new : list MiningLog) :
  shareAfterBlock l ->
  (forall e, In e new -> type e = share -> exists b, In b l /\ type b = block) ->
  shareAfterBlock (l ++ new).
Proof.
  intros Hl Hnew pre e post Heq Hshare.
  apply app_eq_app in Heq. destruct Heq as [m [[E1 E2] | [E1 E2]]].
  - destruct m as [|e' m].
    + rewrite app_nil_r in E1. subst pre. simpl in E2. 
      apply (Hnew e); [rewrite <- E2; left; reflexivity | exact Hshare].
    + simpl in E2. injection E2 as Ee E2. subst e'.
      apply (Hl pre e m); assumption.
  - destruct (Hnew e) as [b [Hb Htb]]; [rewrite E2; apply in_or_app; right; left; reflexivity
                                       | exact Hshare |].
    exists b. split; [|exact Htb]. rewrite E1. apply in_or_app. left. exact Hb.
Qed.

Ltac flag_solve :=
  try discriminate; try assumption; try reflexivity;
  try (left; split; first [assumption | reflexivity]; first [assumption | reflexivity]);
  try (right; eexists; split; [left; reflexivity | reflexivity]).

Ltac flag_finish :=
  repeat split; intros;
  repeat match goal with
         | H : In _ _ |- _ => cbv [In] in H
         | H : _ \/ _ |- _ => destruct H
         | H : False |- _ => contradiction H
         end;
  subst; cbn [type] in *;
  flag_solve;
  repeat match goal with
         | b : bool |- _ => destruct b
         end;
  flag_solve.

Lemma step_shares_flag (now : Z) (e : Event) (s : Session) :
  (forall entry, In entry (logsOf (snd (step now e s))) -> type entry = share ->
                 canFindShares s = true /\ starts e s = false)
  /\ (canFindShares (fst (step now e s)) = true ->
      (canFindShares s = true /\ starts e s = false)
      \/ exists b, In b (logsOf (snd (step now e s))) /\ type b = block)
  /\ (starts e s = true -> canFindShares (fst (step now e s)) = false).
Proof. each_step s e; flag_finish. Qed.

Lemma logStream_ordered (evs : list (Z * Event)) :
  forall s sofar,
    shareAfterBlock sofar ->
    (canFindShares s = true -> exists b, In b sofar /\ type b = block) ->
    shareAfterBlock (logStream s sofar evs).
Proof.
  induction evs as [|[now e] evs IH]; intros s sofar Hs Hc; cbn [logStream]; [exact Hs|].
  destruct (step_shares_flag now e s) as [GA [GB GC]].
  destruct (step now e s) as [s' out] eqn:Hstep. cbn [fst snd] in GA, GB, GC.
  apply IH.
  - destruct (starts e s) eqn:Hst.
    + apply (shareAfterBlock_app [] (logsOf out)).
      * intros [|? ?] ? ? Heq; discriminate Heq.
      * intros entry Hin Hshare. destruct (GA entry Hin Hshare) as [_ Habs]. discriminate Habs.
    + apply shareAfterBlock_app; [exact Hs|].
      intros entry Hin Hshare. destruct (GA entry Hin Hshare) as [Hcan _]. apply Hc. exact Hcan.
  - intros Hcan'. destruct (GB Hcan') as [[Hcan Hst] | [b [Hb Htb]]].
    + rewrite Hst. destruct (Hc Hcan) as [b [Hb Htb]].
      exists b. split; [apply in_or_app; left; exact Hb | exact Htb].
    + exists b. split; [apply in_or_app; right; exact Hb | exact Htb].
Qed.

(** C9.  In the log stream of a session, every share entry comes after a
    block entry made since the session started; a session start resets the
    flag [canFindShares] to false, and only a block entry opens it. *)
Theorem share_only_after_block :
  (forall evs, shareAfterBlock (logStream initial [] evs))
  /\ (forall now e s, starts e s = true -> canFindShares (fst (step now e s)) = false)
  /\ (forall now e s entry,
        In entry (logsOf (snd (step now e s))) -> type entry = share ->
        canFindShares s = true).
Proof.
  split; [|split].
  - intros evs. apply logStream_ordered.
    + intros [|? ?] ? ? Heq; discriminate Heq.
    + intros H. discriminate H.
  - intros now e s. apply step_shares_flag.
  - intros now e s entry Hin Hshare.
    destruct (step_shares_flag now e s) as [GA _]. apply (GA entry Hin Hshare).
Qed.

(** *** Claiming *)

Lemma confirmed_resets (now : Z) (hash address : string) (s : Session) :
  hash <> "" -> address <> "" ->
  miningState (fst (step now (Confirmed hash address) s)) = idle
  /\ progress (fst (step now (Confirmed hash address) s)) = 0%Q
  /\ displayedReward (fst (step now (Confirmed hash address) s)) = 0%Q
  /\ pausedProgress (fst (step now (Confirmed hash address) s)) = 0%Q
  /\ pausedTimeLeft (fst (step now (Confirmed hash address) s)) = 0
  /\ flat_map (fun o => match o with ReportClaim d => [d] | _ => [] end)
       (snd (step now (Confirmed hash address) s))
     = [{| Schema.Insert.walletAddress := address;
           Schema.Insert.amount := "200.000000";
           Schema.Insert.transactionHash := Some hash |}].
Proof.
  intros Hh Ha.
  unfold step, andThen, handle, onConfirmed.
  destruct (String.eqb_spec hash ""); [contradiction|].
  destruct (String.eqb_spec address ""); [contradiction|].
  cbn [orb].
  destruct s as [[] ? ? ? ? ? ? ? ? ? ? ? ? ? ? []]; eval_step; repeat split.
Qed.

Lemma claim_submits (now : Z) (s : Session) :
  miningState s = completed -> step now (ClickClaim true) s = (s, [WriteContract]).
Proof.
  destruct s as [m ? ? ? ? ? ? ? ? ? ? ? ? ? ? ?].
  cbn [miningState]. intros ->. eval_step; reflexivity.
Qed.

Lemma reverted_ignored (now : Z) (message : string) (s : Session) :
  step now (Reverted message) s = (s, []).
Proof.
  destruct s as [[] ? ? ? ? ? ? ? ? ? ? ? ? ? ? ?]; eval_step; reflexivity.
Qed.

Lemma writeError_surfaced (now : Z) (message : string) (s : Session) :
  step now (WriteError message) s = (s, [Toast true "Claim Failed" message]).
Proof.
  destruct s as [[] ? ? ? ? ? ? ? ? ? ? ? ? ? ? ?]; eval_step; reflexivity.
Qed.

End AppFacts.

(** ** The variant with Stop & Claim: evaluating a step *)

Module AppReadyFacts.
Import Client AppReady AppReadySpec.

Ltac unfold_handlers :=
  cbv [handle perform andThen set emit skip tick
       startMining pauseMining continueMining stopAndClaim
       handleClaim onConfirmed onWriteError onReverted onNextClaimTime cooldownTick
       setMiningState setProgress setTimeLeft setHashRate setAccumulatedReward
       setPausedProgress setPausedReward setPausedTimeLeft setShowPauseDialog
       setGlobalCooldown setTimers
       miningState progress timeLeft hashRate accumulatedReward pausedProgress
       pausedReward pausedTimeLeft showPauseDialog globalCooldown timers
       fst snd negb andb orb app flat_map].

Ltac split_ifs :=
  repeat match goal with
         | |- context [if ?c then _ else _] => destruct c eqn:?
         | |- context [match ?c with Some _ => _ | None => _ end] => destruct c eqn:?
         end.

Ltac same_deps :=
  cbv [depsChanged MiningState_eqb miningState pausedProgress pausedReward pausedTimeLeft];
  rewrite ?Qeq_bool_refl, ?Z.eqb_refl;
  cbv beta iota delta [negb orb andb].

Ltac eval_step :=
  unfold step;
  repeat (unfold_handlers; split_ifs);
  unfold miningEffect; same_deps;
  repeat (unfold_handlers; split_ifs).

Lemma ready_start_running (now0 : Z) (s0 : Session) :
  miningState s0 = idle -> globalCooldown s0 <= 0 ->
  running now0 now0 (fst (step now0 ClickStart s0)).
Proof.
  destruct s0 as [m ? ? ? ? ? ? ? ? cd ?].
  cbn [miningState globalCooldown]. intros -> Hcd.
  unfold step, andThen, handle, startMining. cbn [miningState globalCooldown].
  destruct (Z.ltb_spec 0 cd) as [Hlt | _]; [lia|].
  eval_step. left. cbn [miningState timers progress].
  repeat split; try reflexivity; try lia.
  rewrite Z.sub_diag. reflexivity.
Qed.

Lemma ready_running_step (now0 last now : Z) (e : Event) (s : Session) :
  running now0 last s -> now0 <= last -> last <= now -> isInterval e = true ->
  running now0 (lastTick last [(now, e)]) (fst (step now e s)).
Proof.
  intros Hr H0 Hl He.
  destruct e; try discriminate He; clear He; cbn [lastTick].
  - (* the progress interval *)
    destruct Hr as [[Hlast [Hm [Ht Hp]]] | [Hlast [Hm [Ht [Hp Hd]]]]];
      destruct s as [m ? ? ? ? ? ? ? ? ? tm];
      cbn [miningState timers progress accumulatedReward] in *; subst m tm.
    + unfold step, andThen, handle. cbn [miningState timers].
      unfold tick.
      destruct (Z.leb_spec (remainingAt (installTimer now0 0 0) now) 0) as [Hrem | Hrem];
        unfold remainingAt, installTimer, orFullSession in Hrem;
        cbn [endTime startTime remainingTime Z.eqb] in Hrem.
      * right. eval_step. repeat split; try reflexivity; [lia|].
        rewrite progressAt_fresh by lia. apply idealProgress_full. lia.
      * left. eval_step. repeat split; try reflexivity; [lia|].
        apply progressAt_fresh. lia.
    + right. subst. eval_step. repeat split; try reflexivity; [lia | assumption].
  - (* the cooldown interval *)
    destruct Hr as [[Hlast [Hm [Ht Hp]]] | [Hlast [Hm [Ht [Hp Hd]]]]];
      destruct s as [m ? ? ? ? ? ? ? ? ? tm];
      cbn [miningState timers progress accumulatedReward] in *; subst m tm.
    + left. eval_step; repeat split; try reflexivity; assumption.
    + right. subst. eval_step; repeat split; try reflexivity; assumption.
Qed.

Lemma ready_running_state (now0 last : Z) (s : Session) :
  running now0 last s ->
  (last < now0 + 600000 /\ miningState s = mining)
  \/ (now0 + 600000 <= last /\ miningState s = ready).
Proof. intros [[? [? _]] | [? [? _]]]; [left | right]; split; assumption. Qed.

Lemma ready_lastTick_single_bounds (last now : Z) (e : Event) :
  last <= now -> last <= lastTick last [(now, e)] <= now.
Proof. intros H. destruct e; cbn [lastTick]; lia. Qed.

Lemma ready_lastTick_cons (last now : Z) (e : Event) (evs : list (Z * Event)) :
  lastTick last ((now, e) :: evs) = lastTick (lastTick last [(now, e)]) evs.
Proof. destruct e; reflexivity. Qed.

Lemma ready_running_run (now0 : Z) (evs : list (Z * Event)) :
  forall since last s,
    running now0 last s -> now0 <= last -> last <= since ->
    Engine.chronological since evs -> uninterrupted evs ->
    running now0 (lastTick last evs) (run s evs)
    /\ last <= lastTick last evs
    /\ completions s evs
       = (if MiningState_eqb (miningState s) mining
             && MiningState_eqb (miningState (run s evs)) ready
          then 1 else 0)%nat.
Proof.
  induction evs as [|[now e] evs IH]; intros since last s Hr H0 Hs Hc Hu.
  - cbn [lastTick run completions]. split; [exact Hr|]. split; [lia|].
    destruct (ready_running_state _ _ _ Hr) as [[_ ->] | [_ ->]]; reflexivity.
  - destruct Hc as [Hnow Hc]. inversion Hu as [|? ? He Hu']; subst.
    cbn [snd] in He.
    assert (last <= now) as Hln by lia.
    pose proof (ready_running_step now0 last now e s Hr H0 Hln He) as Hr'.
    destruct (ready_lastTick_single_bounds last now e Hln) as [B1 B2].
    destruct (IH now (lastTick last [(now, e)]) (fst (step now e s)) Hr'
                ltac:(lia) B2 Hc Hu') as [Hfin [Hmono Hcount]].
    rewrite ready_lastTick_cons. cbn [run completions].
    split; [exact Hfin|]. split; [lia|].
    rewrite Hcount.
    destruct (ready_running_state _ _ _ Hr) as [[L1 ->] | [L1 ->]];
      destruct (ready_running_state _ _ _ Hr') as [[L2 ->] | [L2 ->]];
      destruct (ready_running_state _ _ _ Hfin) as [[L3 ->] | [L3 ->]];
      try reflexivity; lia.
Qed.

(** The half of C2 about this component. *)
Lemma ready_left_running (s0 : Session) (now0 : Z) (evs : list (Z * Event)) :
  miningState s0 = idle -> globalCooldown s0 <= 0 ->
  Engine.chronological now0 evs -> uninterrupted evs ->
  let s1 := fst (step now0 ClickStart s0) in
  let s := run s1 evs in
  let t := lastTick now0 evs - now0 in
  (progress s == Engine.idealProgress t)%Q
  /\ (forall t', t <= t' <= t + Engine.tickMs ->
        (0 <= Engine.idealProgress t' - progress s)%Q
        /\ (Engine.idealProgress t' - progress s <= Engine.tickWorth)%Q)
  /\ (t < Engine.sessionDurationMs ->
      miningState s = mining /\ completions s1 evs = 0%nat)
  /\ (Engine.sessionDurationMs <= t ->
      miningState s = ready
      /\ (progress s == 100)%Q
      /\ accumulatedReward s = 200%Q
      /\ completions s1 evs = 1%nat).
Proof.
  intros Hidle Hcd Hc Hu s1 s t.
  pose proof (ready_start_running now0 s0 Hidle Hcd) as Hr1. fold s1 in Hr1.
  destruct (ready_running_run now0 evs now0 now0 s1 Hr1 ltac:(lia) ltac:(lia) Hc Hu)
    as [Hfin [Hmono Hcount]].
  fold s in Hfin, Hcount.
  assert (miningState s1 = mining) as Hm1.
  { destruct (ready_running_state _ _ _ Hr1) as [[_ H] | [H _]]; [exact H | lia]. }
  rewrite Hm1 in Hcount. cbn [MiningState_eqb andb] in Hcount.
  assert (progress s == Engine.idealProgress t)%Q as Hprog.
  { destruct Hfin as [[_ [_ [_ Hp]]] | [Hlast [_ [_ [Hp _]]]]]; [exact Hp|].
    rewrite Hp. symmetry. apply idealProgress_full. unfold t. lia. }
  unfold Engine.sessionDurationMs.
  split; [exact Hprog|]. split; [|split].
  - intros t' Ht'. rewrite Hprog. apply idealProgress_tolerance. exact Ht'.
  - intros Ht. destruct Hfin as [[_ [Hm _]] | [Hlast _]]; [|unfold t in Ht; lia].
    split; [exact Hm|]. rewrite Hcount, Hm. reflexivity.
  - intros Ht. destruct Hfin as [[Hlast _] | [_ [Hm [_ [Hp Hd]]]]]; [unfold t in Ht; lia|].
    repeat split; try assumption. rewrite Hcount, Hm. reflexivity.
Qed.

Lemma ready_confirmed_resets (now : Z) (hash address : string) (s : Session) :
  hash <> "" -> address <> "" ->
  miningState (fst (step now (Confirmed hash address) s)) = idle
  /\ progress (fst (step now (Confirmed hash address) s)) = 0%Q
  /\ accumulatedReward (fst (step now (Confirmed hash address) s)) = 0%Q
  /\ pausedProgress (fst (step now (Confirmed hash address) s)) = 0%Q
  /\ pausedReward (fst (step now (Confirmed hash address) s)) = 0%Q
  /\ pausedTimeLeft (fst (step now (Confirmed hash address) s)) = 0
  /\ flat_map (fun o => match o with ReportClaim d => [d] | _ => [] end)
       (snd (step now (Confirmed hash address) s))
     = [{| Schema.Insert.walletAddress := address;
           Schema.Insert.amount := JS.toFixed 6 (accumulatedReward s);
           Schema.Insert.transactionHash := Some hash |}].
Proof.
  intros Hh Ha.
  unfold step, andThen, handle, onConfirmed.
  destruct (String.eqb_spec hash ""); [contradiction|].
  destruct (String.eqb_spec address ""); [contradiction|].
  cbn [orb].
  destruct s as [[] ? ? ? ? ? ? ? ? ? []]; eval_step; repeat split.
Qed.

Lemma ready_pause_step (now : Z) (s : Session) :
  miningState s = mining ->
  step now ClickPause s
  = (setTimers None
       (setShowPauseDialog true
          (setMiningState paused
             (setPausedTimeLeft (timeLeft s)
                (setPausedReward (accumulatedReward s)
                   (setPausedProgress (progress s) s))))), []).
Proof.
  destruct s as [m p tl hr acc pp pr ptl dlg cd tm].
  cbn [miningState]. intros ->. eval_step; reflexivity.
Qed.

Lemma ready_stopAndClaim_step (now : Z) (s : Session) :
  miningState s = paused -> showPauseDialog s = true ->
  step now ClickStopAndClaim s
  = (setTimers None (setMiningState ready (setShowPauseDialog false s)), []).
Proof.
  destruct s as [m p tl hr acc pp pr ptl dlg cd tm].
  cbn [miningState showPauseDialog]. intros -> ->. eval_step; reflexivity.
Qed.

Lemma ready_claim_step (now : Z) (s : Session) :
  miningState s = ready -> step now (ClickClaim true) s = (s, [WriteContract]).
Proof.
  destruct s as [m p tl hr acc pp pr ptl dlg cd tm].
  cbn [miningState]. intros ->. eval_step; reflexivity.
Qed.

(** A mining session that is paused, stopped and claimed reports the
    reward it had when it was paused. *)
Lemma ready_stop_and_claim_reports
  (now1 now2 now3 now4 : Z) (hash address : string) (s : Session) :
  miningState s = mining -> hash <> "" -> address <> "" ->
  reports s [(now1, ClickPause); (now2, ClickStopAndClaim);
             (now3, ClickClaim true); (now4, Confirmed hash address)]
  = [{| Schema.Insert.walletAddress := address;
        Schema.Insert.amount := JS.toFixed 6 (accumulatedReward s);
        Schema.Insert.transactionHash := Some hash |}]
  /\ miningState (run s [(now1, ClickPause); (now2, ClickStopAndClaim);
                         (now3, ClickClaim true); (now4, Confirmed hash address)])
     = idle.
Proof.
  intros Hm Hh Ha.
  cbn [reports run].
  rewrite (ready_pause_step now1 s Hm). cbn [fst snd flat_map app].
  set (s1 := setTimers None _).
  rewrite (ready_stopAndClaim_step now2 s1 eq_refl eq_refl). cbn [fst snd flat_map app].
  set (s2 := setTimers None _).
  rewrite (ready_claim_step now3 s2 eq_refl). cbn [fst snd flat_map app].
  destruct (ready_confirmed_resets now4 hash address s2 Hh Ha)
    as [Hidle [_ [_ [_ [_ [_ Hrep]]]]]].
  destruct (step now4 (Confirmed hash address) s2) as [s3 out3].
  cbn [fst snd] in *. rewrite Hrep, app_nil_r.
  split; [reflexivity | exact Hidle].
Qed.

Lemma ready_reverted_ignored (now : Z) (message : string) (s : Session) :
  step now (Reverted message) s = (s, []).
Proof.
  destruct s as [[] ? ? ? ? ? ? ? ? ? ?]; eval_step; reflexivity.
Qed.

Lemma ready_writeError_surfaced (now : Z) (message : string) (s : Session) :
  step now (WriteError message) s = (s, [Toast true "Claim Failed" message]).
Proof.
  destruct s as [[] ? ? ? ? ? ? ? ? ? ?]; eval_step; reflexivity.
Qed.

End AppReadyFacts.

(** ** The session engine: the claims over both components *)

(** C2.  A session started and left to its intervals shows, after its last
    progress tick at [t] ms from the start, the progress
    [min(100, t / 600000 * 100)], and stays within one tick's worth of the
    ideal progress until the next tick is due.  Before 600000 ms it is still
    mining; once a tick falls at or after 600000 ms it has gone from mining
    to the completed state exactly once, progress is 100 and the reward is
    200, whatever ticks follow.  This holds of both components. *)
Theorem progress_of_uninterrupted_session :
  (forall s0 now0 evs,
     App.miningState s0 = App.idle ->
     App.cpuEnabled s0 || App.gpuEnabled s0 = true ->
     Engine.chronological now0 evs -> AppSpec.uninterrupted evs ->
     let s1 := fst (App.step now0 (App.ClickStart false) s0) in
     let s := App.run s1 evs in
     let t := AppSpec.lastTick now0 evs - now0 in
     (App.progress s == Engine.idealProgress t)%Q
     /\ (forall t', t <= t' <= t + Engine.tickMs ->
           (0 <= Engine.idealProgress t' - App.progress s)%Q
           /\ (Engine.idealProgress t' - App.progress s <= Engine.tickWorth)%Q)
     /\ (t < Engine.sessionDurationMs ->
         App.miningState s = App.mining /\ App.completions s1 evs = 0%nat)
     /\ (Engine.sessionDurationMs <= t ->
         App.miningState s = App.completed
         /\ App.progress s = 100%Q
         /\ App.displayedReward s = 200%Q
         /\ App.completions s1 evs = 1%nat))
  /\ (forall s0 now0 evs,
        AppReady.miningState s0 = AppReady.idle ->
        AppReady.globalCooldown s0 <= 0 ->
        Engine.chronological now0 evs -> AppReadySpec.uninterrupted evs ->
        let s1 := fst (AppReady.step now0 AppReady.ClickStart s0) in
        let s := AppReady.run s1 evs in
        let t := AppReadySpec.lastTick now0 evs - now0 in
        (AppReady.progress s == Engine.idealProgress t)%Q
        /\ (forall t', t <= t' <= t + Engine.tickMs ->
              (0 <= Engine.idealProgress t' - AppReady.progress s)%Q
              /\ (Engine.idealProgress t' - AppReady.progress s <= Engine.tickWorth)%Q)
        /\ (t < Engine.sessionDurationMs ->
            AppReady.miningState s = AppReady.mining
            /\ AppReady.completions s1 evs = 0%nat)
        /\ (Engine.sessionDurationMs <= t ->
            AppReady.miningState s = AppReady.ready
            /\ (AppReady.progress s == 100)%Q
            /\ AppReady.accumulatedReward s = 200%Q
            /\ AppReady.completions s1 evs = 1%nat)).
Proof.
  split.
  - intros s0 now0 evs. apply AppFacts.left_running.
  - intros s0 now0 evs. apply AppReadyFacts.ready_left_running.
Qed.

Lemma progress_of_uninterrupted_session_witness :
  (App.miningState
     (App.run (fst (App.step 1000 (App.ClickStart false) App.initial)) Samples.fullSession)
   = App.completed
   /\ App.displayedReward
        (App.run (fst (App.step 1000 (App.ClickStart false) App.initial)) Samples.fullSession)
      = 200%Q
   /\ App.completions (fst (App.step 1000 (App.ClickStart false) App.initial))
        Samples.fullSession = 1%nat)
  /\ (AppReady.miningState
        (AppReady.run (fst (AppReady.step 1000 AppReady.ClickStart AppReady.initial))
           Samples.fullSessionReady)
      = AppReady.ready
      /\ AppReady.accumulatedReward
           (AppReady.run (fst (AppReady.step 1000 AppReady.ClickStart AppReady.initial))
              Samples.fullSessionReady)
         = 200%Q).
Proof.
  destruct progress_of_uninterrupted_session as [HA HR].
  split.
  - destruct (HA App.initial 1000 Samples.fullSession) as [_ [_ [_ Hdone]]].
    + reflexivity.
    + reflexivity.
    + unfold Samples.fullSession. cbn [Engine.chronological]. lia.
    + repeat constructor.
    + destruct Hdone as [Hm [_ [Hd Hc]]].
      * vm_compute. discriminate.
      * repeat split; assumption.
  - destruct (HR AppReady.initial 1000 Samples.fullSessionReady) as [_ [_ [_ Hdone]]].
    + reflexivity.
    + vm_compute. discriminate.
    + unfold Samples.fullSessionReady. cbn [Engine.chronological]. lia.
    + repeat constructor.
    + destruct Hdone as [Hm [_ [Hd _]]].
      * vm_compute. discriminate.
      * split; assumption.
Defined.

Lemma pause_then_resume_witness :
  let s := App.run App.initial Samples.oneMinute in
  let sr := fst (App.step 95000 App.ClickContinue (fst (App.step 61040 App.ClickPause s))) in
  App.timeLeft sr = 540000
  /\ (App.progress (fst (App.step 95100 (App.TimerFires (1 # 2)) sr))
      <= App.progress s + Engine.tickWorth)%Q.
Proof.
  intros s sr.
  destruct (AppFacts.pause_then_resume_keeps_progress s 61040 95000)
    as [_ [_ [_ [Htl [_ [_ Hdrift]]]]]].
  - exists Samples.oneMinute. reflexivity.
  - vm_compute. reflexivity.
  - split.
    + fold sr in Htl. rewrite Htl. vm_compute. reflexivity.
    + apply (Hdrift 95100 (1 # 2)). unfold Engine.tickMs. lia.
Defined.

(** C4, as the code has it.  Each time the confirmation effect runs for a
    confirmed claim transaction (a hash and an address are set), whatever
    state the session is in, both components reset the session to idle,
    with progress, reward and pause snapshots back to their initial values,
    and report an entry with that hash and address to the reconciler.  The
    component without Stop & Claim reports the fixed amount ["200.000000"];
    the variant with Stop & Claim reports the accumulated reward as it
    stands, with six decimals: ["200.000000"] when the reward is 200, and
    the reward at the pause when a mining session is paused, stopped and
    claimed. *)
Theorem confirmed_claim_resets_and_reports :
  (forall now hash address s,
     hash <> "" -> address <> "" ->
     App.miningState (fst (App.step now (App.Confirmed hash address) s)) = App.idle
     /\ App.progress (fst (App.step now (App.Confirmed hash address) s)) = 0%Q
     /\ App.displayedReward (fst (App.step now (App.Confirmed hash address) s)) = 0%Q
     /\ App.pausedProgress (fst (App.step now (App.Confirmed hash address) s)) = 0%Q
     /\ App.pausedTimeLeft (fst (App.step now (App.Confirmed hash address) s)) = 0
     /\ flat_map (fun o => match o with Client.ReportClaim d => [d] | _ => [] end)
          (snd (App.step now (App.Confirmed hash address) s))
        = [{| Schema.Insert.walletAddress := address;
              Schema.Insert.amount := "200.000000";
              Schema.Insert.transactionHash := Some hash |}])
  /\ (forall now hash address s,
        hash <> "" -> address <> "" ->
        AppReady.miningState (fst (AppReady.step now (AppReady.Confirmed hash address) s))
        = AppReady.idle
        /\ AppReady.progress (fst (AppReady.step now (AppReady.Confirmed hash address) s))
           = 0%Q
        /\ AppReady.accumulatedReward
             (fst (AppReady.step now (AppReady.Confirmed hash address) s)) = 0%Q
        /\ AppReady.pausedProgress
             (fst (AppReady.step now (AppReady.Confirmed hash address) s)) = 0%Q
        /\ AppReady.pausedReward
             (fst (AppReady.step now (AppReady.Confirmed hash address) s)) = 0%Q
        /\ AppReady.pausedTimeLeft
             (fst (AppReady.step now (AppReady.Confirmed hash address) s)) = 0
        /\ flat_map (fun o => match o with Client.ReportClaim d => [d] | _ => [] end)
             (snd (AppReady.step now (AppReady.Confirmed hash address) s))
           = [{| Schema.Insert.walletAddress := address;
                 Schema.Insert.amount := JS.toFixed 6 (AppReady.accumulatedReward s);
                 Schema.Insert.transactionHash := Some hash |}]
        /\ (AppReady.accumulatedReward s = 200%Q ->
            JS.toFixed 6 (AppReady.accumulatedReward s) = "200.000000"))
  /\ (forall now1 now2 now3 now4 hash address s,
        AppReady.miningState s = AppReady.mining ->
        hash <> "" -> address <> "" ->
        AppReady.reports s
          [(now1, AppReady.ClickPause); (now2, AppReady.ClickStopAndClaim);
           (now3, AppReady.ClickClaim true); (now4, AppReady.Confirmed hash address)]
        = [{| Schema.Insert.walletAddress := address;
              Schema.Insert.amount := JS.toFixed 6 (AppReady.accumulatedReward s);
              Schema.Insert.transactionHash := Some hash |}]
        /\ AppReady.miningState
             (AppReady.run s
                [(now1, AppReady.ClickPause); (now2, AppReady.ClickStopAndClaim);
                 (now3, AppReady.ClickClaim true); (now4, AppReady.Confirmed hash address)])
           = AppReady.idle).
Proof.
  split; [|split].
  - intros now hash address s. apply AppFacts.confirmed_resets.
  - intros now hash address s Hh Ha.
    destruct (AppReadyFacts.ready_confirmed_resets now hash address s Hh Ha)
      as [H1 [H2 [H3 [H4 [H5 [H6 H7]]]]]].
    repeat split; try assumption.
    intros ->. vm_compute. reflexivity.
  - intros now1 now2 now3 now4 hash address s.
    apply AppReadyFacts.ready_stop_and_claim_reports.
Qed.

Lemma confirmed_claim_witness :
  flat_map (fun o => match o with Client.ReportClaim d => [d] | _ => [] end)
    (snd (App.step 700000 (App.Confirmed "0xabc" "0xA1")
            (App.run (fst (App.step 1000 (App.ClickStart false) App.initial))
               Samples.fullSession)))
  = [{| Schema.Insert.walletAddress := "0xA1";
        Schema.Insert.amount := "200.000000";
        Schema.Insert.transactionHash := Some "0xabc" |}]
  /\ AppReady.reports (AppReady.run AppReady.initial (firstn 2 Samples.stopAndClaimRun))
       [(301050, AppReady.ClickPause); (305000, AppReady.ClickStopAndClaim);
        (306000, AppReady.ClickClaim true); (320000, AppReady.Confirmed "0xabc" "0xA1")]
     = [{| Schema.Insert.walletAddress := "0xA1";
           Schema.Insert.amount := "100.000000";
           Schema.Insert.transactionHash := Some "0xabc" |}].
Proof.
  destruct confirmed_claim_resets_and_reports as [HA [_ HS]].
  split.
  - apply HA; discriminate.
  - destruct (HS 301050 305000 306000 320000 "0xabc" "0xA1"
                (AppReady.run AppReady.initial (firstn 2 Samples.stopAndClaimRun)))
      as [Hr _].
    + vm_compute. reflexivity.
    + discriminate.
    + discriminate.
    + rewrite Hr. vm_compute. reflexivity.
Defined.

(** C4 as stated fails in the variant with Stop & Claim: a session paused
    half way, stopped and claimed reports a partial amount. *)
Lemma stop_and_claim_reports_partial_amount :
  exists data,
    AppReady.reports AppReady.initial Samples.stopAndClaimRun = [data]
    /\ Schema.Insert.amount data = "100.000000"
    /\ Schema.Insert.amount data <> "200.000000".
Proof.
  eexists. split; [vm_compute; reflexivity|].
  split; [reflexivity | discriminate].
Qed.

(** The part of C8 the code keeps: when the claim transaction cannot be
    sent (the error of [useWriteContract]), both components leave the
    session exactly as it was, so a completed session stays completed with
    its progress and reward, and show the error message in a destructive
    toast. *)
Theorem failed_claim_keeps_session :
  (forall now message s,
     App.step now (App.WriteError message) s
     = (s, [Client.Toast true "Claim Failed" message]))
  /\ (forall now message s,
        AppReady.step now (AppReady.WriteError message) s
        = (s, [Client.Toast true "Claim Failed" message])).
Proof.
  split.
  - apply AppFacts.writeError_surfaced.
  - apply AppReadyFacts.ready_writeError_surfaced.
Qed.

(** C8, where the code departs from it.  A claim transaction that is sent
    and then reverts is reported by the error of
    [useWaitForTransactionReceipt], which neither component reads: the
    session stays exactly as it was, so a completed session stays completed
    and the claim can be sent again, but no toast or other message is
    produced.  So it is for the completed session of the sample run: the
    claim button submits the transaction, and its reverting shows
    nothing. *)
Theorem reverted_claim_shows_no_error :
  (forall now message s, App.step now (App.Reverted message) s = (s, []))
  /\ (forall now message s, AppReady.step now (AppReady.Reverted message) s = (s, []))
  /\ App.miningState
       (App.run App.initial ((1000, App.ClickStart false) :: Samples.fullSession))
     = App.completed
  /\ App.step 700000 (App.ClickClaim true)
       (App.run App.initial ((1000, App.ClickStart false) :: Samples.fullSession))
     = (App.run App.initial ((1000, App.ClickStart false) :: Samples.fullSession),
        [Client.WriteContract])
  /\ App.step 710000 (App.Reverted "execution reverted")
       (App.run App.initial ((1000, App.ClickStart false) :: Samples.fullSession))
     = (App.run App.initial ((1000, App.ClickStart false) :: Samples.fullSession), []).
Proof.
  split; [apply AppFacts.reverted_ignored|].
  split; [apply AppReadyFacts.ready_reverted_ignored|].
  split; [vm_compute; reflexivity|].
  split; [apply AppFacts.claim_submits; vm_compute; reflexivity|].
  apply AppFacts.reverted_ignored.
Qed.

Lemma share_only_after_block_witness :
  App.canFindShares (fst (App.step 900000 (App.ClickStart false) App.initial)) = false
  /\ AppSpec.shareAfterBlock (App.logStream App.initial [] Samples.oneMinute).
Proof.
  destruct AppFacts.share_only_after_block as [Hstream [Hstart _]].
  split.
  - apply Hstart. reflexivity.
  - apply Hstream.
Defined.

Lemma displayed_reward_witness :
  App.displayedReward
    (fst (App.tick (Client.installTimer 1000 0 0) (100, 200)%Q 601000 (1 # 2) App.initial))
  = 200%Q
  /\ (App.displayedReward (App.run App.initial Samples.oneMinute) <= 200)%Q.
Proof.
  destruct AppFacts.displayed_reward_never_exceeds_200 as [Hrun [_ [_ [Hdone _]]]].
  split.
  - apply Hdone. vm_compute. discriminate.
  - apply Hrun.
Defined.

(** ** The components on sample runs *)

Example oneMinute_progress :
  (App.progress (App.run App.initial Samples.oneMinute) == 10)%Q
  /\ App.timeLeft (App.run App.initial Samples.oneMinute) = 540000
  /\ App.miningState (App.run App.initial Samples.oneMinute) = App.mining.
Proof. vm_compute. repeat split. Qed.

Example oneMinute_stream :
  map Client.type
    (App.logStream App.initial []
       (Samples.oneMinute ++ [(2600, App.LogTimerFires (3 # 10) "cafebabe" "BEEF" 150)]))
  = [Client.info; Client.info; Client.info; Client.block; Client.share].
Proof. vm_compute. reflexivity. Qed.

Example share_draw_before_any_block :
  map Client.type
    (App.logStream App.initial []
       [(1000, App.ClickStart false);
        (1800, App.LogTimerFires (3 # 10) "cafebabe" "BEEF" 150)])
  = [Client.info; Client.info; Client.info].
Proof. vm_compute. reflexivity. Qed.

Example fullSession_share_reward :
  App.displayedReward
    (App.run App.initial ((1000, App.ClickStart false) :: firstn 3 Samples.fullSession))
  = Qmin 200 (0 + App.increment).
Proof. vm_compute. reflexivity. Qed.

(** The confirmation effect is not tied to one run per transaction: when it
    runs again, the variant reports the same hash a second time, with the
    reward of the session then running, and resets that session. *)
Example confirmation_effect_runs_again :
  map (fun d => (Schema.Insert.transactionHash d, Schema.Insert.amount d))
    (AppReady.reports AppReady.initial MoreSamples.switchedAccount)
  = [(Some "0xabc", "100.000000"); (Some "0xabc", "20.000000")]
  /\ AppReady.miningState (AppReady.run AppReady.initial MoreSamples.switchedAccount)
     = AppReady.idle.
Proof. vm_compute. split; reflexivity. Qed.

(** A session resumed with a stale time left ends before its progress
    reaches 100: the completing tick sets the reward to 200 beside a
    progress of 50. *)
Example completion_after_stale_resume :
  AppReady.miningState (AppReady.run AppReady.initial MoreSamples.staleResume)
  = AppReady.ready
  /\ Qeq (AppReady.progress (AppReady.run AppReady.initial MoreSamples.staleResume)) 50
  /\ AppReady.accumulatedReward (AppReady.run AppReady.initial MoreSamples.staleResume)
     = 200%Q.
Proof. vm_compute. repeat split. Qed.

Example stopAndClaimRun_resets :
  AppReady.miningState (AppReady.run AppReady.initial Samples.stopAndClaimRun)
  = AppReady.idle.
Proof. vm_compute. reflexivity. Qed.

Example local_listing_is_newest_first :
  Storage.getClaimHistory 50 Samples.store = [Samples.localClaim; Samples.olderClaim].
Proof. vm_compute. reflexivity. Qed.

(** ** More on the storage *)

(** X1.  Listing the claims of a wallet does not depend on the letter case
    of the address in the request: two spellings equal up to case give the
    same list. *)
Lemma getClaimHistoryByWallet_ignores_case (w w' : string) (st : Storage.MemStorage) :
  Spec.sameIgnoringCase w w' ->
  Storage.getClaimHistoryByWallet w st = Storage.getClaimHistoryByWallet w' st.
Proof.
  intros H. apply toLowerCase_same in H.
  unfold Storage.getClaimHistoryByWallet. rewrite H. reflexivity.
Qed.

Lemma insertBy_filter_instant (t : Z) (x : Schema.ClaimHistory) (l : list Schema.ClaimHistory) :
  StronglySorted Spec.newestFirstOrder l ->
  filter (fun c => Schema.claimedAt c =? t) (Storage.insertBy Storage.newestFirst x l)
  = filter (fun c => Schema.claimedAt c =? t) (x :: l).
Proof.
  induction 1 as [|y l Hs IH Hy]; [reflexivity|].
  cbn [Storage.insertBy]. unfold Storage.newestFirst at 1.
  destruct (Z.leb_spec (Schema.claimedAt y - Schema.claimedAt x) 0) as [Hle | Hgt];
    [reflexivity|].
  cbn [filter] in *.
  destruct (Z.eqb_spec (Schema.claimedAt y) t) as [Ey | Ny];
    destruct (Z.eqb_spec (Schema.claimedAt x) t) as [Ex | Nx];
    rewrite IH; try reflexivity.
  lia.
Qed.

(** X2.  The sort is stable: the entries claimed at one instant stay in their
    stored order. *)
Theorem sortBy_newestFirst_stable (t : Z) (l : list Schema.ClaimHistory) :
  filter (fun c => Schema.claimedAt c =? t) (Storage.sortBy Storage.newestFirst l)
  = filter (fun c => Schema.claimedAt c =? t) l.
Proof.
  induction l as [|x l IH]; [reflexivity|].
  cbn [Storage.sortBy].
  rewrite insertBy_filter_instant by apply sortBy_newestFirst.
  cbn [filter]. rewrite IH. reflexivity.
Qed.


Lemma Map_set_present_length {V : Type} (k : string) (v : V) (m : list (string * V)) :
  Storage.Map_has k m = true ->
  List.length (Storage.Map_set k v m) = List.length m.
Proof.
  induction m as [|[k0 v0] m IH]; cbn [Storage.Map_has existsb Storage.Map_set fst];
    intros H; [discriminate|].
  destruct (k =? k0)%string; [reflexivity|].
  cbn [orb] in H. cbn [List.length]. f_equal. apply IH. exact H.
Qed.



Lemma firstn_all_In {A : Type} (n : nat) (l : list A) (x : A) :
  (List.length l <= n)%nat -> In x l -> In x (firstn n l).
Proof. intros H Hin. rewrite firstn_all2 by exact H. exact Hin. Qed.

(** X4.  A claim just stored is in the fallback listing of
    [GET /api/claim-history] when the feed fails, as long as the storage
    held fewer than 50 entries before it. *)
Theorem stored_claim_in_fallback (uuid : string) (now : Z)
  (insertClaim : Schema.Insert.InsertClaimHistory) (st : Storage.MemStorage)
  (feed : Routes.FetchOutcome) :
  (List.length (Storage.claimHistory st) < 50)%nat ->
  Spec.feedFails feed ->
  In (snd (Storage.createClaimHistory uuid now insertClaim st))
     (Routes.json (Routes.getClaimHistoryRoute feed
                     (fst (Storage.createClaimHistory uuid now insertClaim st)))).
Proof.
  intros Hlen Hfail.
  cbn [Storage.createClaimHistory fst snd].
  unfold Routes.getClaimHistoryRoute, Routes.claimHistoryTry.
  destruct (fetchFeed_fails feed Hfail) as [m ->]. cbn [bind Routes.json].
  unfold Storage.getClaimHistory. cbn [Storage.claimHistory].
  apply firstn_all_In.
  - rewrite <- (Permutation_length (sortBy_perm _ _)).
    unfold Storage.Map_values. rewrite length_map.
    destruct (Storage.Map_has uuid (Storage.claimHistory st)) eqn:E.
    + rewrite (Map_set_present_length _ _ _ E). lia.
    + rewrite (Map_set_fresh _ _ _ E), length_app. cbn [List.length]. lia.
  - eapply Permutation_in; [apply sortBy_perm|]. apply Map_set_In.
Qed.

Lemma stored_claim_in_fallback_witness :
  In (snd (Storage.createClaimHistory "9b2f-new" 1800000000000 Samples.report Samples.store))
     (Routes.json (Routes.getClaimHistoryRoute (Routes.FetchRejected "ECONNREFUSED")
                     (fst (Storage.createClaimHistory "9b2f-new" 1800000000000
                             Samples.report Samples.store)))).
Proof.
  apply stored_claim_in_fallback.
  - cbn [Samples.store Storage.claimHistory List.length]. lia.
  - exact I.
Defined.

(** ** More on the feed handlers *)

Lemma toFixed_Qeq (f : nat) (x y : Q) : (x == y)%Q -> JS.toFixed f x = JS.toFixed f y.
Proof.
  intros H. unfold JS.toFixed.
  assert (Qfloor (Qabs x * inject_Z (10 ^ Z.of_nat f) + (1 # 2))
          = Qfloor (Qabs y * inject_Z (10 ^ Z.of_nat f) + (1 # 2))) as ->.
  { apply Qfloor_comp. rewrite H. reflexivity. }
  destruct (Qlt_le_dec x 0) as [Hx | Hx], (Qlt_le_dec y 0) as [Hy | Hy];
    try reflexivity; exfalso; rewrite H in Hx; lra.
Qed.

Lemma reduceSum_six_decimals (claims : list Routes.ArcscanTokenTransfer) :
  Forall (fun tx => Spec.countsAsClaim tx
                    /\ JS.parseInt (Routes.tokenDecimalOr6 tx) = Some 6) claims ->
  forall a : Q,
  exists total,
    Routes.reduceSum (Some a) claims = Return (Some total)
    /\ (total == a + inject_Z (200 * Z.of_nat (List.length claims)))%Q.
Proof.
  induction 1 as [|tx claims [Htx Hd] _ IH]; intros a.
  - exists a. split; [reflexivity|]. cbn [List.length Z.of_nat].
    change (inject_Z (200 * 0)) with 0%Q. lra.
  - cbn [Routes.reduceSum]. rewrite (scaledValue_counted tx Htx), Hd.
    cbn [bind option_map].
    destruct (IH (a + inject_Z (Spec.fixedClaimAmount * 10 ^ Spec.tokenDecimals)
                     / Qpower (10 # 1) 6)%Q) as [total [Hr Ht]].
    exists total. split; [exact Hr|].
    rewrite Ht. cbn [List.length]. rewrite Nat2Z.inj_succ.
    replace (200 * Z.succ (Z.of_nat (List.length claims)))
      with (200 + 200 * Z.of_nat (List.length claims)) by lia.
    rewrite inject_Z_plus.
    assert (inject_Z (Spec.fixedClaimAmount * 10 ^ Spec.tokenDecimals) / Qpower (10 # 1) 6
            == inject_Z 200)%Q as -> by reflexivity.
    lra.
Qed.

Lemma wallet_listing_case_witness :
  Storage.getClaimHistoryByWallet "0x00000000000000000000000000000000000000a1" Samples.store
  = Storage.getClaimHistoryByWallet "0X00000000000000000000000000000000000000A1" Samples.store.
Proof.
  apply getClaimHistoryByWallet_ignores_case.
  apply toLowerCase_same. reflexivity.
Defined.


Lemma guardedResult_feedOf (txs : list Routes.ArcscanTokenTransfer) :
  Routes.guardedResult {| Routes.status := "1"; Routes.result := Some txs |} = Some txs.
Proof. reflexivity. Qed.

Lemma Forall_filter_claims (P : Routes.ArcscanTokenTransfer -> Prop)
  (txs : list Routes.ArcscanTokenTransfer) :
  (forall tx, In tx txs -> Spec.countsAsClaim tx -> P tx) ->
  Forall (fun tx => Spec.countsAsClaim tx /\ P tx) (filter Routes.claimFilter txs).
Proof.
  intros H. apply Forall_forall. intros tx Hin.
  apply filter_In in Hin. destruct Hin as [Hin Hf].
  apply claimFilter_countsAsClaim in Hf. split; [exact Hf | apply H; assumption].
Qed.

(** X5.  When every counted record carries six token decimals, the total of
    [GET /api/total-claimed] is 200 times the count, printed with two
    decimals; with no counted record it is ["0.00"]. *)
Theorem total_is_200_per_claim (txs : list Routes.ArcscanTokenTransfer) :
  (forall tx, In tx txs -> Spec.countsAsClaim tx ->
              JS.parseInt (Routes.tokenDecimalOr6 tx) = Some 6) ->
  let answer := Routes.json (Routes.getTotalClaimedRoute (Spec.feedOf txs)) in
  Routes.totalClaimed answer
  = JS.toFixed 2 (inject_Z (200 * Z.of_nat (Routes.claimCount answer)))
  /\ (Routes.claimCount answer = 0%nat -> Routes.totalClaimed answer = "0.00").
Proof.
  intros H answer. subst answer.
  pose proof (Forall_filter_claims _ txs H) as Hall.
  destruct (reduceSum_six_decimals _ Hall 0%Q) as [total [Hr Ht]].
  unfold Routes.getTotalClaimedRoute, Routes.totalClaimedTry, Spec.feedOf.
  cbn [Routes.fetchFeed negb bind]. rewrite guardedResult_feedOf.
  rewrite Hr. cbn [bind Routes.json Routes.totalClaimed Routes.claimCount JS.toFixedNumber].
  assert (JS.toFixed 2 total
          = JS.toFixed 2 (inject_Z (200 * Z.of_nat (List.length (filter Routes.claimFilter txs)))))
    as E by (apply toFixed_Qeq; rewrite Ht; lra).
  split; [exact E|].
  intros H0. rewrite E, H0. vm_compute. reflexivity.
Qed.

Lemma total_is_200_per_claim_witness :
  Routes.totalClaimed
    (Routes.json (Routes.getTotalClaimedRoute (Spec.feedOf (Samples.feed ++ Samples.feed))))
  = "400.00".
Proof.
  destruct (total_is_200_per_claim (Samples.feed ++ Samples.feed)) as [Ht _].
  - intros tx Hin _.
    cbn [Samples.feed app In] in Hin.
    repeat (destruct Hin as [<- | Hin]; [vm_compute; reflexivity|]). contradiction.
  - rewrite Ht. vm_compute. reflexivity.
Defined.

Lemma reduceSum_NaN (claims : list Routes.ArcscanTokenTransfer) :
  Forall Spec.countsAsClaim claims ->
  Routes.reduceSum None claims = Return None.
Proof.
  induction 1 as [|tx claims Htx _ IH]; [reflexivity|].
  cbn [Routes.reduceSum]. rewrite (scaledValue_counted tx Htx). cbn [bind].
  exact IH.
Qed.

Lemma reduceSum_not_a_number (claims : list Routes.ArcscanTokenTransfer) :
  Forall Spec.countsAsClaim claims ->
  Exists (fun tx => JS.parseInt (Routes.tokenDecimalOr6 tx) = None) claims ->
  forall sum, Routes.reduceSum sum claims = Return None.
Proof.
  intros Hall Hex. revert Hall.
  induction Hex as [tx claims Hbad | tx claims Hex IH]; intros Hall sum;
    inversion Hall as [|? ? Htx Hrest]; subst;
    cbn [Routes.reduceSum]; rewrite (scaledValue_counted tx Htx); cbn [bind].
  - rewrite Hbad. cbn [option_map].
    destruct sum; apply reduceSum_NaN; exact Hrest.
  - apply IH. exact Hrest.
Qed.

(** X6.  One counted record whose token decimals are not a number turns the
    total of [GET /api/total-claimed] into ["NaN"]; the count still counts
    it. *)
Theorem total_is_NaN_on_bad_decimals (txs : list Routes.ArcscanTokenTransfer)
  (bad : Routes.ArcscanTokenTransfer) :
  In bad txs -> Spec.countsAsClaim bad ->
  JS.parseInt (Routes.tokenDecimalOr6 bad) = None ->
  let answer := Routes.json (Routes.getTotalClaimedRoute (Spec.feedOf txs)) in
  Routes.totalClaimed answer = "NaN"
  /\ (1 <= Routes.claimCount answer)%nat.
Proof.
  intros Hin Hc Hbad answer. subst answer.
  assert (In bad (filter Routes.claimFilter txs)) as Hin'
    by (apply filter_In; split; [exact Hin | apply claimFilter_countsAsClaim; exact Hc]).
  pose proof (Selects_counts _ _ (filter_Selects txs)) as Hall.
  assert (Exists (fun tx => JS.parseInt (Routes.tokenDecimalOr6 tx) = None)
            (filter Routes.claimFilter txs)) as Hex
    by (apply Exists_exists; exists bad; split; assumption).
  unfold Routes.getTotalClaimedRoute, Routes.totalClaimedTry, Spec.feedOf.
  cbn [Routes.fetchFeed negb bind]. rewrite guardedResult_feedOf.
  rewrite (reduceSum_not_a_number _ Hall Hex).
  cbn [bind Routes.json Routes.totalClaimed Routes.claimCount JS.toFixedNumber].
  split; [reflexivity|].
  destruct (filter Routes.claimFilter txs); [contradiction | cbn [List.length]; lia].
Qed.

Lemma total_is_NaN_witness :
  Routes.totalClaimed
    (Routes.json (Routes.getTotalClaimedRoute
                    (Spec.feedOf [Samples.paid; MoreSamples.withDecimals "six" Samples.paid])))
  = "NaN".
Proof.
  apply (total_is_NaN_on_bad_decimals _ (MoreSamples.withDecimals "six" Samples.paid)).
  - right. left. reflexivity.
  - apply claimFilter_countsAsClaim. vm_compute. reflexivity.
  - vm_compute. reflexivity.
Defined.

(** X7.  One counted record whose time stamp is not a number sends the whole
    answer of [GET /api/claim-history] to the stored entries: no entry of
    the feed is listed. *)
Theorem bad_timestamp_falls_back (txs : list Routes.ArcscanTokenTransfer)
  (bad : Routes.ArcscanTokenTransfer) (st : Storage.MemStorage) :
  In bad txs -> Spec.countsAsClaim bad -> JS.parseInt (Routes.timeStamp bad) = None ->
  Routes.json (Routes.getClaimHistoryRoute (Spec.feedOf txs) st)
  = Storage.getClaimHistory 50 st.
Proof.
  intros Hin Hc Hbad.
  assert (In bad (filter Routes.claimFilter txs)) as Hin'
    by (apply filter_In; split; [exact Hin | apply claimFilter_countsAsClaim; exact Hc]).
  assert (exists m, Routes.toClaim bad = Throw m) as [m Hm].
  { unfold Routes.toClaim. rewrite (scaledValue_counted bad Hc), Hbad.
    cbn [bind option_map JS.Date_toISOString]. eexists. reflexivity. }
  destruct (mapM_throws _ _ _ _ Hin' Hm) as [m' Hthrow].
  unfold Routes.getClaimHistoryRoute, Routes.claimHistoryTry, Spec.feedOf.
  cbn [Routes.fetchFeed negb bind]. rewrite guardedResult_feedOf.
  rewrite Hthrow. reflexivity.
Qed.

Lemma bad_timestamp_witness :
  Routes.json (Routes.getClaimHistoryRoute
                 (Spec.feedOf [Samples.paid; MoreSamples.withTimeStamp "soon" Samples.paid])
                 Samples.store)
  = [Samples.localClaim; Samples.olderClaim].
Proof.
  rewrite (bad_timestamp_falls_back _ (MoreSamples.withTimeStamp "soon" Samples.paid)).
  - vm_compute. reflexivity.
  - right. left. reflexivity.
  - apply claimFilter_countsAsClaim. vm_compute. reflexivity.
  - vm_compute. reflexivity.
Defined.

(** ** More on the session component *)

Module AppMore.
Import Client App AppSpec AppInv.

Ltac unfold_state :=
  cbv [handle perform andThen set emit skip addLog tick logTick
       startMining pauseMining continueMining openStopWarning confirmStop cancelStopWarning
       handleClaim onConfirmed onWriteError onReverted
       setMiningState setProgress setTimeLeft setHashRate setPausedProgress setPausedTimeLeft
       setShowStopWarning setCpuEnabled setGpuEnabled setMiningLogs setBlocksFound setSharesFound
       setCanFindShares setDisplayedReward setLogIdRef setTimers
       miningState progress timeLeft hashRate pausedProgress pausedTimeLeft showStopWarning
       cpuEnabled gpuEnabled miningLogs blocksFound sharesFound canFindShares displayedReward
       logIdRef timers fst snd negb andb orb].

Ltac split_ifs :=
  repeat match goal with
         | |- context [if ?c then _ else _] => destruct c eqn:?
         | |- context [match ?c with Some _ => _ | None => _ end] => destruct c eqn:?
         end.

Ltac same_deps :=
  cbv [depsChanged MiningState_eqb miningState pausedProgress pausedTimeLeft
       cpuEnabled gpuEnabled];
  rewrite ?Qeq_bool_refl, ?Z.eqb_refl, ?Bool.eqb_reflx;
  cbv beta iota delta [negb orb andb].

(** Evaluates the state after a step, keeping list appends folded. *)
Ltac eval_state :=
  unfold step;
  repeat (unfold_state; split_ifs);
  unfold miningEffect; same_deps;
  repeat (unfold_state; split_ifs).

(** Splits on the event and the state, dropping the cases the timer
    invariant excludes. *)
Ltac live_cases e m tm Hsome Hnone :=
  destruct e; destruct m;
  try (destruct tm as [?t|]; [destruct (Hsome _ eq_refl) as [?Hm _]; discriminate|]);
  try (destruct tm as [?t|]; [|contradiction (Hnone eq_refl); reflexivity]).

Lemma window_nil (lastId : Z) : window [] lastId.
Proof. repeat split; [cbn; lia | constructor | constructor]. Qed.

Lemma sliceLast_length {A : Type} (n : nat) (l : list A) :
  (List.length (sliceLast n l) <= n)%nat.
Proof. unfold sliceLast. rewrite length_skipn. lia. Qed.

Lemma skipn_sorted (n : nat) (l : list Z) :
  StronglySorted Z.lt l -> StronglySorted Z.lt (skipn n l).
Proof.
  revert l. induction n as [|n IH]; intros l H; [exact H|].
  destruct l as [|x l]; [exact H|]. cbn [skipn]. apply IH.
  inversion H; assumption.
Qed.

Lemma skipn_Forall {A : Type} (P : A -> Prop) (n : nat) (l : list A) :
  Forall P l -> Forall P (skipn n l).
Proof.
  intros H. apply Forall_forall. intros x Hin.
  rewrite Forall_forall in H. apply H.
  rewrite <- (firstn_skipn n l). apply in_or_app. right. exact Hin.
Qed.

Lemma sorted_snoc (l : list Z) (x : Z) :
  StronglySorted Z.lt l -> Forall (fun y => y < x) l -> StronglySorted Z.lt (l ++ [x]).
Proof.
  induction 1 as [|y l Hs IH Hy]; intros Hx; cbn [app].
  - constructor; constructor.
  - inversion Hx as [|? ? Hyx Hlx]; subst.
    constructor; [apply IH; exact Hlx|].
    apply Forall_app. split; [exact Hy | constructor; [exact Hyx | constructor]].
Qed.

Lemma window_add (logs : list MiningLog) (lastId now : Z) (ty : LogType) (msg : string) :
  window logs lastId ->
  window (sliceLast 50 logs ++ [{| id := lastId + 1; timestamp := now;
                                   type := ty; message := msg |}])
         (lastId + 1).
Proof.
  intros [Hlen [Hs Hb]]. unfold window. split; [|split].
  - rewrite length_app. pose proof (sliceLast_length 50 logs). cbn [List.length]. lia.
  - rewrite map_app. cbn [map id]. apply sorted_snoc.
    + unfold sliceLast. rewrite <- skipn_map. apply skipn_sorted. exact Hs.
    + apply Forall_map. unfold sliceLast. apply skipn_Forall.
      eapply Forall_impl; [|exact Hb]. cbn. intros l Hl. lia.
  - apply Forall_app. split.
    + unfold sliceLast. apply skipn_Forall.
      eapply Forall_impl; [|exact Hb]. cbn. intros l Hl. lia.
    + constructor; [cbn [id]; lia | constructor].
Qed.

Lemma logsWindow_step (now : Z) (e : Event) (s : Session) :
  logsWindow s -> logsWindow (fst (step now e s)).
Proof.
  unfold logsWindow.
  destruct s as [m p tl hr pp ptl w cpu gpu logs bf sf cfs dr lid tm].
  cbn [miningLogs logIdRef]. intros H.
  destruct e; destruct m; eval_state;
    repeat apply window_add; first [exact H | apply window_nil].
Qed.

Lemma countersAgree_step (now : Z) (e : Event) (s : Session) :
  countersAgree s -> countersAgree (fst (step now e s)).
Proof.
  unfold countersAgree.
  destruct s as [m p tl hr pp ptl w cpu gpu logs bf sf cfs dr lid tm].
  cbn [blocksFound sharesFound canFindShares].
  intros [Hb [Hs [Hflag Hshare]]].
  destruct e; destruct m; eval_state;
    repeat split; intros; try discriminate; try assumption; try lia;
    try (apply Hflag; assumption); try (apply Hshare; assumption);
    try (apply Hflag; reflexivity).
Qed.

Lemma share_increment (k : Z) (r : Q) :
  0 <= k ->
  r = rewardAfter (Z.to_nat k) ->
  Qmin 200 (r + increment) = rewardAfter (Z.to_nat (k + 1)).
Proof.
  intros Hk ->.
  replace (Z.to_nat (k + 1)) with (S (Z.to_nat k)) by lia.
  reflexivity.
Qed.

Lemma rewardFromShares_step (now : Z) (e : Event) (s : Session) :
  consistent s -> 0 <= sharesFound s ->
  rewardFromShares s -> rewardFromShares (fst (step now e s)).
Proof.
  unfold consistent, rewardFromShares.
  destruct s as [m p tl hr pp ptl w cpu gpu logs bf sf cfs dr lid tm].
  cbn [miningState progress timeLeft pausedProgress pausedTimeLeft timers
       displayedReward sharesFound].
  intros [_ [_ [_ [Hsome Hnone]]]] Hsf [Hdone Hlive].
  live_cases e m tm Hsome Hnone; eval_state.
  all: split; intros Hst; try discriminate; try reflexivity;
    try (contradiction Hst; reflexivity);
    try (apply Hdone; reflexivity);
    try (apply Hlive; discriminate);
    try (apply share_increment; [exact Hsf | apply Hlive; discriminate]).
Qed.

Lemma settled_step (now : Z) (e : Event) (s : Session) :
  consistent s -> settled s -> settled (fst (step now e s)).
Proof.
  unfold consistent, settled.
  destruct s as [m p tl hr pp ptl w cpu gpu logs bf sf cfs dr lid tm].
  cbn [miningState progress timeLeft pausedProgress pausedTimeLeft timers
       cpuEnabled gpuEnabled].
  intros [_ [_ [_ [Hsome Hnone]]]] [Hdone Hdev].
  live_cases e m tm Hsome Hnone; eval_state.
  all: split; intros Hst;
    try (destruct Hst as [Hst | Hst]);
    try discriminate;
    try (apply Hdone; reflexivity);
    try (apply Hdev; first [left; reflexivity | right; reflexivity]).
  all: try (split; [reflexivity|]).
  all: try (apply Z.leb_le in Heqb; unfold remainingAt in *; lia).
  all: try (destruct cpu, gpu; try discriminate; auto).
Qed.

Lemma run_invariants (evs : list (Z * Event)) (s : Session) :
  consistent s -> logsWindow s -> countersAgree s -> rewardFromShares s -> settled s ->
  consistent (run s evs) /\ logsWindow (run s evs) /\ countersAgree (run s evs)
  /\ rewardFromShares (run s evs) /\ settled (run s evs).
Proof.
  revert s. induction evs as [|[now e] evs IH]; intros s Hc Hw Hn Hr Hs;
    cbn [run]; [split; [|split; [|split; [|split]]]; assumption|].
  apply IH.
  - apply AppFacts.consistent_step. exact Hc.
  - apply logsWindow_step. exact Hw.
  - apply countersAgree_step. exact Hn.
  - apply rewardFromShares_step; [exact Hc | apply Hn | exact Hr].
  - apply settled_step; assumption.
Qed.

Lemma reachable_invariants (s : Session) :
  reachable s ->
  consistent s /\ logsWindow s /\ countersAgree s /\ rewardFromShares s /\ settled s.
Proof.
  intros [evs ->]. apply run_invariants.
  - apply AppFacts.consistent_initial.
  - apply window_nil.
  - unfold countersAgree, initial. cbn [blocksFound sharesFound canFindShares].
    repeat split; intros; try discriminate; lia.
  - unfold rewardFromShares, initial. cbn [miningState displayedReward sharesFound].
    split; intros; [discriminate | reflexivity].
  - unfold settled, initial. cbn [miningState]. split; intros H;
      [discriminate | destruct H; discriminate].
Qed.

Lemma sorted_lt_NoDup (l : list Z) : StronglySorted Z.lt l -> NoDup l.
Proof.
  induction 1 as [|x l Hs IH Hx]; constructor; [|exact IH].
  intros Hin. rewrite Forall_forall in Hx. specialize (Hx x Hin). lia.
Qed.

(** X8.  The log window never holds more than 51 entries, and its entries carry
    distinct, increasing ids. *)
Theorem mining_logs_window (evs : list (Z * Event)) :
  (List.length (miningLogs (run initial evs)) <= 51)%nat
  /\ StronglySorted Z.lt (map id (miningLogs (run initial evs)))
  /\ NoDup (map id (miningLogs (run initial evs))).
Proof.
  destruct (reachable_invariants (run initial evs)) as [_ [[Hlen [Hs _]] _]];
    [exists evs; reflexivity|].
  repeat split; try assumption. apply sorted_lt_NoDup. exact Hs.
Qed.

(** X9.  A share is never counted before a block: the share counter is positive
    only when the block counter is, and the flag that opens shares is set
    exactly when a block has been counted. *)
Theorem shares_counted_only_after_a_block (evs : list (Z * Event)) :
  (0 < sharesFound (run initial evs) -> 0 < blocksFound (run initial evs))
  /\ (canFindShares (run initial evs) = true <-> 0 < blocksFound (run initial evs))
  /\ 0 <= sharesFound (run initial evs)
  /\ 0 <= blocksFound (run initial evs).
Proof.
  destruct (reachable_invariants (run initial evs)) as [_ [_ [[Hb [Hs [Hf Hsh]]] _]]];
    [exists evs; reflexivity|].
  repeat split; try assumption; apply Hf.
Qed.

(** X10.  The displayed reward follows the share counter, not the progress:
    until the session completes it is what the counted shares add up to,
    one increment per share clamped at 200 each time, so 0 while no share
    is counted; from completion on it is 200. *)
Theorem displayed_reward_follows_shares (evs : list (Z * Event)) :
  (miningState (run initial evs) = completed ->
   displayedReward (run initial evs) = 200%Q)
  /\ (miningState (run initial evs) <> completed ->
      displayedReward (run initial evs)
      = rewardAfter (Z.to_nat (sharesFound (run initial evs))))
  /\ (miningState (run initial evs) <> completed ->
      sharesFound (run initial evs) = 0 -> displayedReward (run initial evs) = 0%Q)
  /\ 0 <= sharesFound (run initial evs).
Proof.
  destruct (reachable_invariants (run initial evs)) as [_ [_ [[_ [Hs _]] [[Hd Hl] _]]]];
    [exists evs; reflexivity|].
  split; [exact Hd|]. split; [exact Hl|]. split; [|exact Hs].
  intros H H0. rewrite (Hl H), H0. reflexivity.
Qed.

(** X11.  Whenever the session is completed, and so the claim button is shown,
    progress is 100, no time is left, the reward is 200 and no interval is
    installed. *)
Theorem completed_session_is_full (evs : list (Z * Event)) :
  miningState (run initial evs) = completed ->
  progress (run initial evs) = 100%Q
  /\ timeLeft (run initial evs) = 0
  /\ displayedReward (run initial evs) = 200%Q
  /\ timers (run initial evs) = None.
Proof.
  intros H.
  destruct (reachable_invariants (run initial evs))
    as [[_ [_ [_ [Hsome _]]]] [_ [_ [[Hd _] [Hfull _]]]]]; [exists evs; reflexivity|].
  destruct (Hfull H) as [Hp Ht].
  repeat split; try assumption; [apply Hd; exact H|].
  destruct (timers (run initial evs)) as [t|] eqn:E; [|reflexivity].
  destruct (Hsome t eq_refl) as [Hm _]. congruence.
Qed.

Lemma completed_session_witness :
  progress (run initial ((1000, ClickStart false) :: Samples.fullSession)) = 100%Q
  /\ timeLeft (run initial ((1000, ClickStart false) :: Samples.fullSession)) = 0
  /\ displayedReward (run initial ((1000, ClickStart false) :: Samples.fullSession)) = 200%Q
  /\ timers (run initial ((1000, ClickStart false) :: Samples.fullSession)) = None.
Proof.
  apply completed_session_is_full. vm_compute. reflexivity.
Defined.

(** X12.  The intervals are installed exactly while the session is mining;
    progress never exceeds 100; a live session has time left and a device
    enabled; and a paused session shows the progress and the time left
    that were stored at the pause. *)
Theorem live_session_invariants (evs : list (Z * Event)) :
  (timers (run initial evs) = None <-> miningState (run initial evs) <> mining)
  /\ (progress (run initial evs) <= 100)%Q
  /\ (miningState (run initial evs) = mining \/ miningState (run initial evs) = paused ->
      0 < timeLeft (run initial evs)
      /\ (cpuEnabled (run initial evs) = true \/ gpuEnabled (run initial evs) = true))
  /\ (miningState (run initial evs) = paused ->
      pausedProgress (run initial evs) = progress (run initial evs)
      /\ pausedTimeLeft (run initial evs) = timeLeft (run initial evs)).
Proof.
  destruct (reachable_invariants (run initial evs))
    as [[Hp [Hlive [Hpaused [Hsome Hnone]]]] [_ [_ [_ [_ Hdev]]]]];
    [exists evs; reflexivity|].
  split; [split|split; [exact Hp|split; [|exact Hpaused]]].
  - exact Hnone.
  - intros Hm. destruct (timers (run initial evs)) as [t|] eqn:E; [|reflexivity].
    destruct (Hsome t eq_refl) as [Hm' _]. contradiction.
  - intros H. destruct (Hlive H) as [H1 _]. split; [exact H1|].
    apply Hdev. exact H.
Qed.

(** X13.  Starting is refused, with one destructive toast and the session left
    as it was, when the wallet has reached its limit or no device is
    enabled. *)
Theorem start_refused (now : Z) (hasReachedLimit : bool) (s : Session) :
  miningState s = idle ->
  hasReachedLimit = true \/ (cpuEnabled s = false /\ gpuEnabled s = false) ->
  fst (step now (ClickStart hasReachedLimit) s) = s
  /\ exists title description,
       snd (step now (ClickStart hasReachedLimit) s) = [Toast true title description].
Proof.
  destruct s as [m p tl hr pp ptl w cpu gpu logs bf sf cfs dr lid tm].
  cbn [miningState cpuEnabled gpuEnabled]. intros -> [-> | [-> ->]].
  - eval_state. split; [reflexivity|]. eexists. eexists. reflexivity.
  - destruct hasReachedLimit; eval_state;
      (split; [reflexivity|]; eexists; eexists; reflexivity).
Qed.

Lemma start_refused_witness :
  fst (step 1000 (ClickStart true) initial) = initial.
Proof.
  apply (start_refused 1000 true initial); [reflexivity | left; reflexivity].
Defined.

(** X14.  Stopping takes two steps.  The stop button only opens the warning; the
    confirm button does nothing unless the warning is open; cancelling
    leaves the session as it was before the stop button. *)
Theorem stop_takes_two_steps (now now' : Z) (s : Session) :
  miningState s = mining \/ miningState s = paused ->
  showStopWarning s = false ->
  fst (step now ClickStop s) = setShowStopWarning true s
  /\ step now ClickConfirmStop s = (s, [])
  /\ fst (step now' ClickCancelStop (fst (step now ClickStop s))) = s.
Proof.
  destruct s as [m p tl hr pp ptl w cpu gpu logs bf sf cfs dr lid tm].
  cbn [miningState showStopWarning]. intros Hm ->.
  match goal with
  | |- ?A /\ _ => assert A as Hstop
  end.
  { destruct Hm as [-> | ->]; eval_state; reflexivity. }
  split; [exact Hstop|]. rewrite Hstop. clear Hstop.
  destruct Hm as [-> | ->]; split; eval_state; reflexivity.
Qed.

Lemma stop_takes_two_steps_witness :
  fst (step 70000 ClickCancelStop
         (fst (step 65000 ClickStop (run initial Samples.oneMinute))))
  = run initial Samples.oneMinute.
Proof.
  apply (stop_takes_two_steps 65000 70000 (run initial Samples.oneMinute)).
  - left. vm_compute. reflexivity.
  - vm_compute. reflexivity.
Defined.

(** X15.  The confirmed stop discards the session: from every state with the
    warning open it gives the idle state with progress, time left, reward,
    pause snapshot, logs and counters back at their initial values; the
    devices stay as selected. *)
Theorem confirmed_stop_resets (now : Z) (s : Session) :
  showStopWarning s = true ->
  let s' := fst (step now ClickConfirmStop s) in
  miningState s' = idle /\ progress s' = 0%Q /\ timeLeft s' = 600000
  /\ displayedReward s' = 0%Q /\ pausedProgress s' = 0%Q /\ pausedTimeLeft s' = 0
  /\ miningLogs s' = [] /\ blocksFound s' = 0 /\ sharesFound s' = 0
  /\ canFindShares s' = false /\ showStopWarning s' = false
  /\ cpuEnabled s' = cpuEnabled s /\ gpuEnabled s' = gpuEnabled s
  /\ (consistent s -> timers s' = None).
Proof.
  destruct s as [m p tl hr pp ptl w cpu gpu logs bf sf cfs dr lid tm].
  cbn [showStopWarning]. intros ->. cbv zeta.
  unfold consistent.
  cbn [miningState progress timeLeft pausedProgress pausedTimeLeft timers].
  destruct m; eval_state; repeat split; try reflexivity.
  all: intros [_ [_ [_ [Hsome Hnone]]]].
  all: destruct tm as [t|]; [|reflexivity].
  all: destruct (Hsome t eq_refl) as [Hm _]; discriminate Hm.
Qed.

Lemma confirmed_stop_witness :
  progress (fst (step 70000 ClickConfirmStop
                   (fst (step 65000 ClickStop (run initial Samples.oneMinute))))) = 0%Q
  /\ timeLeft (fst (step 70000 ClickConfirmStop
                     (fst (step 65000 ClickStop (run initial Samples.oneMinute))))) = 600000.
Proof.
  destruct (confirmed_stop_resets 70000
              (fst (step 65000 ClickStop (run initial Samples.oneMinute))))
    as [_ [Hp [Ht _]]].
  - vm_compute. reflexivity.
  - split; assumption.
Defined.


(** X17.  While a session is live the device selection cannot change. *)
Theorem devices_locked_while_live (now : Z) (e : Event) (s : Session) :
  miningState s = mining \/ miningState s = paused ->
  cpuEnabled (fst (step now e s)) = cpuEnabled s
  /\ gpuEnabled (fst (step now e s)) = gpuEnabled s.
Proof.
  destruct s as [m p tl hr pp ptl w cpu gpu logs bf sf cfs dr lid tm].
  cbn [miningState]. intros [-> | ->]; destruct e; eval_state; split; reflexivity.
Qed.

Lemma devices_locked_witness :
  cpuEnabled (fst (step 62000 ToggleCpu (run initial Samples.oneMinute))) = true.
Proof.
  destruct (devices_locked_while_live 62000 ToggleCpu (run initial Samples.oneMinute))
    as [Hc _].
  - left. vm_compute. reflexivity.
  - rewrite Hc. vm_compute. reflexivity.
Defined.

Lemma remainingAt_antitone (t : Timer) (now1 now2 : Z) :
  now1 <= now2 -> remainingAt t now2 <= remainingAt t now1.
Proof. unfold remainingAt. lia. Qed.

Lemma progressAt_monotone (t : Timer) (now1 now2 : Z) :
  now1 <= now2 -> (progressAt t now1 <= progressAt t now2)%Q.
Proof.
  intros H. pose proof (remainingAt_antitone t now1 now2 H) as Hr.
  unfold progressAt.
  set (r1 := remainingAt t now1) in *. set (r2 := remainingAt t now2) in *.
  assert (inject_Z (remainingTime t - r1) <= inject_Z (remainingTime t - r2))%Q as Hq
    by (rewrite <- Zle_Qle; lia).
  apply Q.min_le_compat_l. lraq.
Qed.

(** X18.  Progress never goes back from one tick to a later one: of two ticks of
    a reachable mining session, the later shows at least the progress of
    the earlier. *)
Theorem progress_never_regresses (s : Session) (now1 now2 : Z) (r1 r2 : Q) :
  reachable s -> miningState s = mining -> now1 <= now2 ->
  (progress (fst (step now1 (TimerFires r1) s))
   <= progress (fst (step now2 (TimerFires r2) (fst (step now1 (TimerFires r1) s)))))%Q.
Proof.
  intros Hreach Hm Hle.
  pose proof (AppFacts.reachable_consistent s Hreach) as Hc.
  pose proof (AppFacts.consistent_step now1 (TimerFires r1) s Hc) as Hc1.
  destruct Hc as [_ [_ [_ [Hsome Hnone]]]].
  destruct (timers s) as [t|] eqn:Et; [|contradiction (Hnone eq_refl)].
  destruct (Hsome t eq_refl) as [_ [_ [_ Hv]]].
  rewrite (AppFacts.tick_progress now1 r1 s t Et Hv).
  set (s1 := fst (step now1 (TimerFires r1) s)) in *.
  destruct Hc1 as [Hp1 [_ [_ [Hsome1 Hnone1]]]].
  destruct (timers s1) as [t1|] eqn:Et1.
  - assert (t1 = t) as ->.
    { clear -Et Et1. subst s1.
      destruct s as [m p tl hr pp ptl w cpu gpu logs bf sf cfs dr lid tm].
      cbn [timers] in Et. subst tm.
      destruct m; revert Et1; eval_state; intros E; congruence. }
    rewrite (AppFacts.tick_progress now2 r2 s1 t Et1 Hv).
    apply progressAt_monotone. exact Hle.
  - rewrite (AppFacts.no_timer_no_tick now2 r2 s1 Et1).
    assert (progress s1 == progressAt t now1)%Q as E
      by (apply AppFacts.tick_progress; assumption).
    rewrite E. apply Qle_refl.
Qed.

Lemma progress_never_regresses_witness :
  Qle (progress (fst (step 90000 (TimerFires (1 # 2)) (run initial Samples.oneMinute))))
      (progress (fst (step 90100 (TimerFires (1 # 2))
                        (fst (step 90000 (TimerFires (1 # 2))
                                (run initial Samples.oneMinute)))))).
Proof.
  apply progress_never_regresses.
  - exists Samples.oneMinute. reflexivity.
  - vm_compute. reflexivity.
  - lia.
Defined.

End AppMore.

(** ** More on the variant with Stop & Claim *)

Module AppReadyMore.
Import Client AppReady AppReadySpec AppReadyInv.

Ltac unfold_state :=
  cbv [handle perform andThen set emit skip tick
       startMining pauseMining continueMining stopAndClaim
       handleClaim onConfirmed onWriteError onReverted onNextClaimTime cooldownTick
       setMiningState setProgress setTimeLeft setHashRate setAccumulatedReward
       setPausedProgress setPausedReward setPausedTimeLeft setShowPauseDialog
       setGlobalCooldown setTimers
       miningState progress timeLeft hashRate accumulatedReward pausedProgress
       pausedReward pausedTimeLeft showPauseDialog globalCooldown timers
       fst snd negb andb orb MiningState_eqb].

Ltac split_ifs :=
  repeat match goal with
         | |- context [if ?c then _ else _] => destruct c eqn:?
         | |- context [match ?c with Some _ => _ | None => _ end] => destruct c eqn:?
         end.

Ltac same_deps :=
  cbv [depsChanged MiningState_eqb miningState pausedProgress pausedReward pausedTimeLeft];
  rewrite ?Qeq_bool_refl, ?Z.eqb_refl;
  cbv beta iota delta [negb orb andb].

Ltac eval_state :=
  unfold step;
  repeat (unfold_state; split_ifs);
  unfold miningEffect; same_deps;
  repeat (unfold_state; split_ifs).

Lemma progressAt_endsFull (t : Timer) (now : Z) :
  endsFull t -> remainingAt t now <= 0 -> (progressAt t now == 100)%Q.
Proof.
  intros [_ Hfull] Hrem. unfold progressAt.
  assert (remainingAt t now = 0) as -> by (unfold remainingAt in *; lia).
  rewrite Z.sub_0_r. apply Qmin_100_ge. rewrite Hfull. apply Qle_refl.
Qed.

Lemma reward_of_progress (p : Q) :
  (p <= 100)%Q -> (Qmin 200 (p / 100 * 200) == p / 100 * 200)%Q.
Proof.
  intros H. destruct (Q.min_spec 200 (p / 100 * 200)) as [[H1 ->] | [H1 ->]];
    [lraq | reflexivity].
Qed.

Lemma endsFull_fresh (now : Z) : endsFull (installTimer now 0 0).
Proof. split; reflexivity. Qed.

Ltac steady_finish :=
  repeat match goal with
         | |- _ /\ _ => split
         | |- true = true -> _ => intros _
         | |- false = true -> _ => let H := fresh in intros H; discriminate H
         | |- forall t, Some _ = Some t -> _ => let t := fresh in let E := fresh in
                                              intros t E; injection E as <-
         | |- forall t, None = Some t -> _ => let t := fresh in let E := fresh in
                                             intros t E; discriminate E
         end;
  try assumption; try discriminate; try lia;
  try (apply Q.le_min_l);
  try (apply endsFull_fresh);
  try (unfold remainingAt; lia);
  try (left; first [assumption | apply reward_of_progress; apply Q.le_min_l | lraq]; fail);
  try (right; split; reflexivity);
  try (apply reward_of_progress; apply Q.le_min_l);
  try match goal with
      | H : forall t0, Some ?t = Some t0 -> endsFull t0 |- endsFull ?t =>
          apply H; reflexivity
      end;
  try lraq.

Lemma steady_initial : steady initial.
Proof.
  unfold steady, rewardOfProgress, initial.
  cbn [miningState progress timeLeft timers accumulatedReward showPauseDialog].
  split; [discriminate|]. split; [lia|]. split; [left; reflexivity|].
  split; intros; discriminate.
Qed.

Lemma steady_step (now : Z) (e : Event) (s : Session) :
  steady s -> steady (fst (step now e s)).
Proof.
  unfold steady, rewardOfProgress.
  destruct s as [m p tl hr acc pp pr ptl dlg cd tm].
  cbn [miningState progress timeLeft timers accumulatedReward showPauseDialog].
  intros [Hp [Htl [Hrew [Hdlg Htm]]]].
  destruct e; destruct m; destruct dlg.
  all: try (specialize (Hdlg eq_refl)); try (specialize (Htm eq_refl)).
  all: try (destruct Hrew as [Hrew | [Hready _]]; [|discriminate Hready]).
  all: eval_state.
  all: repeat match goal with
              | H : (_ <? _) = true |- _ => apply Z.ltb_lt in H
              | H : (_ <? _) = false |- _ => apply Z.ltb_ge in H
              | H : (_ <=? _) = true |- _ => apply Z.leb_le in H
              | H : (_ <=? _) = false |- _ => apply Z.leb_gt in H
              end.
  all: try (steady_finish; fail).
  (* the completing tick under the open dialog *)
  all: pose proof (Htm _ eq_refl) as Hfull;
    pose proof (progressAt_endsFull _ now Hfull ltac:(assumption)) as Hdone;
    steady_finish; rewrite Hdone; lraq.
Qed.

Lemma run_steady (evs : list (Z * Event)) (s : Session) :
  steady s -> steady (run s evs).
Proof.
  revert s. induction evs as [|[now e] evs IH]; intros s H; cbn [run]; [exact H|].
  apply IH. apply steady_step. exact H.
Qed.

(** X19.  In the variant, after every sequence of events, progress is at most
    100, the accumulated reward is at most 200, and the reward is the
    reward of the progress shown, [progress / 100 * 200], unless the
    session has completed: the completing tick sets the reward to 200
    whatever progress it shows. *)
Theorem accumulated_reward_follows_progress (evs : list (Z * Event)) :
  (progress (run initial evs) <= 100)%Q
  /\ (accumulatedReward (run initial evs) <= 200)%Q
  /\ ((accumulatedReward (run initial evs) == progress (run initial evs) / 100 * 200)%Q
      \/ (miningState (run initial evs) = ready
          /\ accumulatedReward (run initial evs) = 200%Q)).
Proof.
  destruct (run_steady evs initial steady_initial) as [Hp [_ [Hrew _]]].
  split; [exact Hp|]. split; [|exact Hrew].
  destruct Hrew as [Hrew | [_ ->]]; [|apply Qle_refl].
  unfold rewardOfProgress in Hrew. rewrite Hrew. lraq.
Qed.

(** X20.  While the cooldown runs, starting is refused: one destructive toast,
    and the session stays as it was. *)
Theorem cooldown_blocks_start (now : Z) (s : Session) :
  miningState s = idle -> 0 < globalCooldown s ->
  fst (step now ClickStart s) = s
  /\ snd (step now ClickStart s)
     = [Toast true "Cooldown Active"
          ("Wait " ++ formatTime (globalCooldown s) ++ " before mining again.")%string].
Proof.
  destruct s as [m p tl hr acc pp pr ptl dlg cd tm].
  cbn [miningState globalCooldown]. intros -> Hcd.
  unfold step, andThen, handle, startMining. cbn [miningState globalCooldown].
  destruct (Z.ltb_spec 0 cd) as [_ | Hge]; [|lia].
  eval_state; split; reflexivity.
Qed.

Lemma cooldown_blocks_start_witness :
  fst (step 5000 ClickStart (fst (step 1000 (NextClaimTime 61) initial)))
  = fst (step 1000 (NextClaimTime 61) initial).
Proof.
  apply cooldown_blocks_start; vm_compute; reflexivity.
Defined.

Lemma cooldownTick_step (now : Z) (s : Session) :
  0 <= globalCooldown s ->
  globalCooldown (fst (step now CooldownTimerFires s)) = Z.max 0 (globalCooldown s - 1000)
  /\ miningState (fst (step now CooldownTimerFires s)) = miningState s
  /\ progress (fst (step now CooldownTimerFires s)) = progress s
  /\ accumulatedReward (fst (step now CooldownTimerFires s)) = accumulatedReward s.
Proof.
  destruct s as [m p tl hr acc pp pr ptl dlg cd tm].
  cbn [globalCooldown miningState progress accumulatedReward]. intros Hcd.
  unfold step, andThen, handle, cooldownTick. cbn [globalCooldown].
  destruct (Z.ltb_spec 0 cd) as [Hlt | Hge]; destruct m; eval_state;
    repeat split; lia.
Qed.

(** X21.  The cooldown counts down by a second per tick and stops at zero: after
    [n] ticks it is [max(0, c - 1000 n)], with the session untouched. *)
Theorem cooldown_counts_down (times : list Z) (s : Session) :
  0 <= globalCooldown s ->
  let s' := run s (map (fun now => (now, CooldownTimerFires)) times) in
  globalCooldown s' = Z.max 0 (globalCooldown s - 1000 * Z.of_nat (List.length times))
  /\ miningState s' = miningState s
  /\ progress s' = progress s
  /\ accumulatedReward s' = accumulatedReward s.
Proof.
  revert s. induction times as [|now times IH]; intros s Hcd; cbn [map run List.length].
  - repeat split. lia.
  - destruct (cooldownTick_step now s Hcd) as [Hc [Hm [Hp Ha]]].
    destruct (IH (fst (step now CooldownTimerFires s))) as [Hc' [Hm' [Hp' Ha']]];
      [rewrite Hc; lia|].
    cbv zeta in *. rewrite Hc', Hm', Hp', Ha', Hc, Hm, Hp, Ha.
    repeat split. lia.
Qed.

Lemma cooldown_counts_down_witness :
  globalCooldown
    (run (fst (step 1000 (NextClaimTime 4) initial))
       (map (fun now => (now, CooldownTimerFires)) [2000; 3000; 4000; 5000]))
  = 0.
Proof.
  destruct (cooldown_counts_down [2000; 3000; 4000; 5000]
              (fst (step 1000 (NextClaimTime 4) initial))) as [Hc _].
  - vm_compute. discriminate.
  - rewrite Hc. vm_compute. reflexivity.
Defined.

Lemma ready_run_app (s : Session) (a b : list (Z * Event)) :
  run s (a ++ b) = run (run s a) b.
Proof.
  revert s. induction a as [|[now e] a IH]; intros s; cbn [app run]; [reflexivity|].
  apply IH.
Qed.

Lemma ready_reports_app (s : Session) (a b : list (Z * Event)) :
  reports s (a ++ b) = reports s a ++ reports (run s a) b.
Proof.
  revert s. induction a as [|[now e] a IH]; intros s; cbn [app run reports]; [reflexivity|].
  destruct (step now e s) as [s' out]. cbn [fst]. rewrite IH, app_assoc. reflexivity.
Qed.

Lemma passive_step_held (now : Z) (e : Event) (r : Q) (s : Session) :
  passive e = true -> heldAt r s ->
  heldAt r (fst (step now e s))
  /\ flat_map (fun o => match o with ReportClaim d => [d] | _ => [] end)
       (snd (step now e s)) = [].
Proof.
  unfold heldAt.
  destruct s as [m p tl hr acc pp pr ptl dlg cd tm].
  cbn [miningState showPauseDialog timers accumulatedReward].
  intros He [-> [-> [-> ->]]].
  destruct e; try discriminate He; eval_state; repeat split.
Qed.

Lemma passive_run_held (waiting : list (Z * Event)) (r : Q) (s : Session) :
  Forall (fun ev => passive (snd ev) = true) waiting -> heldAt r s ->
  heldAt r (run s waiting) /\ reports s waiting = [].
Proof.
  revert s. induction waiting as [|[now e] waiting IH]; intros s Hw Hs;
    cbn [run reports]; [split; [exact Hs | reflexivity]|].
  inversion Hw as [|? ? He Hw']; subst. cbn [snd] in He.
  destruct (passive_step_held now e r s He Hs) as [Hs' Hout].
  destruct (step now e s) as [s' out]. cbn [fst snd] in *.
  destruct (IH s' Hw' Hs') as [Hfin Hrep].
  rewrite Hout, Hrep. split; [exact Hfin | reflexivity].
Qed.

(** X22.  The reward of a paused session is frozen: whatever intervals fire and
    whatever claim failures are reported while it is paused, the session
    stays paused with the reward it had when the pause button was pressed,
    and Stop & Claim followed by the claim and its confirmation reports
    that reward, printed with six decimals, and returns to idle. *)
Theorem stop_and_claim_reports_reward_at_pause
  (s : Session) (now1 now2 now3 now4 : Z) (waiting : list (Z * Event))
  (hash address : string) :
  miningState s = mining ->
  Forall (fun ev => passive (snd ev) = true) waiting ->
  hash <> "" -> address <> "" ->
  let held := (now1, ClickPause) :: waiting in
  let claimed := [(now2, ClickStopAndClaim); (now3, ClickClaim true);
                  (now4, Confirmed hash address)] in
  miningState (run s held) = paused
  /\ accumulatedReward (run s held) = accumulatedReward s
  /\ reports s (held ++ claimed)
     = [{| Schema.Insert.walletAddress := address;
           Schema.Insert.amount := JS.toFixed 6 (accumulatedReward s);
           Schema.Insert.transactionHash := Some hash |}]
  /\ miningState (run s (held ++ claimed)) = idle.
Proof.
  intros Hm Hw Hh Ha held claimed.
  assert (heldAt (accumulatedReward s) (fst (step now1 ClickPause s))) as H1
    by (rewrite (AppReadyFacts.ready_pause_step now1 s Hm); repeat split).
  destruct (passive_run_held waiting _ _ Hw H1) as [[Pm [Pd [Pt Pa]]] Hrep].
  assert (run s held = run (fst (step now1 ClickPause s)) waiting) as Eh by reflexivity.
  assert (reports s held = []) as Rh.
  { unfold held. cbn [reports]. rewrite (AppReadyFacts.ready_pause_step now1 s Hm) in *.
    cbn [fst snd flat_map app] in *. exact Hrep. }
  rewrite ready_reports_app, ready_run_app, Rh, Eh. cbn [app].
  set (sp := run (fst (step now1 ClickPause s)) waiting) in *.
  split; [exact Pm|]. split; [exact Pa|].
  unfold claimed. cbn [reports run].
  rewrite (AppReadyFacts.ready_stopAndClaim_step now2 sp Pm Pd). cbn [fst snd flat_map app].
  set (s2 := setTimers None _).
  assert (accumulatedReward s2 = accumulatedReward s) as Ha2 by exact Pa.
  rewrite (AppReadyFacts.ready_claim_step now3 s2 eq_refl). cbn [fst snd flat_map app].
  destruct (AppReadyFacts.ready_confirmed_resets now4 hash address s2 Hh Ha)
    as [Hidle [_ [_ [_ [_ [_ Hout]]]]]].
  destruct (step now4 (Confirmed hash address) s2) as [s3 out3].
  cbn [fst snd] in *. rewrite Hout, Ha2, app_nil_r.
  split; [reflexivity | exact Hidle].
Qed.

Lemma stop_and_claim_witness :
  reports (run initial (firstn 2 Samples.stopAndClaimRun))
    ([(301050, ClickPause); (301100, TimerFires (1 # 2)); (302000, CooldownTimerFires);
      (303000, Reverted "execution reverted")]
     ++ [(305000, ClickStopAndClaim); (306000, ClickClaim true);
         (320000, Confirmed "0xabc" "0xA1")])
  = [{| Schema.Insert.walletAddress := "0xA1";
        Schema.Insert.amount := "100.000000";
        Schema.Insert.transactionHash := Some "0xabc" |}].
Proof.
  destruct (stop_and_claim_reports_reward_at_pause
              (run initial (firstn 2 Samples.stopAndClaimRun))
              301050 305000 306000 320000
              [(301100, TimerFires (1 # 2)); (302000, CooldownTimerFires);
               (303000, Reverted "execution reverted")]
              "0xabc" "0xA1") as [_ [_ [Hr _]]].
  - vm_compute. reflexivity.
  - repeat constructor.
  - discriminate.
  - discriminate.
  - rewrite Hr. vm_compute. reflexivity.
Defined.

Lemma ready_continue_fields (now : Z) (s : Session) :
  miningState s = paused ->
  miningState (fst (step now ClickContinue s)) = mining
  /\ progress (fst (step now ClickContinue s)) = progress s
  /\ timeLeft (fst (step now ClickContinue s)) = timeLeft s
  /\ accumulatedReward (fst (step now ClickContinue s)) = accumulatedReward s
  /\ timers (fst (step now ClickContinue s))
     = Some (installTimer now (pausedProgress s) (pausedTimeLeft s)).
Proof.
  destruct s as [m p tl hr acc pp pr ptl dlg cd tm].
  cbn [miningState]. intros ->. eval_state; repeat split.
Qed.

Lemma ready_no_timer_no_tick (now : Z) (random : Q) (s : Session) :
  timers s = None -> fst (step now (TimerFires random) s) = s.
Proof.
  destruct s as [m p tl hr acc pp pr ptl dlg cd tm]. cbn [timers]. intros ->.
  destruct m; eval_state; reflexivity.
Qed.

Lemma ready_tick_progress (now : Z) (random : Q) (s : Session) (t : Timer) :
  timers s = Some t ->
  progress (fst (step now (TimerFires random) s)) = progressAt t now.
Proof.
  destruct s as [m p tl hr acc pp pr ptl dlg cd tm]. cbn [timers]. intros ->.
  destruct m; eval_state; reflexivity.
Qed.

Lemma ready_tick_timeLeft (now : Z) (random : Q) (s : Session) (t : Timer) :
  timers s = Some t ->
  timeLeft (fst (step now (TimerFires random) s)) = remainingAt t now.
Proof.
  destruct s as [m p tl hr acc pp pr ptl dlg cd tm]. cbn [timers]. intros ->.
  destruct m; eval_state; reflexivity.
Qed.

(** X23.  Pause and resume in the variant, for a mining session reached by any
    sequence of events: while paused a tick changes nothing; resume keeps
    progress, time left and reward; a tick [d] ms after the resume shows the
    progress at the pause plus the share of [min(d, remaining)] in a
    session, clamped at 100, where [remaining] is the time left at the
    pause (a full session when that is 0); so a tick within one cadence
    after the resume moves progress forward by at most one tick's worth. *)
Theorem ready_pause_then_resume (evs : list (Z * Event)) (now_p now_r : Z) :
  miningState (run initial evs) = mining ->
  let s := run initial evs in
  let sp := fst (step now_p ClickPause s) in
  let sr := fst (step now_r ClickContinue sp) in
  let remaining := orFullSession (timeLeft s) in
  (forall now random, fst (step now (TimerFires random) sp) = sp)
  /\ miningState sr = mining
  /\ progress sr = progress s
  /\ timeLeft sr = timeLeft s
  /\ accumulatedReward sr = accumulatedReward s
  /\ (forall now random,
        now_r <= now ->
        (progress (fst (step now (TimerFires random) sr))
         == Qmin 100 (progress s
                      + inject_Z (Z.min (now - now_r) remaining) / 600000 * 100))%Q
        /\ timeLeft (fst (step now (TimerFires random) sr))
           = Z.max 0 (remaining - (now - now_r)))
  /\ (forall now random,
        now_r <= now <= now_r + Engine.tickMs ->
        (progress s <= progress (fst (step now (TimerFires random) sr)))%Q
        /\ (progress (fst (step now (TimerFires random) sr))
            <= progress s + Engine.tickWorth)%Q).
Proof.
  intros Hm s sp sr remaining.
  destruct (run_steady evs initial steady_initial) as [Hle [Htl _]].
  fold s in Hm, Hle, Htl.
  assert (sp = setTimers None
                 (setShowPauseDialog true
                    (setMiningState paused
                       (setPausedTimeLeft (timeLeft s)
                          (setPausedReward (accumulatedReward s)
                             (setPausedProgress (progress s) s)))))) as Esp
    by (unfold sp; rewrite (AppReadyFacts.ready_pause_step now_p s Hm); reflexivity).
  assert (miningState sp = paused) as Pm by (rewrite Esp; reflexivity).
  assert (timers sp = None) as Ptm by (rewrite Esp; reflexivity).
  destruct (ready_continue_fields now_r sp Pm) as [Rm [Rp [Rt [Ra Rtm]]]].
  fold sr in Rm, Rp, Rt, Ra, Rtm.
  assert (progress sp = progress s) as Pp by (rewrite Esp; reflexivity).
  assert (timeLeft sp = timeLeft s) as Pt by (rewrite Esp; reflexivity).
  assert (accumulatedReward sp = accumulatedReward s) as Pa by (rewrite Esp; reflexivity).
  assert (pausedProgress sp = progress s) as Ppp by (rewrite Esp; reflexivity).
  assert (pausedTimeLeft sp = timeLeft s) as Pptl by (rewrite Esp; reflexivity).
  rewrite Ppp, Pptl in Rtm.
  assert (0 < remaining) as Hrem.
  { unfold remaining, orFullSession. destruct (Z.eqb_spec (timeLeft s) 0); lia. }
  assert (forall now random, now_r <= now ->
            (progress (fst (step now (TimerFires random) sr))
             == Qmin 100 (progress s
                          + inject_Z (Z.min (now - now_r) remaining) / 600000 * 100))%Q
            /\ timeLeft (fst (step now (TimerFires random) sr))
               = Z.max 0 (remaining - (now - now_r))) as Htick.
  { intros now random Hnow. split.
    - rewrite (ready_tick_progress now random sr _ Rtm).
      unfold progressAt, remainingAt, installTimer.
      cbn [startTime initialProgress remainingTime endTime]. fold remaining.
      replace (remaining - Z.max 0 (now_r + remaining - now))
        with (Z.min (now - now_r) remaining) by lia.
      reflexivity.
    - rewrite (ready_tick_timeLeft now random sr _ Rtm).
      unfold remainingAt, installTimer. cbn [startTime remainingTime endTime].
      fold remaining. lia. }
  split; [|split; [|split; [|split; [|split; [|split]]]]].
  - intros now random. apply ready_no_timer_no_tick. exact Ptm.
  - exact Rm.
  - rewrite Rp. exact Pp.
  - rewrite Rt. exact Pt.
  - rewrite Ra. exact Pa.
  - exact Htick.
  - intros now random [Hnow1 Hnow2].
    destruct (Htick now random Hnow1) as [Hp _]. rewrite Hp.
    unfold Engine.tickWorth, Engine.tickMs, Engine.sessionDurationMs in *.
    assert (0 <= inject_Z (Z.min (now - now_r) remaining))%Q as Hd
      by (change 0%Q with (inject_Z 0); rewrite <- Zle_Qle; lia).
    assert (inject_Z (Z.min (now - now_r) remaining) <= inject_Z 100)%Q as Hu
      by (rewrite <- Zle_Qle; lia).
    destruct (Q.min_spec 100 (progress s
               + inject_Z (Z.min (now - now_r) remaining) / 600000 * 100))
      as [[H1 ->] | [H1 ->]]; split; lraq.
Qed.

Lemma ready_pause_then_resume_witness :
  timeLeft (fst (step 400000 ClickContinue
                   (fst (step 301050 ClickPause
                           (run initial (firstn 2 Samples.stopAndClaimRun))))))
  = 300000.
Proof.
  destruct (ready_pause_then_resume (firstn 2 Samples.stopAndClaimRun) 301050 400000)
    as [_ [_ [_ [Ht _]]]].
  - vm_compute. reflexivity.
  - rewrite Ht. vm_compute. reflexivity.
Defined.

(** X24.  [formatTime] shows whole seconds and wraps every hour. *)
Theorem formatTime_wraps (ms : Z) :
  0 <= ms ->
  formatTime ms = formatTime (1000 * (ms / 1000))
  /\ formatTime (ms + 3600000) = formatTime ms.
Proof.
  intros H. unfold formatTime. split.
  - replace (1000 * (ms / 1000) / 1000) with (ms / 1000)
      by (rewrite Z.mul_comm, Z.div_mul by lia; reflexivity).
    reflexivity.
  - replace (ms + 3600000) with (ms + 3600 * 1000) by lia.
    rewrite (Z.div_add ms 3600 1000) by lia.
    replace (ms / 1000 + 3600) with (ms / 1000 + 60 * 60) by lia.
    rewrite (Z.mod_add (ms / 1000) 60 60) by lia.
    rewrite (Z.div_add (ms / 1000) 60 60) by lia.
    replace (ms / 1000 / 60 + 60) with (ms / 1000 / 60 + 1 * 60) by lia.
    rewrite (Z.mod_add (ms / 1000 / 60) 1 60) by lia.
    reflexivity.
Qed.

Lemma formatTime_witness :
  formatTime 600999 = "10:00" /\ formatTime (599000 + 3600000) = "09:59".
Proof.
  destruct (formatTime_wraps 600999) as [H1 _]; [lia|].
  destruct (formatTime_wraps 599000) as [_ H2]; [lia|].
  rewrite H1, H2. vm_compute. split; reflexivity.
Defined.

End AppReadyMore.

(** ** The further invariants on sample runs *)

Lemma shares_counted_witness :
  0 < App.blocksFound
        (App.run App.initial ((1000, App.ClickStart false) :: firstn 3 Samples.fullSession)).
Proof.
  destruct (AppMore.shares_counted_only_after_a_block
              ((1000, App.ClickStart false) :: firstn 3 Samples.fullSession)) as [H _].
  apply H. vm_compute. reflexivity.
Defined.

Lemma displayed_reward_follows_witness :
  App.displayedReward
    (App.run App.initial ((1000, App.ClickStart false) :: firstn 3 Samples.fullSession))
  = AppInv.rewardAfter 1.
Proof.
  destruct (AppMore.displayed_reward_follows_shares
              ((1000, App.ClickStart false) :: firstn 3 Samples.fullSession)) as [_ [H _]].
  rewrite H; [vm_compute; reflexivity | vm_compute; discriminate].
Defined.

Lemma live_session_witness :
  0 < App.timeLeft (App.run App.initial Samples.oneMinute)
  /\ (App.cpuEnabled (App.run App.initial Samples.oneMinute) = true
      \/ App.gpuEnabled (App.run App.initial Samples.oneMinute) = true).
Proof.
  destruct (AppMore.live_session_invariants Samples.oneMinute) as [_ [_ [H _]]].
  apply H. left. vm_compute. reflexivity.
Defined.

